(** * NeuroGate: the spiking-network core (neuron, synapse, command executor,
      JNI bridge) embedded in Rocq.

    Source files modelled:
    - [c/core/neuron.c], [c/core/neuron.h]
    - [c/core/synapse.c], [c/core/synapse.h]
    - [c/runtime/exec.c], [c/runtime/exec.h]
    - [c/api/bridge.c]
    - [c/memory/mm.c] (the block list and the statistics of the allocator)

    Conventions of the embedding.
    - A C [float] is an IEEE-754 binary32 value: [spec_float] of the
      Standard Library with precision 24 and [emax = 128]; every arithmetic
      operation rounds to nearest-even once, as the C code does when it is
      compiled with float evaluation and no contraction.  A NaN has no
      payload here.
    - [expf] and [tanhf] come from libm, outside the repository; they are
      section variables.  What else a function reads from outside the
      variables modelled is an argument: the answers of the host allocator
      in [Mm], and the values the enumerators [CMD_SET_NEURON_PARAM] and
      [CMD_GET_MEMORY_STATS] carry in [Exec].
    - A [uint32_t] is a [Z]; the only operation on identifiers is equality.
    - A function that mutates its [Neuron *] or [Synapse *] argument returns
      the updated record beside its C result.
    - [g_neurons] and [g_synapses] hold only non-NULL pointers, each to a
      record of its own; they are lists of records, [g_neuron_count] and
      [g_synapse_count] are their lengths, and a pointer into an array is the
      index of its entry.
    - Log calls change no simulation state and are left out.  The host
      [malloc] and the JNI array functions are taken to succeed;
      [mm_alloc 0] returns NULL as [mm.c] writes it.  The [int] counters of
      the arrays are unbounded naturals. *)

From Stdlib Require Import ZArith List Bool Lia SpecFloat.
Import ListNotations.

Set Implicit Arguments.

(* ================================================================= *)
(** ** IEEE-754 binary32 *)

Definition f32 : Type := spec_float.

Module F32.

Definition prec : Z := 24.
Definition emax : Z := 128.

(** An integer constant, such as [2.0f] or [-70.0f]. *)
Definition of_Z (z : Z) : f32 := binary_normalize prec emax z 0 false.

(** A decimal constant [num/den], such as [0.1f = lit 1 10]: the quotient of
    two exactly representable integers is rounded once. *)
Definition lit (num den : Z) : f32 := SFdiv prec emax (of_Z num) (of_Z den).

Definition zero : f32 := S754_zero false.
Definition one : f32 := of_Z 1.

Definition add : f32 -> f32 -> f32 := SFadd prec emax.
Definition sub : f32 -> f32 -> f32 := SFsub prec emax.
Definition mul : f32 -> f32 -> f32 := SFmul prec emax.
Definition div : f32 -> f32 -> f32 := SFdiv prec emax.
Definition opp : f32 -> f32 := SFopp.

(** The C comparisons; each is false as soon as an operand is a NaN, except
    [!=], which is then true. *)
Definition ltb (x y : f32) : bool := SFltb x y.
Definition leb (x y : f32) : bool := SFleb x y.
Definition gtb (x y : f32) : bool := SFltb y x.
Definition geb (x y : f32) : bool := SFleb y x.
Definition eqb (x y : f32) : bool := SFeqb x y.
Definition neb (x y : f32) : bool := negb (SFeqb x y).

Definition is_nan (x : f32) : bool :=
  match x with S754_nan => true | _ => false end.

(** Neither a NaN nor an infinity. *)
Definition is_finite (x : f32) : bool :=
  match x with S754_zero _ | S754_finite _ _ _ => true | _ => false end.

Definition is_zero (x : f32) : bool :=
  match x with S754_zero _ => true | _ => false end.

(** [fmaxf]: the larger operand; a NaN operand is ignored. *)
Definition max (x y : f32) : f32 :=
  match SFcompare x y with
  | Some Gt => x
  | Some _ => y
  | None => if is_nan x then y else x
  end.

End F32.

Declare Scope f32_scope.
Delimit Scope f32_scope with f32.
Bind Scope f32_scope with f32.
Infix "+" := F32.add : f32_scope.
Infix "-" := F32.sub : f32_scope.
Infix "*" := F32.mul : f32_scope.
Infix "/" := F32.div : f32_scope.
Notation "- x" := (F32.opp x) : f32_scope.
Infix "<?" := F32.ltb (at level 70, no associativity) : f32_scope.
Infix "<=?" := F32.leb (at level 70, no associativity) : f32_scope.
Infix ">?" := F32.gtb (at level 70, no associativity) : f32_scope.
Infix ">=?" := F32.geb (at level 70, no associativity) : f32_scope.
Infix "==?" := F32.eqb (at level 70, no associativity) : f32_scope.
Infix "!=?" := F32.neb (at level 70, no associativity) : f32_scope.

(* ================================================================= *)
(** ** core/neuron.h, core/synapse.h: the data model *)

Inductive NeuronType : Type :=
| EXCITATORY
| INHIBITORY
| NeuronType_other (raw : Z).

Inductive ActivationFunction : Type :=
| LINEAR
| SIGMOID
| RELU
| TANH
| ActivationFunction_other (raw : Z).

Inductive SynapseType : Type :=
| EXCITATORY_SYNAPSE
| INHIBITORY_SYNAPSE
| MODULATORY_SYNAPSE
| SynapseType_other (raw : Z).

Inductive PlasticityType : Type :=
| STATIC
| STDP
| HEBBIAN
| HOMEOSTATIC.

(** The casts [(NeuronType)u], [(ActivationFunction)u] and [(SynapseType)u]
    of a [uint32_t]: a value outside the enumerators is kept as it is. *)
Definition NeuronType_of_u32 (u : Z) : NeuronType :=
  match u with
  | 0%Z => EXCITATORY
  | 1%Z => INHIBITORY
  | _ => NeuronType_other u
  end.

Definition ActivationFunction_of_u32 (u : Z) : ActivationFunction :=
  match u with
  | 0%Z => LINEAR
  | 1%Z => SIGMOID
  | 2%Z => RELU
  | 3%Z => TANH
  | _ => ActivationFunction_other u
  end.

Definition SynapseType_of_u32 (u : Z) : SynapseType :=
  match u with
  | 0%Z => EXCITATORY_SYNAPSE
  | 1%Z => INHIBITORY_SYNAPSE
  | 2%Z => MODULATORY_SYNAPSE
  | _ => SynapseType_other u
  end.

(** [struct Neuron].  [num_connections] is the length of
    [connected_neurons]; [user_data] is always NULL and is left out. *)
Record Neuron : Type := mkNeuron {
  n_id : Z;
  n_type : NeuronType;
  n_activation : ActivationFunction;
  potential : f32;
  threshold : f32;
  rest_potential : f32;
  refractory_period : f32;
  last_fired : f32;
  connected_neurons : list Z
}.

(** [struct Synapse]; [user_data] is left out as above. *)
Record Synapse : Type := mkSynapse {
  s_id : Z;
  pre_neuron_id : Z;
  post_neuron_id : Z;
  s_type : SynapseType;
  plasticity : PlasticityType;
  weight : f32;
  delay : f32;
  last_active : f32;
  max_weight : f32;
  min_weight : f32
}.

(** Field assignments. *)
Definition set_potential (v : f32) (n : Neuron) : Neuron :=
  mkNeuron (n_id n) (n_type n) (n_activation n) v (threshold n)
    (rest_potential n) (refractory_period n) (last_fired n)
    (connected_neurons n).

Definition set_threshold (v : f32) (n : Neuron) : Neuron :=
  mkNeuron (n_id n) (n_type n) (n_activation n) (potential n) v
    (rest_potential n) (refractory_period n) (last_fired n)
    (connected_neurons n).

Definition set_rest_potential (v : f32) (n : Neuron) : Neuron :=
  mkNeuron (n_id n) (n_type n) (n_activation n) (potential n) (threshold n)
    v (refractory_period n) (last_fired n) (connected_neurons n).

Definition set_refractory_period (v : f32) (n : Neuron) : Neuron :=
  mkNeuron (n_id n) (n_type n) (n_activation n) (potential n) (threshold n)
    (rest_potential n) v (last_fired n) (connected_neurons n).

Definition set_last_fired (v : f32) (n : Neuron) : Neuron :=
  mkNeuron (n_id n) (n_type n) (n_activation n) (potential n) (threshold n)
    (rest_potential n) (refractory_period n) v (connected_neurons n).

Definition set_connected_neurons (v : list Z) (n : Neuron) : Neuron :=
  mkNeuron (n_id n) (n_type n) (n_activation n) (potential n) (threshold n)
    (rest_potential n) (refractory_period n) (last_fired n) v.

Definition set_weight (v : f32) (s : Synapse) : Synapse :=
  mkSynapse (s_id s) (pre_neuron_id s) (post_neuron_id s) (s_type s)
    (plasticity s) v (delay s) (last_active s) (max_weight s) (min_weight s).

Definition set_delay (v : f32) (s : Synapse) : Synapse :=
  mkSynapse (s_id s) (pre_neuron_id s) (post_neuron_id s) (s_type s)
    (plasticity s) (weight s) v (last_active s) (max_weight s) (min_weight s).

Definition set_last_active (v : f32) (s : Synapse) : Synapse :=
  mkSynapse (s_id s) (pre_neuron_id s) (post_neuron_id s) (s_type s)
    (plasticity s) (weight s) (delay s) v (max_weight s) (min_weight s).

Definition set_plasticity (v : PlasticityType) (s : Synapse) : Synapse :=
  mkSynapse (s_id s) (pre_neuron_id s) (post_neuron_id s) (s_type s)
    v (weight s) (delay s) (last_active s) (max_weight s) (min_weight s).

(* ================================================================= *)
(** ** core/neuron.c *)

Open Scope f32_scope.

(** [neuron_create]. *)
Definition neuron_create (id : Z) (type : NeuronType)
    (activation : ActivationFunction) : Neuron :=
  {| n_id := id;
     n_type := type;
     n_activation := activation;
     potential := F32.of_Z (-70);
     threshold := F32.of_Z (-55);
     rest_potential := F32.of_Z (-70);
     refractory_period := F32.of_Z 2;
     last_fired := F32.of_Z (-1000);
     connected_neurons := [] |}.

(** The duplicate scan of [neuron_connect]. *)
Fixpoint connection_exists (target_id : Z) (conns : list Z) : bool :=
  match conns with
  | [] => false
  | c :: rest =>
      if (c =? target_id)%Z then true else connection_exists target_id rest
  end.

(** [neuron_connect]: both results of the C function are 0 here (the
    reallocation is taken to succeed). *)
Definition neuron_connect (source target : Neuron) : Neuron :=
  if connection_exists (n_id target) (connected_neurons source) then source
  else set_connected_neurons (connected_neurons source ++ [n_id target]) source.

(** [neuron_fire]: the updated neuron and whether it fired. *)
Definition neuron_fire (neuron : Neuron) (current_time : f32) : Neuron * bool :=
  if current_time - last_fired neuron <? refractory_period neuron then
    (neuron, false)
  else if potential neuron >=? threshold neuron then
    (set_potential (rest_potential neuron) (set_last_fired current_time neuron),
     true)
  else
    (neuron, false).

(** [neuron_reset]. *)
Definition neuron_reset (neuron : Neuron) : Neuron :=
  set_last_fired (F32.of_Z (-1000))
    (set_potential (rest_potential neuron) neuron).

Section Libm.

(** [expf] and [tanhf] of the C library. *)
Variables expf tanhf : f32 -> f32.

(** [apply_activation]; the [default] branch returns the value. *)
Definition apply_activation (func : ActivationFunction) (value : f32) : f32 :=
  match func with
  | LINEAR => value
  | SIGMOID => F32.one / (F32.one + expf (- value))
  | RELU => if value >? F32.zero then value else F32.zero
  | TANH => tanhf value
  | ActivationFunction_other _ => value
  end.

(** [neuron_compute]: the updated neuron and the activation output. *)
Definition neuron_compute (neuron : Neuron) (input dt : f32) : Neuron * f32 :=
  let p1 := potential neuron + input * dt in
  let leak_rate := F32.lit 1 10 in
  let p2 := p1 * (F32.one - leak_rate) + rest_potential neuron * leak_rate in
  (set_potential p2 neuron, apply_activation (n_activation neuron) p2).

End Libm.

(* ================================================================= *)
(** ** core/synapse.c *)

(** [synapse_create]. *)
Definition synapse_create (id pre_id post_id : Z) (type : SynapseType)
    : Synapse :=
  {| s_id := id;
     pre_neuron_id := pre_id;
     post_neuron_id := post_id;
     s_type := type;
     plasticity := STATIC;
     weight :=
       match type with
       | EXCITATORY_SYNAPSE => F32.lit 1 2
       | INHIBITORY_SYNAPSE => - F32.lit 1 2
       | _ => F32.lit 1 10
       end;
     delay := F32.of_Z 1;
     last_active := F32.of_Z (-1000);
     max_weight := F32.of_Z 1;
     min_weight := - F32.of_Z 1 |}.

(** [synapse_activate]: the updated synapse and the signal. *)
Definition synapse_activate (synapse : Synapse) (input current_time : f32)
    : Synapse * f32 :=
  if current_time <? last_active synapse + delay synapse then
    (synapse, F32.zero)
  else
    (set_last_active current_time synapse, input * weight synapse).

(** [synapse_reset]. *)
Definition synapse_reset (synapse : Synapse) : Synapse :=
  set_last_active (F32.of_Z (-1000)) synapse.

Section Stdp.

Variable expf : f32 -> f32.

(** [synapse_update_weight]. *)
Definition synapse_update_weight (synapse : Synapse)
    (pre_spike_time post_spike_time : f32) : Synapse :=
  match plasticity synapse with
  | STDP =>
      let time_diff := post_spike_time - pre_spike_time in
      let learning_rate := F32.lit 1 100 in
      let time_constant := F32.of_Z 20 in
      let weight_change :=
        if time_diff >? F32.zero then
          learning_rate * expf (- time_diff / time_constant)
        else
          - learning_rate * expf (time_diff / time_constant) in
      let w := weight synapse + weight_change in
      if w >? max_weight synapse then
        set_weight (max_weight synapse) synapse
      else if w <? min_weight synapse then
        set_weight (min_weight synapse) synapse
      else set_weight w synapse
  | _ => synapse
  end.

(** The weight change of the rule as the specification words it, a function
    of the spike-time difference. *)
Definition stdp_delta (time_diff : f32) : f32 :=
  if time_diff >? F32.zero then
    F32.lit 1 100 * expf (- time_diff / F32.of_Z 20)
  else
    - F32.lit 1 100 * expf (time_diff / F32.of_Z 20).

(** Successive updates, one per pair of spike times. *)
Definition synapse_update_weights (synapse : Synapse)
    (spikes : list (f32 * f32)) : Synapse :=
  fold_left (fun s pp => synapse_update_weight s (fst pp) (snd pp))
    spikes synapse.

End Stdp.

(** The fresh excitatory synapse with STDP switched on
    ([synapse->plasticity = STDP]). *)
Definition stdp_synapse : Synapse :=
  set_plasticity STDP (synapse_create 1 1 2 EXCITATORY_SYNAPSE).

(** Clamping into [[lo, hi]] as the specification words it, the upper bound
    tested first. *)
Definition clamp (lo hi w : f32) : f32 :=
  if w >? hi then hi else if w <? lo then lo else w.

(** Whether the two updates of the specification's STDP example, spike times
    10 and 15 and spike times 15 and 10, move a weight [w] between the
    default bounds -1 and 1 strictly, up for the first and down for the
    second, when [expf (-0.25f)] returns [e]. *)
Definition stdp_example_moves (e w : f32) : bool :=
  (w <? clamp (- F32.of_Z 1) (F32.of_Z 1) (w + F32.lit 1 100 * e)) &&
  (clamp (- F32.of_Z 1) (F32.of_Z 1) (w + - F32.lit 1 100 * e) <? w).

(** The same for the three weights [synapse_create] gives. *)
Definition stdp_fresh_moves (e : f32) : bool :=
  stdp_example_moves e (F32.lit 1 2) &&
  stdp_example_moves e (- F32.lit 1 2) &&
  stdp_example_moves e (F32.lit 1 10).

(** The same for each of the [count] binary32 numbers [k * 2^-24] with
    [m <= k < m + count]. *)
Fixpoint stdp_fresh_moves_from (count : nat) (m : positive) : bool :=
  match count with
  | O => true
  | S count' =>
      stdp_fresh_moves (S754_finite false m (-24)) &&
      stdp_fresh_moves_from count' (Pos.succ m)
  end.

Close Scope f32_scope.

(* ================================================================= *)
(** ** The entity arrays shared by runtime/exec.c and api/bridge.c *)

(** [a[i] = f (a[i])]; nothing happens out of range (the C code only writes
    through indices it has just read). *)
Fixpoint update_at (A : Type) (i : nat) (f : A -> A) (l : list A) : list A :=
  match l, i with
  | [], _ => []
  | x :: rest, O => f x :: rest
  | x :: rest, S i' => x :: update_at i' f rest
  end.

(** The shift loop of the delete commands. *)
Fixpoint remove_at (A : Type) (i : nat) (l : list A) : list A :=
  match l, i with
  | [], _ => []
  | _ :: rest, O => rest
  | x :: rest, S i' => x :: remove_at i' rest
  end.

(** The search loop of [neuron_disconnect]: the index of the first entry
    equal to [target_id] ([found], with [None] for -1). *)
Fixpoint connection_index (target_id : Z) (conns : list Z) : option nat :=
  match conns with
  | [] => None
  | c :: rest =>
      if (c =? target_id)%Z then Some O
      else option_map S (connection_index target_id rest)
  end.

(** [neuron_disconnect] of core/neuron.c: the entries after [found] move one
    place down; both results of the C function are 0 here. *)
Definition neuron_disconnect (source target : Neuron) : Neuron :=
  match connection_index (n_id target) (connected_neurons source) with
  | None => source
  | Some found =>
      set_connected_neurons (remove_at found (connected_neurons source)) source
  end.

(** [find_neuron]: the index of the first entry with this id. *)
Fixpoint find_neuron (neurons : list Neuron) (id : Z) : option nat :=
  match neurons with
  | [] => None
  | n :: rest =>
      if (n_id n =? id)%Z then Some O else option_map S (find_neuron rest id)
  end.

(** [find_synapse]. *)
Fixpoint find_synapse (synapses : list Synapse) (id : Z) : option nat :=
  match synapses with
  | [] => None
  | s :: rest =>
      if (s_id s =? id)%Z then Some O else option_map S (find_synapse rest id)
  end.

(** The synapse scan of the propagation loop: the first synapse from
    [pre_id] to [post_id], with its index. *)
Fixpoint find_synapse_between (synapses : list Synapse) (pre_id post_id : Z)
    : option (nat * Synapse) :=
  match synapses with
  | [] => None
  | s :: rest =>
      if ((pre_neuron_id s =? pre_id) && (post_neuron_id s =? post_id))%Z then
        Some (O, s)
      else
        option_map (fun r => (S (fst r), snd r))
          (find_synapse_between rest pre_id post_id)
  end.

(** The number of array entries the loop of [find_neuron] inspects. *)
Fixpoint find_neuron_probes (neurons : list Neuron) (id : Z) : nat :=
  match neurons with
  | [] => O
  | n :: rest =>
      if (n_id n =? id)%Z then 1%nat else S (find_neuron_probes rest id)
  end.

(** The number of entries the synapse scan of the propagation loop inspects. *)
Fixpoint find_synapse_between_probes (synapses : list Synapse)
    (pre_id post_id : Z) : nat :=
  match synapses with
  | [] => O
  | s :: rest =>
      if ((pre_neuron_id s =? pre_id) && (post_neuron_id s =? post_id))%Z then
        1%nat
      else S (find_synapse_between_probes rest pre_id post_id)
  end.

(** The entries inspected by one lookup after the other of the ids of a
    list; a lookup leaves the array as it is. *)
Definition lookups_probes (neurons : list Neuron) (ids : list Z) : nat :=
  list_sum (map (find_neuron_probes neurons) ids).

(** The neuron array after [count] creations, with the ids
    [0 .. count - 1] and no override (see [run_numbered_creations]). *)
Definition numbered_neurons (count : nat) : list Neuron :=
  map (fun k => neuron_create (Z.of_nat k) EXCITATORY LINEAR) (seq 0 count).

(** What the propagation loop needs before it activates a synapse: a live
    neuron with the synapse's [pre_neuron_id] lists its [post_neuron_id]
    among its connections, and a live neuron has that id. *)
Definition wired (neurons : list Neuron) (s : Synapse) : bool :=
  existsb
    (fun n =>
       (n_id n =? pre_neuron_id s)%Z &&
       connection_exists (post_neuron_id s) (connected_neurons n))
    neurons &&
  existsb (fun n => (n_id n =? post_neuron_id s)%Z) neurons.

(** [target->potential += signal]. *)
Definition add_potential (signal : f32) (n : Neuron) : Neuron :=
  set_potential (F32.add (potential n) signal) n.

(** One iteration of the loop over [connected_neurons] of a neuron that
    fired: look the target up, scan for the synapse, activate it and add the
    signal to the target. *)
Definition propagate_to (pre_id : Z) (now : f32)
    (arrays : list Neuron * list Synapse) (target_id : Z)
    : list Neuron * list Synapse :=
  let (neurons, synapses) := arrays in
  match find_neuron neurons target_id with
  | None => arrays
  | Some k =>
      match find_synapse_between synapses pre_id target_id with
      | None => arrays
      | Some (si, syn) =>
          let (syn', signal) := synapse_activate syn F32.one now in
          (update_at k (add_potential signal) neurons,
           update_at si (fun _ => syn') synapses)
      end
  end.

Section Scheduler.

Variables expf tanhf : f32 -> f32.

(** The body of the loop over [g_neurons]: compute, fire, propagate.  The
    third component is the output of [neuron_compute], when entry [i]
    exists. *)
Definition process_neuron (time_step now : f32)
    (arrays : list Neuron * list Synapse) (i : nat)
    : list Neuron * list Synapse * option f32 :=
  let (neurons, synapses) := arrays in
  match nth_error neurons i with
  | None => (arrays, None)
  | Some n =>
      let (n1, out) := neuron_compute expf tanhf n F32.zero time_step in
      let (n2, fired) := neuron_fire n1 now in
      let neurons1 := update_at i (fun _ => n2) neurons in
      if fired then
        (fold_left (propagate_to (n_id n2) now) (connected_neurons n2)
           (neurons1, synapses),
         Some out)
      else (neurons1, synapses, Some out)
  end.

End Scheduler.

(* ================================================================= *)
(** ** runtime/exec.h, runtime/exec.c *)

Module Exec.

(** [command_type_t].  Two enumerators carry what their case of
    [exec_command] reads from outside the executor's variables and
    [command_params_t]: [CMD_SET_NEURON_PARAM value] carries the
    [params->value] of its case, a member that [command_params_t] does not
    declare, and [CMD_GET_MEMORY_STATS used] carries what
    [mm_get_used_memory] returns at the call.  [CMD_unknown raw] is a value
    outside the enumerators. *)
Inductive command_type_t : Type :=
| CMD_NOOP
| CMD_CREATE_NEURON
| CMD_DELETE_NEURON
| CMD_CONNECT_NEURONS
| CMD_CREATE_SYNAPSE
| CMD_RUN_SIMULATION
| CMD_RESET_SIMULATION
| CMD_GET_NEURON_STATE
| CMD_SET_NEURON_PARAM (value : f32)
| CMD_GET_MEMORY_STATS (used : Z)
| CMD_SHUTDOWN
| CMD_unknown (raw : Z).

(** [command_params_t] ([data] and [data_size] are never read). *)
Record command_params_t : Type := mkParams {
  neuron_id : Z;
  neuron_type : Z;
  activation_type : Z;
  p_threshold : f32;
  p_rest_potential : f32;
  p_refractory_period : f32;
  target_id : Z;
  synapse_id : Z;
  synapse_type : Z;
  p_weight : f32;
  p_delay : f32;
  sim_time : f32;
  time_step : f32;
  num_steps : Z
}.

(** [command_result_t] ([data] and [data_size] stay zero). *)
Record command_result_t : Type := mkResult {
  status : Z;
  id : Z;
  value : f32
}.

(** The file-scope variables of exec.c. *)
Record state : Type := mkState {
  g_initialized : bool;
  g_running : bool;
  g_neurons : list Neuron;
  g_neuron_capacity : Z;
  g_synapses : list Synapse;
  g_synapse_capacity : Z;
  g_simulation_time : f32
}.

(** The variables as C initialises them. *)
Definition start : state :=
  mkState false false [] 0 [] 0 F32.zero.

(** [exec_init]. *)
Definition exec_init (st : state) : state * Z :=
  if g_initialized st then (st, 0%Z)
  else (mkState true true [] 100 [] 500 F32.zero, 0%Z).

(** [result = {0}] with [status] set. *)
Definition ok : command_result_t := mkResult 0 0 F32.zero.
Definition failed : command_result_t := mkResult (-1) 0 F32.zero.

Definition set_arrays (arrays : list Neuron * list Synapse) (st : state)
    : state :=
  mkState (g_initialized st) (g_running st) (fst arrays)
    (g_neuron_capacity st) (snd arrays) (g_synapse_capacity st)
    (g_simulation_time st).

Definition set_simulation_time (t : f32) (st : state) : state :=
  mkState (g_initialized st) (g_running st) (g_neurons st)
    (g_neuron_capacity st) (g_synapses st) (g_synapse_capacity st) t.

(** The doubling of an array that is full. *)
Definition grown (count : nat) (capacity : Z) : Z :=
  if (Z.of_nat count >=? capacity)%Z then (capacity * 2)%Z else capacity.

(** The overrides of [CMD_CREATE_NEURON]. *)
Definition neuron_overrides (p : command_params_t) (neuron : Neuron) : Neuron :=
  let neuron :=
    if F32.neb (p_threshold p) F32.zero
    then set_threshold (p_threshold p) neuron else neuron in
  let neuron :=
    if F32.neb (p_rest_potential p) F32.zero
    then set_rest_potential (p_rest_potential p) neuron else neuron in
  if F32.neb (p_refractory_period p) F32.zero
  then set_refractory_period (p_refractory_period p) neuron else neuron.

(** The overrides of [CMD_CREATE_SYNAPSE]. *)
Definition synapse_overrides (p : command_params_t) (synapse : Synapse)
    : Synapse :=
  let synapse :=
    if F32.neb (p_weight p) F32.zero
    then set_weight (p_weight p) synapse else synapse in
  if F32.neb (p_delay p) F32.zero
  then set_delay (p_delay p) synapse else synapse.

(** The commands that create the neurons of a list of parameters. *)
Definition creations (ps : list command_params_t)
    : list (command_type_t * option command_params_t) :=
  map (fun p => (CMD_CREATE_NEURON, Some p)) ps.

(** The parameters of the creation of neuron [k], no override given. *)
Definition numbered_params (k : nat) : command_params_t :=
  mkParams (Z.of_nat k) 0 0 F32.zero F32.zero F32.zero 0 0 0
    F32.zero F32.zero F32.zero F32.zero 0.

Section Commands.

Variables expf tanhf : f32 -> f32.

(** One pass of the [step] loop of [CMD_RUN_SIMULATION]. *)
Definition simulation_step (time_step : f32) (st : state) : state :=
  let now := F32.add (g_simulation_time st) time_step in
  let arrays :=
    fold_left
      (fun arrays i => fst (process_neuron expf tanhf time_step now arrays i))
      (seq 0 (length (g_neurons st)))
      (g_neurons st, g_synapses st) in
  set_arrays arrays (set_simulation_time now st).

(** [exec_command]; [params] is [None] for a NULL pointer. *)
Definition exec_command (type : command_type_t)
    (params : option command_params_t) (st : state)
    : state * command_result_t :=
  if negb (g_initialized st) then (st, failed)
  else if negb (g_running st) then (st, failed)
  else
    match type, params with
    | CMD_NOOP, _ => (st, ok)
    | CMD_CREATE_NEURON, None => (st, failed)
    | CMD_CREATE_NEURON, Some p =>
        match find_neuron (g_neurons st) (neuron_id p) with
        | Some _ => (st, failed)
        | None =>
            let neuron :=
              neuron_overrides p
                (neuron_create (neuron_id p)
                   (NeuronType_of_u32 (neuron_type p))
                   (ActivationFunction_of_u32 (activation_type p))) in
            (mkState (g_initialized st) (g_running st)
               (g_neurons st ++ [neuron])
               (grown (length (g_neurons st)) (g_neuron_capacity st))
               (g_synapses st) (g_synapse_capacity st)
               (g_simulation_time st),
             mkResult 0 (neuron_id p) F32.zero)
        end
    | CMD_DELETE_NEURON, None => (st, failed)
    | CMD_DELETE_NEURON, Some p =>
        match find_neuron (g_neurons st) (neuron_id p) with
        | None => (st, failed)
        | Some i =>
            (set_arrays (remove_at i (g_neurons st), g_synapses st) st, ok)
        end
    | CMD_CONNECT_NEURONS, None => (st, failed)
    | CMD_CONNECT_NEURONS, Some p =>
        match find_neuron (g_neurons st) (neuron_id p),
              find_neuron (g_neurons st) (target_id p) with
        | Some i, Some k =>
            match nth_error (g_neurons st) k with
            | Some target =>
                (set_arrays
                   (update_at i (fun source => neuron_connect source target)
                      (g_neurons st),
                    g_synapses st) st,
                 ok)
            | None => (st, failed) (* not reached: [k] indexes the array *)
            end
        | _, _ => (st, failed)
        end
    | CMD_CREATE_SYNAPSE, None => (st, failed)
    | CMD_CREATE_SYNAPSE, Some p =>
        match find_synapse (g_synapses st) (synapse_id p) with
        | Some _ => (st, failed)
        | None =>
            match find_neuron (g_neurons st) (neuron_id p),
                  find_neuron (g_neurons st) (target_id p) with
            | Some _, Some _ =>
                let synapse :=
                  synapse_overrides p
                    (synapse_create (synapse_id p) (neuron_id p)
                       (target_id p)
                       (SynapseType_of_u32 (synapse_type p))) in
                (mkState (g_initialized st) (g_running st)
                   (g_neurons st) (g_neuron_capacity st)
                   (g_synapses st ++ [synapse])
                   (grown (length (g_synapses st)) (g_synapse_capacity st))
                   (g_simulation_time st),
                 mkResult 0 (synapse_id p) F32.zero)
            | _, _ => (st, failed)
            end
        end
    | CMD_RUN_SIMULATION, None => (st, failed)
    | CMD_RUN_SIMULATION, Some p =>
        let dt :=
          if F32.gtb (time_step p) F32.zero then time_step p else F32.one in
        let steps := if (num_steps p >? 0)%Z then num_steps p else 1%Z in
        let st' := Nat.iter (Z.to_nat steps) (simulation_step dt) st in
        (st', mkResult 0 0 (g_simulation_time st'))
    | CMD_RESET_SIMULATION, _ =>
        (mkState (g_initialized st) (g_running st)
           (map neuron_reset (g_neurons st)) (g_neuron_capacity st)
           (map synapse_reset (g_synapses st)) (g_synapse_capacity st)
           F32.zero,
         ok)
    | CMD_GET_NEURON_STATE, None => (st, failed)
    | CMD_GET_NEURON_STATE, Some p =>
        match find_neuron (g_neurons st) (neuron_id p) with
        | None => (st, failed)
        | Some i =>
            match nth_error (g_neurons st) i with
            | Some neuron => (st, mkResult 0 (n_id neuron) (potential neuron))
            | None => (st, failed) (* not reached: [i] indexes the array *)
            end
        end
    | CMD_SET_NEURON_PARAM _, None => (st, failed)
    | CMD_SET_NEURON_PARAM value, Some p =>
        match find_neuron (g_neurons st) (neuron_id p) with
        | None => (st, failed)
        | Some i =>
            let assign (set : f32 -> Neuron -> Neuron) :=
              (set_arrays
                 (update_at i (set value) (g_neurons st), g_synapses st) st,
               ok) in
            match target_id p with
            | 1%Z => assign set_threshold
            | 2%Z => assign set_rest_potential
            | 3%Z => assign set_refractory_period
            | 4%Z => assign set_potential
            | _ => (st, failed)
            end
        end
    | CMD_GET_MEMORY_STATS used, _ => (st, mkResult 0 0 (F32.of_Z used))
    | CMD_SHUTDOWN, _ =>
        (mkState (g_initialized st) false (g_neurons st)
           (g_neuron_capacity st) (g_synapses st) (g_synapse_capacity st)
           (g_simulation_time st),
         ok)
    | CMD_unknown _, _ => (st, failed) (* the [default] branch *)
    end.

(** A sequence of commands, each on the state the one before left. *)
Definition run (cmds : list (command_type_t * option command_params_t))
    (st : state) : state :=
  fold_left (fun st c => fst (exec_command (fst c) (snd c) st)) cmds st.

End Commands.

(** Parameters that name a pair of neurons and a synapse, no override
    given. *)
Definition link_params (pre_id post_id syn_id : Z) : command_params_t :=
  mkParams pre_id 0 0 F32.zero F32.zero F32.zero post_id syn_id 0
    F32.zero F32.zero F32.zero F32.zero 0.

(** Parameters of [CMD_RUN_SIMULATION]. *)
Definition step_params (dt : f32) (steps : Z) : command_params_t :=
  mkParams 0 0 0 F32.zero F32.zero F32.zero 0 0 0
    F32.zero F32.zero F32.zero dt steps.

(** The commands that build the graph of the end-to-end scenario: neurons 1
    and 2, synapse 1 from 1 to 2, and 2 among the connections of 1. *)
Definition two_neuron_commands
    : list (command_type_t * option command_params_t) :=
  [(CMD_CREATE_NEURON, Some (link_params 1 0 0));
   (CMD_CREATE_NEURON, Some (link_params 2 0 0));
   (CMD_CREATE_SYNAPSE, Some (link_params 1 2 1));
   (CMD_CONNECT_NEURONS, Some (link_params 1 2 0))].

(** The executor after [exec_init] and these commands (none of them calls
    libm). *)
Definition two_neurons : state :=
  run (fun x => x) (fun x => x) two_neuron_commands (fst (exec_init start)).

(** [exec_cleanup]: the arrays are freed and the counters zeroed;
    [g_simulation_time] is left as it is. *)
Definition exec_cleanup (st : state) : state :=
  if negb (g_initialized st) then st
  else mkState false false [] 0 [] 0 (g_simulation_time st).

(** [exec_is_running]. *)
Definition exec_is_running (st : state) : bool := g_running st.

(** The ids of the live neurons and of the live synapses. *)
Definition neuron_ids (st : state) : list Z := map n_id (g_neurons st).
Definition synapse_ids (st : state) : list Z := map s_id (g_synapses st).

(** No two live neurons share an id, and no two live synapses. *)
Definition unique_ids (st : state) : Prop :=
  NoDup (neuron_ids st) /\ NoDup (synapse_ids st).

(** No live neuron lists a target twice. *)
Definition connections_unique (st : state) : Prop :=
  Forall (fun n => NoDup (connected_neurons n)) (g_neurons st).

(** Neither array holds more entries than were allocated for it. *)
Definition within_capacity (st : state) : Prop :=
  (Z.of_nat (length (g_neurons st)) <= g_neuron_capacity st)%Z /\
  (Z.of_nat (length (g_synapses st)) <= g_synapse_capacity st)%Z.

(** The three together, with capacities no smaller than the initial ones. *)
Definition well_formed (st : state) : Prop :=
  unique_ids st /\ connections_unique st /\ within_capacity st /\
  (100 <= g_neuron_capacity st)%Z /\ (500 <= g_synapse_capacity st)%Z.

(** [(command_type_t) cmd_buffer[0]] for the enumerators that carry
    nothing; 8 and 9 are [CMD_SET_NEURON_PARAM] and
    [CMD_GET_MEMORY_STATS]. *)
Definition command_type_of_byte (b : Z) : option command_type_t :=
  match b with
  | 0%Z => Some CMD_NOOP
  | 1%Z => Some CMD_CREATE_NEURON
  | 2%Z => Some CMD_DELETE_NEURON
  | 3%Z => Some CMD_CONNECT_NEURONS
  | 4%Z => Some CMD_CREATE_SYNAPSE
  | 5%Z => Some CMD_RUN_SIMULATION
  | 6%Z => Some CMD_RESET_SIMULATION
  | 7%Z => Some CMD_GET_NEURON_STATE
  | 10%Z => Some CMD_SHUTDOWN
  | _ => None
  end.

(** [command_params_t params = {0}], then the four bytes after the command
    byte when the buffer has at least five. *)
Definition params_of_buffer (buffer : list Z) : command_params_t :=
  match buffer with
  | _ :: b1 :: b2 :: b3 :: b4 :: _ =>
      mkParams b1 b2 b3 F32.zero F32.zero F32.zero b4 0 0
        F32.zero F32.zero F32.zero F32.zero 0
  | _ =>
      mkParams 0 0 0 F32.zero F32.zero F32.zero 0 0 0
        F32.zero F32.zero F32.zero F32.zero 0
  end.

Section Buffer.

Variables expf tanhf : f32 -> f32.

(** [sizeof (command_result_t)], fixed by the platform. *)
Variable sizeof_result : Z.

(** [exec_process_buffer] on non-NULL pointers: [buffer] holds the [size]
    bytes of the command buffer, [result_size] is [*result_size] on entry.
    The result is the state, the returned code and the result written to
    [result_buffer], if any.  It is [None] for the command bytes 8 and 9,
    whose cases read what a buffer does not hold (see [command_type_t]). *)
Definition exec_process_buffer (buffer : list Z) (result_size : Z)
    (st : state) : option (state * Z * option command_result_t) :=
  if negb (g_initialized st) || negb (g_running st) then
    Some (st, (-1)%Z, None)
  else
    match buffer with
    | [] => Some (st, (-1)%Z, None)
    | b0 :: _ =>
        if ((b0 =? 8) || (b0 =? 9))%Z then None
        else
          let (st', result) :=
            match command_type_of_byte b0 with
            | Some type =>
                exec_command expf tanhf type (Some (params_of_buffer buffer)) st
            | None => (st, failed) (* the [default] branch *)
            end in
          if (result_size >=? sizeof_result)%Z then
            Some (st', 0%Z, Some result)
          else Some (st', (-1)%Z, None)
    end.

End Buffer.

End Exec.

(* ================================================================= *)
(** ** api/bridge.c *)

Module Bridge.

(** The file-scope variables of bridge.c. *)
Record state : Type := mkState {
  g_initialized : bool;
  g_neurons : list Neuron;
  g_neuron_capacity : Z;
  g_synapses : list Synapse;
  g_synapse_capacity : Z;
  g_simulation_time : f32
}.

Definition start : state := mkState false [] 0 [] 0 F32.zero.

(** A [jint] read as [uint32_t]. *)
Definition u32_of_jint (i : Z) : Z := (i mod 2 ^ 32)%Z.

(** [Java_interop_NeuroBridge_initCore]. *)
Definition initCore (st : state) : state * Z :=
  if g_initialized st then (st, 0%Z)
  else (mkState true [] 100 [] 500 F32.zero, 1%Z).

(** [Java_interop_NeuroBridge_createNeuron].  The [jlong] it returns is the
    address of the new record, here the index of its entry at that moment;
    [None] is the 0 the function returns when it fails. *)
Definition createNeuron (id type activation : Z) (st : state)
    : state * option nat :=
  if negb (g_initialized st) then (st, None)
  else
    let neuron :=
      neuron_create (u32_of_jint id)
        (NeuronType_of_u32 (u32_of_jint type))
        (ActivationFunction_of_u32 (u32_of_jint activation)) in
    (mkState (g_initialized st) (g_neurons st ++ [neuron])
       (Exec.grown (length (g_neurons st)) (g_neuron_capacity st))
       (g_synapses st) (g_synapse_capacity st) (g_simulation_time st),
     Some (length (g_neurons st))).

(** [Java_interop_NeuroBridge_createSynapse]. *)
Definition createSynapse (id preId postId type : Z) (st : state)
    : state * option nat :=
  if negb (g_initialized st) then (st, None)
  else
    let synapse :=
      synapse_create (u32_of_jint id) (u32_of_jint preId)
        (u32_of_jint postId) (SynapseType_of_u32 (u32_of_jint type)) in
    (mkState (g_initialized st) (g_neurons st) (g_neuron_capacity st)
       (g_synapses st ++ [synapse])
       (Exec.grown (length (g_synapses st)) (g_synapse_capacity st))
       (g_simulation_time st),
     Some (length (g_synapses st))).

(** The graph of the end-to-end scenario: neurons 1 and 2, an excitatory
    synapse from 1 to 2, and 2 among the connections of 1 (what
    [connectNeurons] does through [neuron_connect]). *)
Definition two_neurons : state :=
  let st := fst (initCore start) in
  let st := fst (createNeuron 1 0 0 st) in
  let st := fst (createNeuron 2 0 0 st) in
  let st := fst (createSynapse 1 1 2 0 st) in
  mkState (g_initialized st)
    (update_at 0
       (fun a => neuron_connect a (neuron_create 2 EXCITATORY LINEAR))
       (g_neurons st))
    (g_neuron_capacity st) (g_synapses st) (g_synapse_capacity st)
    (g_simulation_time st).

(** [g_neurons[i]->potential += input_data[i]] for [i] below both lengths. *)
Fixpoint apply_inputs (neurons : list Neuron) (inputs : list f32)
    : list Neuron :=
  match neurons, inputs with
  | n :: neurons', x :: inputs' =>
      add_potential x n :: apply_inputs neurons' inputs'
  | _, _ => neurons
  end.

(** The block [mm_alloc] returns for [count] floats: nothing initialises
    it, so its contents are whatever the heap held, [junk]. *)
Definition fresh_block (count : nat) (junk : list f32) : list f32 :=
  firstn count (junk ++ repeat F32.zero count).

Section Step.

Variables expf tanhf : f32 -> f32.

(** The loop over [g_neurons] of [runSimulationStep], writing
    [outputs[i]]. *)
Definition process_all (time_step now : f32)
    (arrays : list Neuron * list Synapse) (outputs : list f32)
    : list Neuron * list Synapse * list f32 :=
  fold_left
    (fun acc i =>
       let '(arrays, outputs) := acc in
       let '(arrays', out) :=
         process_neuron expf tanhf time_step now arrays i in
       (arrays',
        match out with
        | Some o => update_at i (fun _ => o) outputs
        | None => outputs
        end))
    (seq 0 (length (fst arrays)))
    (arrays, outputs).

(** [Java_interop_NeuroBridge_runSimulationStep]; [None] is the NULL
    array.  [junk] is the initial contents of the output block. *)
Definition runSimulationStep (inputs : list f32) (timeStep : f32)
    (junk : list f32) (st : state) : state * option (list f32) :=
  if negb (g_initialized st) then (st, None)
  else
    let neurons := apply_inputs (g_neurons st) inputs in
    let now := F32.add (g_simulation_time st) timeStep in
    let st1 :=
      mkState (g_initialized st) neurons (g_neuron_capacity st)
        (g_synapses st) (g_synapse_capacity st) now in
    match length neurons with
    | O => (st1, None) (* mm_alloc (0) is NULL *)
    | S _ =>
        let '(neurons', synapses', outputs) :=
          process_all timeStep now (neurons, g_synapses st)
            (fresh_block (length neurons) junk) in
        (mkState (g_initialized st) neurons' (g_neuron_capacity st)
           synapses' (g_synapse_capacity st) now,
         Some outputs)
    end.

(** The outputs as the specification words them: one per neuron, produced in
    the order of the array. *)
Definition outputs_in_order (time_step now : f32)
    (arrays : list Neuron * list Synapse)
    : list Neuron * list Synapse * list f32 :=
  fold_left
    (fun acc i =>
       let '(arrays, outputs) := acc in
       let '(arrays', out) :=
         process_neuron expf tanhf time_step now arrays i in
       (arrays',
        outputs ++ match out with Some o => [o] | None => [] end))
    (seq 0 (length (fst arrays)))
    (arrays, []).

(** Successive steps, one per pair of an input array and a time step;
    [junk k] is the initial contents of the output block of step [k]. *)
Fixpoint run_steps (junk : nat -> list f32) (k : nat)
    (steps : list (list f32 * f32)) (st : state)
    : state * list (option (list f32)) :=
  match steps with
  | [] => (st, [])
  | (inputs, dt) :: rest =>
      let (st1, out) := runSimulationStep inputs dt (junk k) st in
      let (st2, outs) := run_steps junk (S k) rest st1 in
      (st2, out :: outs)
  end.

End Step.

(** [Java_interop_NeuroBridge_cleanupCore]: the arrays are freed and the
    counters zeroed; the capacities and the clock are left as they are. *)
Definition cleanupCore (st : state) : state :=
  if negb (g_initialized st) then st
  else
    mkState false [] (g_neuron_capacity st) [] (g_synapse_capacity st)
      (g_simulation_time st).

End Bridge.

(* ================================================================= *)
(** ** memory/mm.c: the statistics of the tracked allocator *)

Module Mm.

(** [size_t] is 64 bits wide. *)
Definition size_modulus : Z := 2 ^ 64.

(** The file-scope variables of mm.c.  [blocks] stands for the list
    [g_memory_blocks]: the address of the user data of each block and its
    [size] field, the newest block first.  The [prev]/[next] links, [file]
    and [line] are not observed by the functions below and are left out; the
    [magic] of a block is [MEMORY_MAGIC] exactly while it is in the list. *)
Record state : Type := mkState {
  blocks : list (Z * Z);
  g_total_memory : Z;
  g_block_count : Z;
  g_initialized : bool
}.

Definition start : state := mkState [] 0 0 false.

(** [mm_init]. *)
Definition mm_init (st : state) : state * Z :=
  if g_initialized st then (st, 0%Z) else (mkState [] 0 0 true, 1%Z).

(** [mm_cleanup]: every block still in the list is freed. *)
Definition mm_cleanup (st : state) : state :=
  if negb (g_initialized st) then st else mkState [] 0 0 false.

(** The [size] field of the block whose user data is at [ptr]. *)
Fixpoint block_size (ptr : Z) (bs : list (Z * Z)) : option Z :=
  match bs with
  | [] => None
  | (a, size) :: rest =>
      if (a =? ptr)%Z then Some size else block_size ptr rest
  end.

(** Unlinking the block at [ptr]. *)
Fixpoint unlink (ptr : Z) (bs : list (Z * Z)) : list (Z * Z) :=
  match bs with
  | [] => []
  | (a, size) :: rest =>
      if (a =? ptr)%Z then rest else (a, size) :: unlink ptr rest
  end.

(** The block at [ptr] after the host [realloc] moved it to [ptr'] with the
    new size; it keeps its place in the list. *)
Fixpoint relink (ptr ptr' new_size : Z) (bs : list (Z * Z)) : list (Z * Z) :=
  match bs with
  | [] => []
  | (a, size) :: rest =>
      if (a =? ptr)%Z then (ptr', new_size) :: rest
      else (a, size) :: relink ptr ptr' new_size rest
  end.

(** [mm_alloc].  [host] is what the host [malloc] returns for the block: the
    address of its user data, or [None] for NULL.  The result is the pointer
    returned, [None] for NULL. *)
Definition mm_alloc (host : option Z) (size : Z) (st : state)
    : state * option Z :=
  let st := if g_initialized st then st else fst (mm_init st) in
  if (size =? 0)%Z then (st, None)
  else
    match host with
    | None => (st, None)
    | Some a =>
        (mkState ((a, size) :: blocks st)
           ((g_total_memory st + size) mod size_modulus)
           ((g_block_count st + 1) mod size_modulus)
           (g_initialized st),
         Some a)
    end.

(** [mm_free].  [ptr] is [None] for NULL.  The result is [None] when [ptr]
    is not the user data of a block in the list: the C code then reads a
    header it does not own, which this embedding does not describe. *)
Definition mm_free (ptr : option Z) (st : state) : option state :=
  match ptr with
  | None => Some st
  | Some p =>
      match block_size p (blocks st) with
      | None => None
      | Some size =>
          Some (mkState (unlink p (blocks st))
                  ((g_total_memory st - size) mod size_modulus)
                  ((g_block_count st - 1) mod size_modulus)
                  (g_initialized st))
      end
  end.

(** [mm_realloc].  [host] is what the host [realloc] returns; the result is
    [None] on a pointer that is in no block of the list, as for [mm_free]. *)
Definition mm_realloc (host : option Z) (ptr : option Z) (new_size : Z)
    (st : state) : option (state * option Z) :=
  match ptr with
  | None => Some (mm_alloc host new_size st)
  | Some p =>
      if (new_size =? 0)%Z then
        option_map (fun st' => (st', None)) (mm_free ptr st)
      else
        match block_size p (blocks st) with
        | None => None
        | Some size =>
            let total := ((g_total_memory st - size) mod size_modulus)%Z in
            match host with
            | None =>
                Some (mkState (blocks st) ((total + size) mod size_modulus)
                        (g_block_count st) (g_initialized st),
                      None)
            | Some p' =>
                Some (mkState (relink p p' new_size (blocks st))
                        ((total + new_size) mod size_modulus)
                        (g_block_count st) (g_initialized st),
                      Some p')
            end
        end
  end.

(** [mm_get_used_memory], [mm_get_allocated_blocks], [mm_check_leaks]. *)
Definition mm_get_used_memory (st : state) : Z := g_total_memory st.
Definition mm_get_allocated_blocks (st : state) : Z := g_block_count st.
Definition mm_check_leaks (st : state) : Z :=
  if (g_block_count st >? 0)%Z then 1%Z else 0%Z.

(** The sum of the sizes of the blocks in the list. *)
Definition live_bytes (bs : list (Z * Z)) : Z :=
  fold_right (fun b acc => (snd b + acc)%Z) 0%Z bs.

(** The statistics agree with the list, and no two blocks share an
    address. *)
Definition consistent (st : state) : Prop :=
  NoDup (map fst (blocks st)) /\
  g_total_memory st = (live_bytes (blocks st) mod size_modulus)%Z /\
  g_block_count st = (Z.of_nat (length (blocks st)) mod size_modulus)%Z.

End Mm.

(* ================================================================= *)
(** * Properties *)

Unset Implicit Arguments.

(** ** Facts on binary32 comparisons *)

Module F32Facts.

Lemma compare_antisym (x y : f32) :
  SFcompare y x = option_map CompOpp (SFcompare x y).
Proof.
  destruct x as [sx | sx | | sx mx ex], y as [sy | sy | | sy my ey];
    simpl; try reflexivity;
    try (destruct sx; reflexivity);
    try (destruct sy; reflexivity);
    try (destruct sx, sy; reflexivity).
  destruct sx, sy; simpl; try reflexivity;
    rewrite (Z.compare_antisym ex ey);
    destruct (ex ?= ey)%Z; simpl; try reflexivity;
    rewrite (ZC4 my mx);
    destruct (Pos.compare_cont Eq mx my); reflexivity.
Qed.

Lemma compare_refl (x : f32) :
  F32.is_nan x = false -> SFcompare x x = Some Eq.
Proof.
  destruct x as [s | s | | s m e]; simpl; intros H;
    try reflexivity; try discriminate.
  - destruct s; reflexivity.
  - rewrite Z.compare_refl, Pcompare_refl. destruct s; reflexivity.
Qed.

Lemma compare_nan (x y : f32) :
  SFcompare x y = None <-> F32.is_nan x = true \/ F32.is_nan y = true.
Proof.
  destruct x as [sx | sx | | sx mx ex], y as [sy | sy | | sy my ey];
    simpl; split; intros H; try discriminate; try reflexivity;
    try (left; reflexivity); try (right; reflexivity);
    try (destruct H; discriminate).
Qed.

Lemma ltb_irrefl (x : f32) : F32.ltb x x = false.
Proof.
  unfold F32.ltb, SFltb. destruct (F32.is_nan x) eqn:N.
  - destruct x; try discriminate. reflexivity.
  - rewrite (compare_refl x N). reflexivity.
Qed.

Lemma leb_refl (x : f32) : F32.is_nan x = false -> F32.leb x x = true.
Proof.
  intros N. unfold F32.leb, SFleb. rewrite (compare_refl x N). reflexivity.
Qed.

(** [!(x < y)] gives [y <= x] when neither is a NaN. *)
Lemma not_ltb_leb (x y : f32) :
  F32.is_nan x = false -> F32.is_nan y = false ->
  F32.ltb x y = false -> F32.leb y x = true.
Proof.
  unfold F32.ltb, F32.leb, SFltb, SFleb. intros Nx Ny.
  rewrite (compare_antisym x y).
  destruct (SFcompare x y) as [[ | | ] | ] eqn:C; simpl;
    try reflexivity; try discriminate.
  intros _. apply compare_nan in C. destruct C; congruence.
Qed.

Lemma ltb_leb (x y : f32) : F32.ltb x y = true -> F32.leb x y = true.
Proof.
  unfold F32.ltb, F32.leb, SFltb, SFleb.
  destruct (SFcompare x y) as [[ | | ] | ]; congruence.
Qed.

Lemma ltb_not_leb (x y : f32) : F32.ltb x y = true -> F32.leb y x = false.
Proof.
  unfold F32.ltb, F32.leb, SFltb, SFleb. rewrite (compare_antisym x y).
  destruct (SFcompare x y) as [[ | | ] | ]; simpl; congruence.
Qed.

Lemma eqb_leb (x y : f32) : F32.eqb x y = true -> F32.leb y x = true.
Proof.
  unfold F32.eqb, F32.leb, SFeqb, SFleb. rewrite (compare_antisym x y).
  destruct (SFcompare x y) as [[ | | ] | ]; simpl; congruence.
Qed.

Lemma leb_not_nan (x y : f32) :
  F32.leb x y = true -> F32.is_nan x = false /\ F32.is_nan y = false.
Proof.
  unfold F32.leb, SFleb.
  destruct x as [sx | sx | | sx mx ex], y as [sy | sy | | sy my ey];
    simpl; intros H; try discriminate; split; reflexivity.
Qed.

(** A value between two finite bounds is finite. *)
Lemma between_finite (lo hi x : f32) :
  F32.is_finite lo = true -> F32.is_finite hi = true ->
  F32.leb lo x = true -> F32.leb x hi = true -> F32.is_finite x = true.
Proof.
  unfold F32.leb, SFleb.
  destruct x as [s | s | | s m e]; simpl; try reflexivity.
  - destruct lo as [sl | sl | | sl ml el], hi as [sh | sh | | sh mh eh];
      simpl; try discriminate; destruct s; simpl; try discriminate;
      intros _ _; try discriminate; intros _; discriminate.
  - destruct lo; discriminate.
Qed.

End F32Facts.

(** ** Facts on binary32 arithmetic: where a NaN can come from *)

Module F32Arith.

Open Scope Z_scope.

Lemma shr_1_nonneg (mrs : shr_record) :
  0 <= shr_m mrs -> 0 <= shr_m (shr_1 mrs).
Proof.
  destruct mrs as [m r s]. simpl.
  destruct m as [ | [p | p | ] | p]; simpl; lia.
Qed.

Lemma iter_shr_1_nonneg (p : positive) :
  forall mrs, 0 <= shr_m mrs -> 0 <= shr_m (iter_pos shr_1 p mrs).
Proof.
  induction p as [p IH | p IH | ]; simpl; intros mrs H.
  - apply IH, IH, shr_1_nonneg, H.
  - apply IH, IH, H.
  - apply shr_1_nonneg, H.
Qed.

Lemma shr_record_of_loc_m m l : shr_m (shr_record_of_loc m l) = m.
Proof. destruct l as [ | [ | | ]]; reflexivity. Qed.

Lemma shr_fexp_nonneg prec emax m e l :
  0 <= m -> 0 <= shr_m (fst (shr_fexp prec emax m e l)).
Proof.
  intros H. unfold shr_fexp, shr.
  destruct (fexp prec emax (Zdigits2 m + e) - e); simpl;
    try (rewrite shr_record_of_loc_m; exact H).
  apply iter_shr_1_nonneg. rewrite shr_record_of_loc_m. exact H.
Qed.

Lemma round_nearest_even_nonneg m l : 0 <= m -> 0 <= round_nearest_even m l.
Proof.
  intros H. destruct l as [ | [ | | ]]; simpl; try exact H; try lia.
  destruct (Z.even m); lia.
Qed.

Lemma binary_round_aux_not_nan prec emax s m e l :
  0 <= m -> F32.is_nan (binary_round_aux prec emax s m e l) = false.
Proof.
  intros H. unfold binary_round_aux.
  pose proof (shr_fexp_nonneg prec emax m e l H) as H1.
  destruct (shr_fexp prec emax m e l) as [mrs' e']. simpl in H1.
  pose proof (shr_fexp_nonneg prec emax
                (round_nearest_even (shr_m mrs') (loc_of_shr_record mrs')) e'
                loc_Exact (round_nearest_even_nonneg _ _ H1)) as H2.
  destruct (shr_fexp prec emax _ e' loc_Exact) as [mrs'' e'']. simpl in H2.
  destruct (shr_m mrs''); try reflexivity.
  - destruct (e'' <=? emax - prec); reflexivity.
  - lia.
Qed.

Lemma binary_normalize_not_nan prec emax m e sz :
  F32.is_nan (binary_normalize prec emax m e sz) = false.
Proof.
  unfold binary_normalize, binary_round.
  destruct m; try reflexivity;
    destruct (shl_align _ _ _); apply binary_round_aux_not_nan; lia.
Qed.

Lemma add_not_nan (x y : f32) :
  F32.is_finite x = true -> F32.is_nan y = false ->
  F32.is_nan (F32.add x y) = false.
Proof.
  destruct x as [sx | sx | | sx mx ex], y as [sy | sy | | sy my ey];
    simpl; intros; try discriminate; try reflexivity.
  - destruct sx, sy; reflexivity.
  - apply binary_normalize_not_nan.
Qed.

Lemma sub_not_nan (x y : f32) :
  F32.is_finite x = true -> F32.is_finite y = true ->
  F32.is_nan (F32.sub x y) = false.
Proof.
  destruct x as [sx | sx | | sx mx ex], y as [sy | sy | | sy my ey];
    simpl; intros; try discriminate; try reflexivity.
  - destruct sx, sy; reflexivity.
  - apply binary_normalize_not_nan.
Qed.

Lemma mul_not_nan (x y : f32) :
  F32.is_finite x = true -> F32.is_zero x = false -> F32.is_nan y = false ->
  F32.is_nan (F32.mul x y) = false.
Proof.
  destruct x as [sx | sx | | sx mx ex], y as [sy | sy | | sy my ey];
    simpl; intros; try discriminate; try reflexivity.
  apply binary_round_aux_not_nan. lia.
Qed.

Lemma div_not_nan (x y : f32) :
  F32.is_nan x = false -> F32.is_finite y = true -> F32.is_zero y = false ->
  F32.is_nan (F32.div x y) = false.
Proof.
  destruct x as [sx | sx | | sx mx ex], y as [sy | sy | | sy my ey];
    simpl; intros; try discriminate; try reflexivity.
  unfold SFdiv_core_binary.
  set (m' := match _ with Z0 => Z.pos mx | Z.pos _ => _ | Z.neg _ => 0 end).
  assert (0 <= m') as Hm.
  { subst m'.
    match goal with
    | |- 0 <= match ?s with _ => _ end => destruct s eqn:S
    end; try lia.
    apply Z.shiftl_nonneg. lia. }
  pose proof (Z_div_mod m' (Z.pos my) ltac:(lia)) as D.
  destruct (Z.div_eucl m' (Z.pos my)) as [q r].
  apply binary_round_aux_not_nan. nia.
Qed.

Lemma opp_not_nan (x : f32) : F32.is_nan (F32.opp x) = F32.is_nan x.
Proof. destruct x; reflexivity. Qed.

(** Multiplying by [1.0f] changes no canonical value: the product of the
    mantissas is shifted back by the 23 bits it gained, with nothing to
    round. *)
Lemma mul_one_l (w : f32) :
  valid_binary F32.prec F32.emax w = true ->
  F32.mul F32.one w = w.
Proof.
  destruct w as [s | s | | s m e]; try reflexivity.
  intros V. simpl in V. unfold bounded, canonical_mantissa in V.
  apply andb_true_iff in V. destruct V as [C B].
  apply Z.eqb_eq in C. apply Z.leb_le in B.
  unfold F32.mul, F32.one, F32.of_Z.
  change (binary_normalize F32.prec F32.emax 1 0 false)
    with (S754_finite false 8388608 (-23)).
  unfold SFmul. cbn [xorb].
  change (Pos.mul 8388608 m) with
    (m~0~0~0~0~0~0~0~0~0~0~0~0~0~0~0~0~0~0~0~0~0~0~0)%positive.
  unfold binary_round_aux.
  unfold shr_fexp at 1.
  assert (Zdigits2 (Z.pos m~0~0~0~0~0~0~0~0~0~0~0~0~0~0~0~0~0~0~0~0~0~0~0)
          = Z.pos (digits2_pos m) + 23) as D.
  { cbn [Zdigits2 digits2_pos]. lia. }
  rewrite D.
  replace (Z.pos (digits2_pos m) + 23 + (-23 + e))
    with (Z.pos (digits2_pos m) + e) by lia.
  rewrite C.
  replace (e - (-23 + e)) with 23 by lia.
  cbn [shr shr_record_of_loc iter_pos shr_1 shr_m shr_r shr_s orb
       loc_of_shr_record round_nearest_even].
  replace (-23 + e + 23) with e by lia.
  unfold shr_fexp. cbn [Zdigits2]. rewrite C. rewrite Z.sub_diag.
  cbn [shr shr_record_of_loc shr_m].
  apply Z.leb_le in B. rewrite B. reflexivity.
Qed.

Close Scope Z_scope.

End F32Arith.

(** ** The neuron model *)

Open Scope f32_scope.

(** The neuron [neuron_fire] leaves behind when it fires at [now]. *)
Lemma fired_neuron_fields (neuron : Neuron) (now : f32) :
  let fired :=
    set_potential (rest_potential neuron) (set_last_fired now neuron) in
  last_fired fired = now /\
  potential fired = rest_potential neuron /\
  threshold fired = threshold neuron /\
  rest_potential fired = rest_potential neuron /\
  refractory_period fired = refractory_period neuron /\
  n_id fired = n_id neuron /\
  connected_neurons fired = connected_neurons neuron.
Proof. cbv zeta. repeat split. Qed.

(** C1.  [neuron_fire] returns false and leaves the neuron as it is while
    [now - last_fired < refractory_period], whatever the potential; past the
    refractory period it fires exactly when [potential >= threshold], and then
    sets [last_fired = now] and [potential = rest_potential]; otherwise it
    returns false and changes nothing.  A potential equal to the threshold
    fires, and a neuron that fired at [now] does not fire at any [t1] with
    [t1 - now < refractory_period], whatever its potential has become. *)
Theorem neuron_fire_spec (neuron : Neuron) (now : f32) :
  let refractory := now - last_fired neuron <? refractory_period neuron in
  let fired :=
    set_potential (rest_potential neuron) (set_last_fired now neuron) in
  (refractory = true -> neuron_fire neuron now = (neuron, false)) /\
  (refractory = false -> (potential neuron >=? threshold neuron) = true ->
   neuron_fire neuron now = (fired, true)) /\
  (refractory = false -> (potential neuron >=? threshold neuron) = false ->
   neuron_fire neuron now = (neuron, false)) /\
  (refractory = false -> (potential neuron ==? threshold neuron) = true ->
   neuron_fire neuron now = (fired, true)) /\
  ((now - last_fired neuron >=? refractory_period neuron) = true ->
   (potential neuron ==? threshold neuron) = true ->
   neuron_fire neuron now = (fired, true)) /\
  (last_fired fired = now /\ potential fired = rest_potential neuron) /\
  (forall (raised t1 : f32),
     snd (neuron_fire neuron now) = true ->
     (t1 - now <? refractory_period neuron) = true ->
     neuron_fire (set_potential raised (fst (neuron_fire neuron now))) t1 =
     (set_potential raised (fst (neuron_fire neuron now)), false)).
Proof.
  cbv zeta. unfold neuron_fire.
  destruct (now - last_fired neuron <? refractory_period neuron) eqn:R.
  - repeat split; intros; simpl in *; try reflexivity; try discriminate.
    apply F32Facts.ltb_not_leb in R. unfold F32.geb, F32.leb in *. congruence.
  - split; [discriminate|]. split; [intros _ G; rewrite G; reflexivity|].
    split; [intros _ G; rewrite G; reflexivity|].
    assert ((potential neuron ==? threshold neuron) = true ->
            (if potential neuron >=? threshold neuron
             then (set_potential (rest_potential neuron)
                     (set_last_fired now neuron), true)
             else (neuron, false)) =
            (set_potential (rest_potential neuron)
               (set_last_fired now neuron), true)) as AtThreshold.
    { intros E. apply F32Facts.eqb_leb in E. unfold F32.geb.
      unfold F32.leb in E. rewrite E. reflexivity. }
    split; [intros _; exact AtThreshold|].
    split; [intros _; exact AtThreshold|].
    split; [split; reflexivity|].
    intros raised t1.
    destruct (potential neuron >=? threshold neuron) eqn:G; simpl;
      [|discriminate].
    intros _ B. rewrite B. reflexivity.
Qed.

(** C1 on the default neuron: raised to its threshold of -55 it fires at time
    0 and is back at -70; raised again at time 1 it stays silent, the
    refractory period being 2. *)
Example neuron_fire_at_threshold :
  let n := set_potential (F32.of_Z (-55)) (neuron_create 7 EXCITATORY LINEAR) in
  neuron_fire n F32.zero =
    (set_last_fired F32.zero (neuron_create 7 EXCITATORY LINEAR), true) /\
  neuron_fire (set_potential (F32.of_Z 40) (fst (neuron_fire n F32.zero)))
    (F32.of_Z 1) =
    (set_potential (F32.of_Z 40) (fst (neuron_fire n F32.zero)), false).
Proof. split; vm_compute; reflexivity. Qed.

(** C1 applied to the default neuron raised to its threshold, at time 0:
    the refractory test is false, the potential equals the threshold, and
    the neuron fires. *)
Lemma neuron_fire_spec_witness :
  (F32.zero
   - last_fired
       (set_potential (F32.of_Z (-55)) (neuron_create 7 EXCITATORY LINEAR))
   <? refractory_period
        (set_potential (F32.of_Z (-55)) (neuron_create 7 EXCITATORY LINEAR)))
  = false /\
  (potential
     (set_potential (F32.of_Z (-55)) (neuron_create 7 EXCITATORY LINEAR))
   ==? threshold
         (set_potential (F32.of_Z (-55)) (neuron_create 7 EXCITATORY LINEAR)))
  = true /\
  snd (neuron_fire
         (set_potential (F32.of_Z (-55)) (neuron_create 7 EXCITATORY LINEAR))
         F32.zero) = true.
Proof.
  split; [reflexivity|]. split; [reflexivity|].
  destruct
    (neuron_fire_spec
       (set_potential (F32.of_Z (-55)) (neuron_create 7 EXCITATORY LINEAR))
       F32.zero) as (_ & _ & _ & AtThreshold & _).
  rewrite AtThreshold; reflexivity.
Defined.

Section ComputeFacts.

Variables expf tanhf : f32 -> f32.

(** [1.0f - 0.1f] is the constant [0.9f]. *)
Lemma one_minus_leak : F32.one - F32.lit 1 10 = F32.lit 9 10.
Proof. vm_compute. reflexivity. Qed.

(** The conditional of the RELU branch is [fmaxf (value, 0)]. *)
Lemma relu_is_max (value : f32) :
  (if value >? F32.zero then value else F32.zero) = F32.max value F32.zero.
Proof.
  unfold F32.gtb, F32.max, SFltb.
  rewrite (F32Facts.compare_antisym value F32.zero).
  destruct (SFcompare value F32.zero) as [[ | | ] | ] eqn:C; simpl;
    try reflexivity.
  apply F32Facts.compare_nan in C. destruct C as [C | C].
  - rewrite C. reflexivity.
  - discriminate.
Qed.

(** C2.  [neuron_compute] adds [input * dt] to the potential, then leaks:
    the new potential is [(potential + input*dt) * 0.9 + rest * 0.1]; no
    other field changes; the result is the activation of the new potential:
    the identity for LINEAR, [1 / (1 + expf (-x))] for SIGMOID, [max (x, 0)]
    for RELU, [tanhf x] for TANH. *)
Theorem neuron_compute_spec (neuron : Neuron) (input dt : f32) :
  let p :=
    (potential neuron + input * dt) * F32.lit 9 10
    + rest_potential neuron * F32.lit 1 10 in
  let out := snd (neuron_compute expf tanhf neuron input dt) in
  fst (neuron_compute expf tanhf neuron input dt) = set_potential p neuron /\
  (n_activation neuron = LINEAR -> out = p) /\
  (n_activation neuron = SIGMOID ->
   out = F32.one / (F32.one + expf (- p))) /\
  (n_activation neuron = RELU -> out = F32.max p F32.zero) /\
  (n_activation neuron = TANH -> out = tanhf p).
Proof.
  cbv zeta. unfold neuron_compute. rewrite one_minus_leak. simpl.
  split; [reflexivity|].
  repeat split; intros A; rewrite A; simpl; try reflexivity.
  apply relu_is_max.
Qed.

End ComputeFacts.

(** C2 on the default neuron with a linear activation, its potential raised
    from -70 to -50: one step with no input leaks it to -52. *)
Example neuron_compute_leak :
  neuron_compute (fun x => x) (fun x => x)
    (set_potential (F32.of_Z (-50)) (neuron_create 1 EXCITATORY LINEAR))
    F32.zero F32.one =
  (set_potential (F32.of_Z (-52)) (neuron_create 1 EXCITATORY LINEAR),
   F32.of_Z (-52)).
Proof. vm_compute. reflexivity. Qed.

(** ** The synapse model *)

(** A zero operand and a finite one multiply to a zero. *)
Lemma mul_zero_l (x y : f32) :
  F32.is_zero x = true -> F32.is_finite y = true -> F32.is_zero (x * y) = true.
Proof. destruct x, y; simpl; intros; try discriminate; reflexivity. Qed.

Lemma mul_zero_r (x y : f32) :
  F32.is_finite x = true -> F32.is_zero y = true -> F32.is_zero (x * y) = true.
Proof. destruct x, y; simpl; intros; try discriminate; reflexivity. Qed.

(** C3, as amended.  [synapse_activate] returns 0 and changes nothing while
    [now < last_active + delay]; on every other call, so whenever
    [now >= last_active + delay], it sets [last_active = now] and returns
    [input * weight], which is a zero as soon as the input or the weight is a
    zero and the other is finite; for the input 1.0 the scheduler passes, it
    is the weight itself. *)
Theorem synapse_activate_spec (synapse : Synapse) (input now : f32) :
  let ready := last_active synapse + delay synapse in
  ((now <? ready) = true ->
   synapse_activate synapse input now = (synapse, F32.zero)) /\
  ((now <? ready) = false ->
   synapse_activate synapse input now =
   (set_last_active now synapse, input * weight synapse)) /\
  ((now >=? ready) = true ->
   synapse_activate synapse input now =
   (set_last_active now synapse, input * weight synapse)) /\
  (F32.is_zero input = true -> F32.is_finite (weight synapse) = true ->
   F32.is_zero (input * weight synapse) = true) /\
  (F32.is_finite input = true -> F32.is_zero (weight synapse) = true ->
   F32.is_zero (input * weight synapse) = true) /\
  (valid_binary F32.prec F32.emax (weight synapse) = true ->
   (now <? ready) = false ->
   synapse_activate synapse F32.one now =
   (set_last_active now synapse, weight synapse)).
Proof.
  cbv zeta. unfold synapse_activate.
  repeat split.
  - intros G. rewrite G. reflexivity.
  - intros G. rewrite G. reflexivity.
  - intros G.
    destruct (now <? last_active synapse + delay synapse) eqn:L;
      [|reflexivity].
    apply F32Facts.ltb_not_leb in L. unfold F32.geb in G. unfold F32.leb in L.
    congruence.
  - apply mul_zero_l.
  - apply mul_zero_r.
  - intros V G. rewrite G, (F32Arith.mul_one_l (weight synapse) V).
    reflexivity.
Qed.

(** C3 applied to a fresh excitatory synapse at time 0 with input 1: the
    delay has passed, the activation is recorded and the signal is the
    weight 0.5. *)
Lemma synapse_activate_spec_witness :
  (F32.zero
   >=? last_active (synapse_create 1 1 2 EXCITATORY_SYNAPSE)
       + delay (synapse_create 1 1 2 EXCITATORY_SYNAPSE)) = true /\
  synapse_activate (synapse_create 1 1 2 EXCITATORY_SYNAPSE) F32.one F32.zero
  = (set_last_active F32.zero (synapse_create 1 1 2 EXCITATORY_SYNAPSE),
     F32.lit 1 2).
Proof.
  split; [reflexivity|].
  destruct
    (synapse_activate_spec (synapse_create 1 1 2 EXCITATORY_SYNAPSE)
       F32.one F32.zero) as (_ & _ & Open & _).
  rewrite Open; reflexivity.
Defined.

(** C3 as the claim states it fails: a fresh excitatory synapse (weight 0.5,
    ready since time -999) activated at time 0 with input 0 records the
    activation and returns 0. *)
Lemma synapse_activate_signal_may_be_zero :
  ~ (forall (synapse : Synapse) (input now : f32),
       (now >=? last_active synapse + delay synapse) = true ->
       (snd (synapse_activate synapse input now) !=? F32.zero) = true).
Proof.
  intros H.
  specialize (H (synapse_create 1 1 2 EXCITATORY_SYNAPSE) F32.zero F32.zero).
  vm_compute in H. specialize (H eq_refl). discriminate.
Qed.

Section StdpFacts.

Variable expf : f32 -> f32.

Lemma synapse_update_weight_static (synapse : Synapse) (pre post : f32) :
  plasticity synapse <> STDP ->
  synapse_update_weight expf synapse pre post = synapse.
Proof.
  unfold synapse_update_weight. destruct (plasticity synapse); congruence.
Qed.

Lemma synapse_update_weight_stdp (synapse : Synapse) (pre post : f32) :
  plasticity synapse = STDP ->
  synapse_update_weight expf synapse pre post =
  set_weight
    (clamp (min_weight synapse) (max_weight synapse)
       (weight synapse + stdp_delta expf (post - pre)))
    synapse.
Proof.
  unfold synapse_update_weight, clamp, stdp_delta. intros ->.
  destruct (post - pre >? F32.zero); cbv zeta;
    match goal with
    | |- context [if ?a >? ?b then _ else _] => destruct (a >? b)
    end; try reflexivity;
    match goal with
    | |- context [if ?a <? ?b then _ else _] => destruct (a <? b)
    end; reflexivity.
Qed.

(** A clamped value that is not a NaN lies between ordered bounds. *)
Lemma clamp_bounds (lo hi w : f32) :
  F32.leb lo hi = true -> F32.is_nan w = false ->
  F32.leb lo (clamp lo hi w) = true /\ F32.leb (clamp lo hi w) hi = true.
Proof.
  intros B N. destruct (F32Facts.leb_not_nan _ _ B) as [Nlo Nhi].
  unfold clamp, F32.gtb.
  destruct (SFltb hi w) eqn:H.
  - split; [exact B | apply F32Facts.leb_refl; exact Nhi].
  - destruct (w <? lo) eqn:L.
    + split; [apply F32Facts.leb_refl; exact Nlo | exact B].
    + split; apply F32Facts.not_ltb_leb; assumption.
Qed.

(** Clamping never moves a weight above the upper bound it started from,
    nor below the lower bound it started from. *)
Lemma clamp_at_bounds (lo hi w : f32) :
  F32.ltb hi lo = false ->
  F32.ltb hi (clamp lo hi w) = false /\ F32.ltb (clamp lo hi w) lo = false.
Proof.
  intros B. unfold clamp, F32.gtb.
  destruct (SFltb hi w) eqn:H.
  - split; [apply F32Facts.ltb_irrefl | exact B].
  - destruct (w <? lo) eqn:L.
    + split; [exact B | apply F32Facts.ltb_irrefl].
    + split; assumption.
Qed.

End StdpFacts.

Section StdpBounds.

Variable expf : f32 -> f32.

(** [expf] of a number is a number (possibly an infinity). *)
Hypothesis expf_not_nan :
  forall x : f32, F32.is_nan x = false -> F32.is_nan (expf x) = false.

Lemma stdp_delta_not_nan (pre post : f32) :
  F32.is_finite pre = true -> F32.is_finite post = true ->
  F32.is_nan (stdp_delta expf (post - pre)) = false.
Proof.
  intros Fpre Fpost. unfold stdp_delta.
  pose proof (F32Arith.sub_not_nan post pre Fpost Fpre) as D.
  destruct (post - pre >? F32.zero).
  - apply F32Arith.mul_not_nan; try reflexivity.
    apply expf_not_nan, F32Arith.div_not_nan; try reflexivity.
    rewrite F32Arith.opp_not_nan. exact D.
  - apply F32Arith.mul_not_nan; try reflexivity.
    apply expf_not_nan, F32Arith.div_not_nan; try reflexivity. exact D.
Qed.

(** One STDP update of a finite weight at finite spike times ends between
    ordered bounds. *)
Lemma synapse_update_weight_in_bounds (synapse : Synapse) (pre post : f32) :
  plasticity synapse = STDP ->
  F32.leb (min_weight synapse) (max_weight synapse) = true ->
  F32.is_finite (weight synapse) = true ->
  F32.is_finite pre = true -> F32.is_finite post = true ->
  let synapse' := synapse_update_weight expf synapse pre post in
  F32.leb (min_weight synapse) (weight synapse') = true /\
  F32.leb (weight synapse') (max_weight synapse) = true.
Proof.
  intros P B Fw Fpre Fpost. cbv zeta.
  rewrite (synapse_update_weight_stdp expf synapse pre post P). simpl.
  apply clamp_bounds; [exact B|].
  apply F32Arith.add_not_nan; [exact Fw|].
  apply stdp_delta_not_nan; assumption.
Qed.

Lemma synapse_update_weight_frame (synapse : Synapse) (pre post : f32) :
  let synapse' := synapse_update_weight expf synapse pre post in
  plasticity synapse' = plasticity synapse /\
  min_weight synapse' = min_weight synapse /\
  max_weight synapse' = max_weight synapse.
Proof.
  cbv zeta. unfold synapse_update_weight.
  destruct (plasticity synapse) eqn:P; repeat split; try assumption;
    repeat match goal with
           | |- context [if ?c then _ else _] => destruct c
           end; simpl; try reflexivity; assumption.
Qed.

(** Any number of updates at finite spike times keeps a weight that starts
    between finite ordered bounds between them. *)
Lemma synapse_update_weights_in_bounds (spikes : list (f32 * f32)) :
  forall synapse : Synapse,
    F32.is_finite (min_weight synapse) = true ->
    F32.is_finite (max_weight synapse) = true ->
    F32.leb (min_weight synapse) (max_weight synapse) = true ->
    F32.leb (min_weight synapse) (weight synapse) = true ->
    F32.leb (weight synapse) (max_weight synapse) = true ->
    Forall (fun pp => F32.is_finite (fst pp) = true /\
                      F32.is_finite (snd pp) = true) spikes ->
    let synapse' := synapse_update_weights expf synapse spikes in
    F32.leb (min_weight synapse) (weight synapse') = true /\
    F32.leb (weight synapse') (max_weight synapse) = true.
Proof.
  induction spikes as [ | [pre post] spikes IH];
    intros synapse Fmin Fmax B Lo Hi Fin.
  - split; assumption.
  - cbv zeta. unfold synapse_update_weights. simpl.
    inversion Fin as [ | pp rest [Fpre Fpost] Fin']; subst.
    simpl in Fpre, Fpost.
    destruct (synapse_update_weight_frame synapse pre post) as (P' & Mn & Mx).
    cbv zeta in P', Mn, Mx.
    assert (F32.leb (min_weight synapse)
              (weight (synapse_update_weight expf synapse pre post)) = true /\
            F32.leb (weight (synapse_update_weight expf synapse pre post))
              (max_weight synapse) = true) as [Lo' Hi'].
    { destruct (plasticity synapse) eqn:P;
        try (rewrite synapse_update_weight_static by congruence;
             split; assumption).
      apply synapse_update_weight_in_bounds; try assumption.
      apply (F32Facts.between_finite (min_weight synapse) (max_weight synapse));
        assumption. }
    specialize (IH (synapse_update_weight expf synapse pre post)).
    cbv zeta in IH. unfold synapse_update_weights in IH.
    rewrite Mn, Mx in IH. apply IH; assumption.
Qed.

End StdpBounds.

(** A weight at the upper bound is not increased, a weight at the lower bound
    is not decreased, whatever [expf] returns. *)
Lemma synapse_update_weight_at_max (expf : f32 -> f32) (synapse : Synapse)
    (pre post : f32) :
  F32.ltb (max_weight synapse) (min_weight synapse) = false ->
  weight synapse = max_weight synapse ->
  (weight synapse <? weight (synapse_update_weight expf synapse pre post))
  = false.
Proof.
  intros B E. destruct (plasticity synapse) eqn:P;
    try (rewrite synapse_update_weight_static by congruence;
         apply F32Facts.ltb_irrefl).
  rewrite (synapse_update_weight_stdp expf synapse pre post P). simpl.
  rewrite E. apply clamp_at_bounds. exact B.
Qed.

Lemma synapse_update_weight_at_min (expf : f32 -> f32) (synapse : Synapse)
    (pre post : f32) :
  F32.ltb (max_weight synapse) (min_weight synapse) = false ->
  weight synapse = min_weight synapse ->
  (weight (synapse_update_weight expf synapse pre post) <? weight synapse)
  = false.
Proof.
  intros B E. destruct (plasticity synapse) eqn:P;
    try (rewrite synapse_update_weight_static by congruence;
         apply F32Facts.ltb_irrefl).
  rewrite (synapse_update_weight_stdp expf synapse pre post P). simpl.
  rewrite E. apply clamp_at_bounds. exact B.
Qed.

(** The weight change for spike times 10 and 15, and for 15 and 10. *)
Lemma stdp_delta_5 (expf : f32 -> f32) :
  stdp_delta expf (F32.of_Z 15 - F32.of_Z 10) =
    F32.lit 1 100 * expf (- F32.lit 1 4) /\
  stdp_delta expf (F32.of_Z 10 - F32.of_Z 15) =
    - F32.lit 1 100 * expf (- F32.lit 1 4).
Proof. split; unfold stdp_delta; vm_compute; reflexivity. Qed.

(** The check of [stdp_fresh_moves_from] covers every mantissa of its
    range. *)
Lemma stdp_fresh_moves_from_spec (count : nat) :
  forall m k : positive,
    stdp_fresh_moves_from count m = true ->
    (Zpos m <= Zpos k < Zpos m + Z.of_nat count)%Z ->
    stdp_fresh_moves (S754_finite false k (-24)) = true.
Proof.
  induction count as [ | count IH]; intros m k H R; [lia|].
  cbn [stdp_fresh_moves_from] in H. apply andb_true_iff in H.
  destruct H as [H1 H2].
  destruct (Pos.eq_dec k m) as [E | E]; [subst k; exact H1|].
  apply (IH (Pos.succ m) k H2). lia.
Qed.

(** The binary32 number nearest to [e^-0.25] is [13066109 * 2^-24]; the
    check succeeds on the 1024 binary32 numbers on either side of it. *)
Lemma stdp_fresh_moves_near_exp :
  stdp_fresh_moves_from 2049 13065085 = true.
Proof. vm_compute. reflexivity. Qed.

(** Both updates of the example move the weight of a fresh synapse set to
    STDP strictly, when the check succeeds on what [expf (-0.25f)]
    returns. *)
Lemma stdp_fresh_update (expf : f32 -> f32) (id pre_id post_id : Z)
    (type : SynapseType) :
  stdp_fresh_moves (expf (- F32.lit 1 4)) = true ->
  let fresh := set_plasticity STDP (synapse_create id pre_id post_id type) in
  (weight fresh
   <? weight (synapse_update_weight expf fresh (F32.of_Z 10) (F32.of_Z 15)))
  = true /\
  (weight (synapse_update_weight expf fresh (F32.of_Z 15) (F32.of_Z 10))
   <? weight fresh) = true.
Proof.
  intros H. cbv zeta. destruct (stdp_delta_5 expf) as [Up Down].
  rewrite !(synapse_update_weight_stdp expf
              (set_plasticity STDP (synapse_create id pre_id post_id type)))
    by reflexivity.
  rewrite Up, Down.
  unfold stdp_fresh_moves, stdp_example_moves in H.
  apply andb_true_iff in H. destruct H as [H HC].
  apply andb_true_iff in H. destruct H as [HA HB].
  apply andb_true_iff in HA, HB, HC.
  destruct type; [exact HA | exact HB | exact HC | exact HC].
Qed.



(** Away from the bounds, with the correctly rounded [expf (-0.25f)]: the
    weight 0.5 of [stdp_synapse] goes strictly up for spike times 10 and 15
    and strictly down for 15 and 10. *)
Example stdp_nominal_update (expf : f32 -> f32) :
  expf (- F32.lit 1 4) = F32.lit 7788007831 10000000000 ->
  (weight stdp_synapse
   <? weight (synapse_update_weight expf stdp_synapse
                (F32.of_Z 10) (F32.of_Z 15))) = true /\
  (weight (synapse_update_weight expf stdp_synapse
             (F32.of_Z 15) (F32.of_Z 10))
   <? weight stdp_synapse) = true.
Proof.
  intros H. destruct (stdp_delta_5 expf) as [Up Down].
  rewrite !(synapse_update_weight_stdp expf stdp_synapse) by reflexivity.
  rewrite Up, Down, H. split; vm_compute; reflexivity.
Qed.

(** Why the spike times must be finite: two infinite spike times differ by a
    NaN, which an [expf] that maps NaN to NaN carries into the weight, and
    the clamp lets a NaN through. *)
Lemma stdp_infinite_spike_times (expf : f32 -> f32) :
  expf S754_nan = S754_nan ->
  weight
    (synapse_update_weight expf stdp_synapse
       (S754_infinity false) (S754_infinity false)) = S754_nan.
Proof.
  intros H. unfold synapse_update_weight, stdp_synapse. simpl.
  rewrite H. reflexivity.
Qed.


Close Scope f32_scope.

(** ** The entity arrays *)

Section ArrayFacts.

Context {A : Type}.

Lemma update_at_length (i : nat) (f : A -> A) (l : list A) :
  length (update_at i f l) = length l.
Proof.
  revert i. induction l as [ | x l IH]; intros [ | i]; simpl;
    try reflexivity. rewrite IH. reflexivity.
Qed.

Lemma nth_error_update_at_same (i : nat) (f : A -> A) (l : list A) :
  nth_error (update_at i f l) i = option_map f (nth_error l i).
Proof.
  revert i. induction l as [ | x l IH]; intros [ | i]; simpl;
    try reflexivity. apply IH.
Qed.

Lemma nth_error_update_at_other (i j : nat) (f : A -> A) (l : list A) :
  i <> j -> nth_error (update_at i f l) j = nth_error l j.
Proof.
  revert i j. induction l as [ | x l IH]; intros [ | i] [ | j] H; simpl;
    try reflexivity; try congruence.
  apply IH. congruence.
Qed.

Lemma map_update_at (B : Type) (g : A -> B) (i : nat) (f : A -> A)
    (l : list A) :
  (forall x, g (f x) = g x) -> map g (update_at i f l) = map g l.
Proof.
  intros H. revert i. induction l as [ | x l IH]; intros [ | i]; simpl;
    try reflexivity.
  - rewrite H. reflexivity.
  - rewrite IH. reflexivity.
Qed.

End ArrayFacts.

(** [find_neuron] looks at the identifiers only. *)
Lemma find_neuron_app (neurons : list Neuron) (n : Neuron) (id : Z) :
  find_neuron (neurons ++ [n]) id =
  match find_neuron neurons id with
  | Some i => Some i
  | None => if (n_id n =? id)%Z then Some (length neurons) else None
  end.
Proof.
  induction neurons as [ | m neurons IH]; simpl.
  - destruct (n_id n =? id)%Z; reflexivity.
  - destruct (n_id m =? id)%Z; [reflexivity|].
    rewrite IH. destruct (find_neuron neurons id); simpl; [reflexivity|].
    destruct (n_id n =? id)%Z; reflexivity.
Qed.

Lemma find_neuron_none (neurons : list Neuron) (id : Z) :
  find_neuron neurons id = None <-> ~ In id (map n_id neurons).
Proof.
  induction neurons as [ | m neurons IH]; simpl.
  - split; [intros _ []|reflexivity].
  - destruct (Z.eqb_spec (n_id m) id) as [E | E].
    + split; [discriminate|]. intros H. exfalso. apply H. left. exact E.
    + destruct (find_neuron neurons id); simpl.
      * split; [discriminate|]. intros H. exfalso.
        assert (~ In id (map n_id neurons)) as H'
          by (intros I; apply H; right; exact I).
        apply IH in H'. discriminate.
      * split; [|reflexivity]. intros _ [I | I]; [congruence|].
        destruct IH as [IH _]. apply (IH eq_refl). exact I.
Qed.

(** A successful lookup returns the first entry that carries the id. *)
Lemma find_neuron_some (neurons : list Neuron) (id : Z) (i : nat) :
  find_neuron neurons id = Some i ->
  nth_error (map n_id neurons) i = Some id /\
  forall j, (j < i)%nat -> nth_error (map n_id neurons) j <> Some id.
Proof.
  revert i. induction neurons as [ | m neurons IH]; simpl; intros i H.
  - discriminate.
  - destruct (Z.eqb_spec (n_id m) id) as [E | E].
    + injection H as <-. simpl. split; [congruence|]. intros j Hj. lia.
    + destruct (find_neuron neurons id) as [k | ]; simpl in H; [|discriminate].
      injection H as <-. destruct (IH k eq_refl) as [N F]. simpl.
      split; [exact N|]. intros [ | j] Hj; simpl; [congruence|].
      apply F. lia.
Qed.

(** ** Creation through the command executor *)

Section ExecCreate.

Variables expf tanhf : f32 -> f32.

Lemma neuron_overrides_id (p : Exec.command_params_t) (n : Neuron) :
  n_id (Exec.neuron_overrides p n) = n_id n.
Proof.
  unfold Exec.neuron_overrides.
  repeat match goal with
         | |- context [if ?c then _ else _] => destruct c
         end; reflexivity.
Qed.

(** [CMD_CREATE_NEURON] with an id that is live: status -1, nothing changes. *)
Lemma create_neuron_duplicate (st : Exec.state) (p : Exec.command_params_t) :
  find_neuron (Exec.g_neurons st) (Exec.neuron_id p) <> None ->
  Exec.exec_command expf tanhf Exec.CMD_CREATE_NEURON (Some p) st =
  (st, Exec.failed).
Proof.
  intros H. unfold Exec.exec_command.
  destruct (negb (Exec.g_initialized st)); [reflexivity|].
  destruct (negb (Exec.g_running st)); [reflexivity|].
  destruct (find_neuron (Exec.g_neurons st) (Exec.neuron_id p));
    [reflexivity|congruence].
Qed.

(** [CMD_CREATE_NEURON] with a fresh id: status 0, the id returned, one
    neuron with that id appended, and both flags as they were. *)
Lemma create_neuron_fresh (st : Exec.state) (p : Exec.command_params_t) :
  Exec.g_initialized st = true -> Exec.g_running st = true ->
  find_neuron (Exec.g_neurons st) (Exec.neuron_id p) = None ->
  let r := Exec.exec_command expf tanhf Exec.CMD_CREATE_NEURON (Some p) st in
  Exec.status (snd r) = 0%Z /\ Exec.id (snd r) = Exec.neuron_id p /\
  map n_id (Exec.g_neurons (fst r)) =
    map n_id (Exec.g_neurons st) ++ [Exec.neuron_id p] /\
  Exec.g_initialized (fst r) = true /\ Exec.g_running (fst r) = true /\
  Exec.g_synapses (fst r) = Exec.g_synapses st.
Proof.
  intros I R F. cbv zeta. unfold Exec.exec_command. rewrite I, R, F. simpl.
  rewrite map_app. simpl. rewrite neuron_overrides_id. simpl.
  repeat split; assumption.
Qed.

(** Creating neurons with pairwise distinct fresh ids appends them in the
    order of the calls; every created id is then found, and a further
    creation with any of them fails and changes nothing. *)
Lemma create_neurons_then_find (ps : list Exec.command_params_t) :
  forall st : Exec.state,
    Exec.g_initialized st = true -> Exec.g_running st = true ->
    NoDup (map Exec.neuron_id ps) ->
    (forall p, In p ps ->
               ~ In (Exec.neuron_id p) (map n_id (Exec.g_neurons st))) ->
    let st' := Exec.run expf tanhf (Exec.creations ps) st in
    map n_id (Exec.g_neurons st') =
      map n_id (Exec.g_neurons st) ++ map Exec.neuron_id ps /\
    (forall p, In p ps ->
               find_neuron (Exec.g_neurons st') (Exec.neuron_id p) <> None) /\
    (forall p, In p ps ->
               Exec.exec_command expf tanhf Exec.CMD_CREATE_NEURON (Some p) st'
               = (st', Exec.failed)).
Proof.
  assert (forall st : Exec.state,
    Exec.g_initialized st = true -> Exec.g_running st = true ->
    NoDup (map Exec.neuron_id ps) ->
    (forall p, In p ps ->
               ~ In (Exec.neuron_id p) (map n_id (Exec.g_neurons st))) ->
    map n_id (Exec.g_neurons (Exec.run expf tanhf (Exec.creations ps) st)) =
      map n_id (Exec.g_neurons st) ++ map Exec.neuron_id ps) as Order.
  { induction ps as [ | p ps IH]; intros st I R D Fresh.
    - simpl. rewrite app_nil_r. reflexivity.
    - simpl in D. inversion D as [ | x xs Hx D']; subst.
      unfold Exec.run, Exec.creations. simpl.
      assert (find_neuron (Exec.g_neurons st) (Exec.neuron_id p) = None) as F.
      { apply find_neuron_none, Fresh. left. reflexivity. }
      destruct (create_neuron_fresh st p I R F) as (_ & _ & M & I' & R' & _).
      cbv zeta in M, I', R'.
      specialize (IH (fst (Exec.exec_command expf tanhf Exec.CMD_CREATE_NEURON
                             (Some p) st)) I' R' D').
      unfold Exec.run, Exec.creations in IH. rewrite IH.
      + rewrite M, <- app_assoc. reflexivity.
      + intros q Hq. rewrite M, in_app_iff. intros [H | [H | []]].
        * apply (Fresh q); [right; exact Hq | exact H].
        * apply Hx. rewrite H. apply in_map. exact Hq. }
  intros st I R D Fresh. cbv zeta.
  pose proof (Order st I R D Fresh) as M.
  assert (forall p, In p ps ->
            find_neuron
              (Exec.g_neurons (Exec.run expf tanhf (Exec.creations ps) st))
              (Exec.neuron_id p) <> None) as Found.
  { intros p Hp N. apply find_neuron_none in N. apply N. rewrite M.
    apply in_app_iff. right. apply in_map. exact Hp. }
  split; [exact M|]. split; [exact Found|].
  intros p Hp. apply create_neuron_duplicate, Found, Hp.
Qed.

End ExecCreate.

(** ** Creation through the bridge *)

(** C6 on the bridge.  [createNeuron] has no duplicate check: after
    [initCore], creating id 1 twice succeeds twice (a second handle is
    returned) and the array holds two neurons with id 1. *)
Theorem bridge_createNeuron_accepts_duplicate :
  let st0 := fst (Bridge.initCore Bridge.start) in
  let r1 := Bridge.createNeuron 1 0 0 st0 in
  let r2 := Bridge.createNeuron 1 0 0 (fst r1) in
  snd r1 = Some 0%nat /\
  find_neuron (Bridge.g_neurons (fst r1)) 1 = Some 0%nat /\
  snd r2 = Some 1%nat /\
  fst r2 <> fst r1 /\
  map n_id (Bridge.g_neurons (fst r2)) = [1%Z; 1%Z].
Proof.
  cbv zeta. repeat split; try reflexivity. vm_compute. discriminate.
Qed.

(** In general [createNeuron] succeeds on every initialised state and appends
    a neuron, whether or not its id is live. *)
Lemma bridge_createNeuron_always_appends (id type activation : Z)
    (st : Bridge.state) :
  Bridge.g_initialized st = true ->
  snd (Bridge.createNeuron id type activation st) =
    Some (length (Bridge.g_neurons st)) /\
  map n_id (Bridge.g_neurons (fst (Bridge.createNeuron id type activation st)))
  = map n_id (Bridge.g_neurons st) ++ [Bridge.u32_of_jint id].
Proof.
  intros I. unfold Bridge.createNeuron. rewrite I. simpl.
  rewrite map_app. split; reflexivity.
Qed.

(** ** Overrides at creation *)

Open Scope f32_scope.

Section Overrides.

Variables expf tanhf : f32 -> f32.

Lemma neb_zero_not_zero (x : f32) :
  (x !=? F32.zero) = true -> (x ==? F32.zero) = false.
Proof.
  unfold F32.neb, F32.eqb. destruct (SFeqb x F32.zero); simpl; congruence.
Qed.

Lemma not_neb_zero (x : f32) :
  (x ==? F32.zero) = true -> (x !=? F32.zero) = false.
Proof. unfold F32.neb, F32.eqb. intros ->. reflexivity. Qed.

(** What the overrides of [CMD_CREATE_NEURON] leave in the new neuron. *)
Lemma neuron_overrides_spec (p : Exec.command_params_t) (id : Z)
    (type : NeuronType) (activation : ActivationFunction) :
  let n := Exec.neuron_overrides p (neuron_create id type activation) in
  threshold n =
    (if Exec.p_threshold p !=? F32.zero then Exec.p_threshold p
     else F32.of_Z (-55)) /\
  rest_potential n =
    (if Exec.p_rest_potential p !=? F32.zero then Exec.p_rest_potential p
     else F32.of_Z (-70)) /\
  refractory_period n =
    (if Exec.p_refractory_period p !=? F32.zero then Exec.p_refractory_period p
     else F32.of_Z 2).
Proof.
  cbv zeta. unfold Exec.neuron_overrides.
  destruct (Exec.p_threshold p !=? F32.zero),
           (Exec.p_rest_potential p !=? F32.zero),
           (Exec.p_refractory_period p !=? F32.zero); repeat split.
Qed.

(** What the overrides of [CMD_CREATE_SYNAPSE] leave in the new synapse. *)
Lemma synapse_overrides_spec (p : Exec.command_params_t) (id pre post : Z)
    (type : SynapseType) :
  let s := Exec.synapse_overrides p (synapse_create id pre post type) in
  weight s =
    (if Exec.p_weight p !=? F32.zero then Exec.p_weight p
     else weight (synapse_create id pre post type)) /\
  delay s =
    (if Exec.p_delay p !=? F32.zero then Exec.p_delay p else F32.of_Z 1) /\
  max_weight s = F32.of_Z 1 /\ min_weight s = - F32.of_Z 1 /\
  plasticity s = STATIC.
Proof.
  cbv zeta. unfold Exec.synapse_overrides.
  destruct (Exec.p_weight p !=? F32.zero), (Exec.p_delay p !=? F32.zero);
    repeat split.
Qed.

Lemma default_weight_not_zero (id pre post : Z) (type : SynapseType) :
  (weight (synapse_create id pre post type) ==? F32.zero) = false.
Proof. destruct type; reflexivity. Qed.

(** C10.  A successful [CMD_CREATE_NEURON] appends a neuron whose threshold,
    rest potential and refractory period are the defaults -55, -70 and 2
    wherever the parameter compares equal to 0.0, and the parameter
    otherwise; a successful [CMD_CREATE_SYNAPSE] appends a synapse whose
    weight and delay are the defaults (0.5, -0.5 or 0.1 by type, and 1)
    wherever the parameter compares equal to 0.0; so none of the five is ever
    equal to 0.0 in a created entity. *)
Theorem create_zero_override_keeps_default (st st' : Exec.state)
    (p : Exec.command_params_t) (r : Exec.command_result_t) :
  (Exec.exec_command expf tanhf Exec.CMD_CREATE_NEURON (Some p) st = (st', r) ->
   Exec.status r = 0%Z ->
   exists n : Neuron,
     Exec.g_neurons st' = Exec.g_neurons st ++ [n] /\
     n_id n = Exec.neuron_id p /\
     ((Exec.p_threshold p ==? F32.zero) = true ->
      threshold n = F32.of_Z (-55)) /\
     ((Exec.p_rest_potential p ==? F32.zero) = true ->
      rest_potential n = F32.of_Z (-70)) /\
     ((Exec.p_refractory_period p ==? F32.zero) = true ->
      refractory_period n = F32.of_Z 2) /\
     ((Exec.p_threshold p ==? F32.zero) = false ->
      threshold n = Exec.p_threshold p) /\
     ((Exec.p_rest_potential p ==? F32.zero) = false ->
      rest_potential n = Exec.p_rest_potential p) /\
     ((Exec.p_refractory_period p ==? F32.zero) = false ->
      refractory_period n = Exec.p_refractory_period p) /\
     (threshold n ==? F32.zero) = false /\
     (rest_potential n ==? F32.zero) = false /\
     (refractory_period n ==? F32.zero) = false) /\
  (Exec.exec_command expf tanhf Exec.CMD_CREATE_SYNAPSE (Some p) st
   = (st', r) ->
   Exec.status r = 0%Z ->
   exists s : Synapse,
     Exec.g_synapses st' = Exec.g_synapses st ++ [s] /\
     s_id s = Exec.synapse_id p /\
     ((Exec.p_weight p ==? F32.zero) = true ->
      weight s =
      match SynapseType_of_u32 (Exec.synapse_type p) with
      | EXCITATORY_SYNAPSE => F32.lit 1 2
      | INHIBITORY_SYNAPSE => - F32.lit 1 2
      | _ => F32.lit 1 10
      end) /\
     ((Exec.p_delay p ==? F32.zero) = true -> delay s = F32.of_Z 1) /\
     ((Exec.p_weight p ==? F32.zero) = false -> weight s = Exec.p_weight p) /\
     ((Exec.p_delay p ==? F32.zero) = false -> delay s = Exec.p_delay p) /\
     (weight s ==? F32.zero) = false /\
     (delay s ==? F32.zero) = false).
Proof.
  split.
  - unfold Exec.exec_command.
    destruct (negb (Exec.g_initialized st));
      [intros E; injection E as <- <-; discriminate|].
    destruct (negb (Exec.g_running st));
      [intros E; injection E as <- <-; discriminate|].
    destruct (find_neuron (Exec.g_neurons st) (Exec.neuron_id p));
      [intros E; injection E as <- <-; discriminate|].
    intros E _. injection E as <- <-. simpl.
    eexists. split; [reflexivity|].
    split; [apply neuron_overrides_id|].
    destruct (neuron_overrides_spec p (Exec.neuron_id p)
                (NeuronType_of_u32 (Exec.neuron_type p))
                (ActivationFunction_of_u32 (Exec.activation_type p)))
      as (T & P & R).
    cbv zeta in T, P, R. rewrite T, P, R.
    unfold F32.neb, F32.eqb.
    destruct (SFeqb (Exec.p_threshold p) F32.zero) eqn:ET,
             (SFeqb (Exec.p_rest_potential p) F32.zero) eqn:EP,
             (SFeqb (Exec.p_refractory_period p) F32.zero) eqn:ER;
      simpl; repeat split; intros; try reflexivity; try congruence.
  - unfold Exec.exec_command.
    destruct (negb (Exec.g_initialized st));
      [intros E; injection E as <- <-; discriminate|].
    destruct (negb (Exec.g_running st));
      [intros E; injection E as <- <-; discriminate|].
    destruct (find_synapse (Exec.g_synapses st) (Exec.synapse_id p));
      [intros E; injection E as <- <-; discriminate|].
    destruct (find_neuron (Exec.g_neurons st) (Exec.neuron_id p));
      [|intros E; injection E as <- <-; discriminate].
    destruct (find_neuron (Exec.g_neurons st) (Exec.target_id p));
      [|intros E; injection E as <- <-; discriminate].
    intros E _. injection E as <- <-. simpl.
    eexists. split; [reflexivity|].
    destruct (synapse_overrides_spec p (Exec.synapse_id p) (Exec.neuron_id p)
                (Exec.target_id p) (SynapseType_of_u32 (Exec.synapse_type p)))
      as (W & D & _).
    cbv zeta in W, D. rewrite W, D.
    pose proof (default_weight_not_zero (Exec.synapse_id p) (Exec.neuron_id p)
                  (Exec.target_id p) (SynapseType_of_u32 (Exec.synapse_type p)))
      as NZ.
    split.
    { unfold Exec.synapse_overrides.
      repeat match goal with
             | |- context [if ?c then _ else _] => destruct c
             end; reflexivity. }
    unfold F32.neb, F32.eqb in *.
    destruct (SFeqb (Exec.p_weight p) F32.zero) eqn:EW,
             (SFeqb (Exec.p_delay p) F32.zero) eqn:ED;
      simpl; repeat split; intros; try reflexivity; try congruence;
      destruct (SynapseType_of_u32 (Exec.synapse_type p)); reflexivity.
Qed.

End Overrides.

Close Scope f32_scope.

(** C10 applied: after [exec_init], creating neuron 0 with all three
    parameters 0.0 succeeds and yields the defaults -55, -70 and 2; and once
    neurons 0 and 1 exist, creating an excitatory synapse from 0 to 1 with
    weight and delay 0.0 succeeds and yields the defaults 0.5 and 1. *)
Lemma create_zero_override_keeps_default_witness :
  (exists n : Neuron,
     Exec.g_neurons
       (fst (Exec.exec_command (fun x => x) (fun x => x)
               Exec.CMD_CREATE_NEURON (Some (Exec.numbered_params 0))
               (fst (Exec.exec_init Exec.start)))) = [n] /\
     threshold n = F32.of_Z (-55) /\
     rest_potential n = F32.of_Z (-70) /\
     refractory_period n = F32.of_Z 2) /\
  (exists s : Synapse,
     Exec.g_synapses
       (fst (Exec.exec_command (fun x => x) (fun x => x)
               Exec.CMD_CREATE_SYNAPSE
               (Some (Exec.mkParams 0 0 0 F32.zero F32.zero F32.zero 1 7 0
                        F32.zero F32.zero F32.zero F32.zero 0))
               (Exec.run (fun x => x) (fun x => x)
                  (Exec.creations (map Exec.numbered_params (seq 0 2)))
                  (fst (Exec.exec_init Exec.start))))) = [s] /\
     s_id s = 7%Z /\ weight s = F32.lit 1 2 /\ delay s = F32.of_Z 1).
Proof.
  split.
  - pose (p := Exec.numbered_params 0).
    pose (st := fst (Exec.exec_init Exec.start)).
    pose (res := Exec.exec_command (fun x => x) (fun x => x)
                   Exec.CMD_CREATE_NEURON (Some p) st).
    destruct
      (proj1
         (create_zero_override_keeps_default (fun x => x) (fun x => x)
            st (fst res) p (snd res))
         eq_refl eq_refl)
      as (n & G & _ & T & P & R & _).
    exists n. split; [exact G|].
    split; [apply T; reflexivity|].
    split; [apply P; reflexivity | apply R; reflexivity].
  - pose (p := Exec.mkParams 0 0 0 F32.zero F32.zero F32.zero 1 7 0
                 F32.zero F32.zero F32.zero F32.zero 0).
    pose (st := Exec.run (fun x => x) (fun x => x)
                  (Exec.creations (map Exec.numbered_params (seq 0 2)))
                  (fst (Exec.exec_init Exec.start))).
    pose (res := Exec.exec_command (fun x => x) (fun x => x)
                   Exec.CMD_CREATE_SYNAPSE (Some p) st).
    destruct
      (proj2
         (create_zero_override_keeps_default (fun x => x) (fun x => x)
            st (fst res) p (snd res))
         eq_refl eq_refl)
      as (s & G & I & W & D & _).
    exists s. split; [exact G|].
    split; [exact I|].
    split; [apply W; reflexivity | apply D; reflexivity].
Defined.

(** A synapse as [synapse_create] leaves it has its weight within its
    bounds, and neither activation nor reset touches weight or bounds. *)
Lemma synapse_create_in_bounds (id pre post : Z) (type : SynapseType) :
  let s := synapse_create id pre post type in
  F32.leb (min_weight s) (weight s) = true /\
  F32.leb (weight s) (max_weight s) = true.
Proof. destruct type; split; reflexivity. Qed.

Lemma synapse_activate_reset_frame (s : Synapse) (input now : f32) :
  let s' := fst (synapse_activate s input now) in
  (weight s' = weight s /\ min_weight s' = min_weight s /\
   max_weight s' = max_weight s) /\
  (weight (synapse_reset s) = weight s /\
   min_weight (synapse_reset s) = min_weight s /\
   max_weight (synapse_reset s) = max_weight s).
Proof.
  cbv zeta. unfold synapse_activate.
  destruct (F32.ltb now (F32.add (last_active s) (delay s)));
    repeat split.
Qed.

(** C5 at a failing input.  After [exec_init] and the creation of neurons 1
    and 2, [CMD_CREATE_SYNAPSE] with [weight = 5.0] succeeds and stores a
    synapse whose weight 5 exceeds its [max_weight] 1; a reset leaves it
    there. *)
Theorem create_synapse_weight_override_unclamped (expf tanhf : f32 -> f32) :
  let neuron k :=
    (Exec.CMD_CREATE_NEURON,
     Some (Exec.mkParams k 0 0 F32.zero F32.zero F32.zero 0 0 0
             F32.zero F32.zero F32.zero F32.zero 0)) in
  let synapse :=
    (Exec.CMD_CREATE_SYNAPSE,
     Some (Exec.mkParams 1 0 0 F32.zero F32.zero F32.zero 2 1 0
             (F32.of_Z 5) F32.zero F32.zero F32.zero 0)) in
  let st :=
    Exec.run expf tanhf [neuron 1%Z; neuron 2%Z]
      (fst (Exec.exec_init Exec.start)) in
  let created := Exec.exec_command expf tanhf (fst synapse) (snd synapse) st in
  let reset :=
    Exec.exec_command expf tanhf Exec.CMD_RESET_SIMULATION None (fst created) in
  Exec.status (snd created) = 0%Z /\
  (exists s : Synapse,
     Exec.g_synapses (fst created) = [s] /\
     weight s = F32.of_Z 5 /\ max_weight s = F32.of_Z 1 /\
     F32.leb (weight s) (max_weight s) = false) /\
  (exists s : Synapse,
     Exec.g_synapses (fst reset) = [s] /\
     F32.leb (weight s) (max_weight s) = false).
Proof.
  cbv zeta. split; [reflexivity|].
  split; eexists; repeat split; reflexivity.
Qed.

(** ** The scheduler *)

(** An entry of [connected_neurons] that names no live neuron is skipped. *)
Lemma propagate_to_missing_target (pre_id : Z) (now : f32)
    (neurons : list Neuron) (synapses : list Synapse) (target_id : Z) :
  find_neuron neurons target_id = None ->
  propagate_to pre_id now (neurons, synapses) target_id = (neurons, synapses).
Proof. intros H. unfold propagate_to. rewrite H. reflexivity. Qed.

(** So is an entry with no synapse from the firing neuron to the target. *)
Lemma propagate_to_missing_synapse (pre_id : Z) (now : f32)
    (neurons : list Neuron) (synapses : list Synapse) (target_id : Z) :
  find_synapse_between synapses pre_id target_id = None ->
  propagate_to pre_id now (neurons, synapses) target_id = (neurons, synapses).
Proof.
  intros H. unfold propagate_to. rewrite H.
  destruct (find_neuron neurons target_id); reflexivity.
Qed.

(** The entries after a skipped one are processed as if it were not there. *)
Lemma propagate_skips_and_continues (pre_id : Z) (now : f32)
    (before after : list Z) (target_id : Z)
    (arrays : list Neuron * list Synapse) :
  let reached := fold_left (propagate_to pre_id now) before arrays in
  find_neuron (fst reached) target_id = None \/
  find_synapse_between (snd reached) pre_id target_id = None ->
  fold_left (propagate_to pre_id now) (before ++ target_id :: after) arrays =
  fold_left (propagate_to pre_id now) (before ++ after) arrays.
Proof.
  cbv zeta. intros H. rewrite !fold_left_app. simpl.
  destruct (fold_left (propagate_to pre_id now) before arrays) as [ns ss].
  simpl in H. destruct H as [H | H].
  - rewrite propagate_to_missing_target by exact H. reflexivity.
  - rewrite propagate_to_missing_synapse by exact H. reflexivity.
Qed.

Lemma propagate_to_lengths (pre_id : Z) (now : f32)
    (arrays : list Neuron * list Synapse) (target_id : Z) :
  length (fst (propagate_to pre_id now arrays target_id))
  = length (fst arrays) /\
  length (snd (propagate_to pre_id now arrays target_id)) = length (snd arrays).
Proof.
  destruct arrays as [ns ss]. unfold propagate_to.
  destruct (find_neuron ns target_id); [|split; reflexivity].
  destruct (find_synapse_between ss pre_id target_id) as [[si syn] | ];
    [|split; reflexivity].
  destruct (synapse_activate syn F32.one now). simpl.
  rewrite !update_at_length. split; reflexivity.
Qed.

Lemma propagate_lengths (pre_id : Z) (now : f32) (targets : list Z) :
  forall arrays : list Neuron * list Synapse,
    length (fst (fold_left (propagate_to pre_id now) targets arrays))
    = length (fst arrays) /\
    length (snd (fold_left (propagate_to pre_id now) targets arrays))
    = length (snd arrays).
Proof.
  induction targets as [ | t targets IH]; intros arrays; simpl.
  - split; reflexivity.
  - destruct (IH (propagate_to pre_id now arrays t)) as [N S].
    destruct (propagate_to_lengths pre_id now arrays t) as [N' S'].
    split; congruence.
Qed.

Lemma propagate_to_ids (pre_id : Z) (now : f32)
    (arrays : list Neuron * list Synapse) (target_id : Z) :
  map n_id (fst (propagate_to pre_id now arrays target_id))
  = map n_id (fst arrays).
Proof.
  destruct arrays as [ns ss]. unfold propagate_to.
  destruct (find_neuron ns target_id); [|reflexivity].
  destruct (find_synapse_between ss pre_id target_id) as [[si syn] | ];
    [|reflexivity].
  destruct (synapse_activate syn F32.one now). simpl.
  apply map_update_at. reflexivity.
Qed.

Lemma propagate_ids (pre_id : Z) (now : f32) (targets : list Z) :
  forall arrays : list Neuron * list Synapse,
    map n_id (fst (fold_left (propagate_to pre_id now) targets arrays))
    = map n_id (fst arrays).
Proof.
  induction targets as [ | t targets IH]; intros arrays; simpl.
  - reflexivity.
  - rewrite IH. apply propagate_to_ids.
Qed.

Lemma map_update_at_const (A B : Type) (g : A -> B) (i : nat) (x y : A)
    (l : list A) :
  nth_error l i = Some x -> g y = g x ->
  map g (update_at i (fun _ => y) l) = map g l.
Proof.
  revert i. induction l as [ | z l IH]; intros [ | i]; simpl;
    try discriminate.
  - intros [= ->] E. rewrite E. reflexivity.
  - intros H E. rewrite (IH i H E). reflexivity.
Qed.

Section SchedulerFacts.

Variables expf tanhf : f32 -> f32.

Lemma neuron_fire_id (n : Neuron) (now : f32) :
  n_id (fst (neuron_fire n now)) = n_id n.
Proof.
  unfold neuron_fire.
  repeat match goal with
         | |- context [if ?c then _ else _] => destruct c
         end; reflexivity.
Qed.

(** Processing entry [i] keeps both array lengths and the order of the ids,
    and yields an output exactly when the entry exists. *)
Lemma process_neuron_frame (time_step now : f32)
    (arrays : list Neuron * list Synapse) (i : nat) :
  let r := process_neuron expf tanhf time_step now arrays i in
  length (fst (fst r)) = length (fst arrays) /\
  length (snd (fst r)) = length (snd arrays) /\
  map n_id (fst (fst r)) = map n_id (fst arrays) /\
  ((i < length (fst arrays))%nat -> exists o, snd r = Some o).
Proof.
  cbv zeta. destruct arrays as [ns ss]. unfold process_neuron.
  destruct (nth_error ns i) as [n | ] eqn:N.
  - destruct (neuron_compute expf tanhf n F32.zero time_step) as [n1 out] eqn:C.
    destruct (neuron_fire n1 now) as [n2 fired] eqn:F.
    assert (n_id n2 = n_id n) as Id.
    { replace n2 with (fst (neuron_fire n1 now)) by (rewrite F; reflexivity).
      rewrite neuron_fire_id.
      replace n1 with (fst (neuron_compute expf tanhf n F32.zero time_step))
        by (rewrite C; reflexivity).
      reflexivity. }
    destruct fired; simpl.
    + destruct (propagate_lengths (n_id n2) now (connected_neurons n2)
                  (update_at i (fun _ => n2) ns, ss)) as [L1 L2].
      rewrite L1, L2, propagate_ids. simpl. rewrite update_at_length.
      rewrite (map_update_at_const _ _ n_id i n n2 ns N Id).
      repeat split. intros _. eexists. reflexivity.
    + rewrite update_at_length, (map_update_at_const _ _ n_id i n n2 ns N Id).
      repeat split. intros _. eexists. reflexivity.
  - simpl. repeat split. intros H.
    apply nth_error_None in N. lia.
Qed.

Lemma update_at_app_head (A : Type) (f : A -> A) (done rest : list A) (x : A) :
  update_at (length done) f (done ++ x :: rest) = done ++ f x :: rest.
Proof.
  induction done as [ | d done IH]; simpl; [reflexivity|].
  rewrite IH. reflexivity.
Qed.

(** Written through the output block, the loop produces the outputs in array
    order, whatever the block held: entries [k, k + m) are still to do,
    [done] holds the outputs of the entries before [k]. *)
Lemma process_from (time_step now : f32) (m : nat) :
  forall (k : nat) (arrays : list Neuron * list Synapse)
         (done rest : list f32),
    length done = k -> length rest = m ->
    length (fst arrays) = (k + m)%nat ->
    let write :=
      fun (acc : list Neuron * list Synapse * list f32) (i : nat) =>
        let '(arrays, outputs) := acc in
        let '(arrays', out) :=
          process_neuron expf tanhf time_step now arrays i in
        (arrays',
         match out with
         | Some o => update_at i (fun _ => o) outputs
         | None => outputs
         end) in
    let append :=
      fun (acc : list Neuron * list Synapse * list f32) (i : nat) =>
        let '(arrays, outputs) := acc in
        let '(arrays', out) :=
          process_neuron expf tanhf time_step now arrays i in
        (arrays', outputs ++ match out with Some o => [o] | None => [] end) in
    fold_left write (seq k m) (arrays, done ++ rest) =
    fold_left append (seq k m) (arrays, done) /\
    length (snd (fold_left append (seq k m) (arrays, done))) = (k + m)%nat /\
    map n_id (fst (fst (fold_left append (seq k m) (arrays, done)))) =
    map n_id (fst arrays).
Proof.
  induction m as [ | m IH]; intros k arrays done rest Hd Hr Hn; cbv zeta.
  - destruct rest; [|discriminate]. rewrite app_nil_r. simpl.
    repeat split. lia.
  - destruct rest as [ | x rest]; [discriminate|]. simpl in Hr.
    simpl.
    destruct (process_neuron_frame time_step now arrays k)
      as (L1 & L2 & Ids & O).
    cbv zeta in L1, L2, Ids, O.
    destruct O as [o O]; [lia|].
    destruct (process_neuron expf tanhf time_step now arrays k)
      as [arrays' out]. simpl in L1, L2, Ids, O. subst out.
    rewrite <- Hd, update_at_app_head.
    replace (done ++ o :: rest) with ((done ++ [o]) ++ rest)
      by (rewrite <- app_assoc; reflexivity).
    specialize (IH (S k) arrays' (done ++ [o]) rest).
    cbv zeta in IH. rewrite Hd.
    destruct IH as (E & Len & Ids').
    + rewrite length_app. simpl. lia.
    + lia.
    + lia.
    + split; [exact E|]. split; [rewrite Len; lia|].
      rewrite Ids'. exact Ids.
Qed.

Lemma fresh_block_length (count : nat) (junk : list f32) :
  length (Bridge.fresh_block count junk) = count.
Proof.
  unfold Bridge.fresh_block.
  rewrite length_firstn, length_app, repeat_length. lia.
Qed.

(** The loop of [runSimulationStep] on a block of the right size computes
    [outputs_in_order], whatever the block held. *)
Lemma process_all_in_order (time_step now : f32)
    (arrays : list Neuron * list Synapse) (outputs : list f32) :
  length outputs = length (fst arrays) ->
  Bridge.process_all expf tanhf time_step now arrays outputs =
  Bridge.outputs_in_order expf tanhf time_step now arrays.
Proof.
  intros H. unfold Bridge.process_all, Bridge.outputs_in_order.
  destruct (process_from time_step now (length (fst arrays)) 0 arrays []
              outputs eq_refl H eq_refl) as (E & _).
  exact E.
Qed.

Lemma outputs_in_order_frame (time_step now : f32)
    (arrays : list Neuron * list Synapse) :
  length (snd (Bridge.outputs_in_order expf tanhf time_step now arrays))
  = length (fst arrays) /\
  map n_id (fst (fst (Bridge.outputs_in_order expf tanhf time_step now arrays)))
  = map n_id (fst arrays).
Proof.
  unfold Bridge.outputs_in_order.
  destruct (process_from time_step now (length (fst arrays)) 0 arrays []
              (repeat F32.zero (length (fst arrays))) eq_refl
              (repeat_length _ _) eq_refl) as (_ & L & I).
  split; assumption.
Qed.

Lemma apply_inputs_ids (neurons : list Neuron) :
  forall inputs : list f32,
    map n_id (Bridge.apply_inputs neurons inputs) = map n_id neurons.
Proof.
  induction neurons as [ | n neurons IH]; intros [ | x inputs]; simpl;
    try reflexivity.
  rewrite IH. reflexivity.
Qed.

(** A step of the bridge does not depend on what the output block held. *)
Lemma runSimulationStep_junk (inputs : list f32) (timeStep : f32)
    (junk1 junk2 : list f32) (st : Bridge.state) :
  Bridge.runSimulationStep expf tanhf inputs timeStep junk1 st =
  Bridge.runSimulationStep expf tanhf inputs timeStep junk2 st.
Proof.
  unfold Bridge.runSimulationStep.
  destruct (negb (Bridge.g_initialized st)); [reflexivity|].
  destruct (length (Bridge.apply_inputs (Bridge.g_neurons st) inputs)) eqn:L;
    [reflexivity|].
  rewrite <- L.
  rewrite !process_all_in_order by (simpl; apply fresh_block_length).
  reflexivity.
Qed.

Lemma run_steps_junk (steps : list (list f32 * f32)) :
  forall (junk1 junk2 : nat -> list f32) (k1 k2 : nat) (st : Bridge.state),
    Bridge.run_steps expf tanhf junk1 k1 steps st =
    Bridge.run_steps expf tanhf junk2 k2 steps st.
Proof.
  induction steps as [ | [inputs dt] steps IH]; intros junk1 junk2 k1 k2 st;
    simpl; [reflexivity|].
  rewrite (runSimulationStep_junk inputs dt (junk1 k1) (junk2 k2) st).
  destruct (Bridge.runSimulationStep expf tanhf inputs dt (junk2 k2) st)
    as [st1 out].
  rewrite (IH junk1 junk2 (S k1) (S k2) st1). reflexivity.
Qed.

Lemma apply_inputs_length (neurons : list Neuron) :
  forall inputs : list f32,
    length (Bridge.apply_inputs neurons inputs) = length neurons.
Proof.
  induction neurons as [ | n neurons IH]; intros [ | x inputs]; simpl;
    try reflexivity.
  rewrite IH. reflexivity.
Qed.

(** What a step of the bridge returns on an initialised state: NULL when the
    array is empty, and otherwise the outputs in array order, one per neuron,
    the neurons keeping their places. *)
Lemma runSimulationStep_outcome (inputs : list f32) (timeStep : f32)
    (junk : list f32) (st : Bridge.state) :
  Bridge.g_initialized st = true ->
  let r := Bridge.runSimulationStep expf tanhf inputs timeStep junk st in
  let now := F32.add (Bridge.g_simulation_time st) timeStep in
  Bridge.g_simulation_time (fst r) = now /\
  map n_id (Bridge.g_neurons (fst r)) = map n_id (Bridge.g_neurons st) /\
  (Bridge.g_neurons st = [] -> snd r = None) /\
  (Bridge.g_neurons st <> [] ->
   exists outputs : list f32,
     snd r = Some outputs /\
     length outputs = length (Bridge.g_neurons st) /\
     (Bridge.g_neurons (fst r), Bridge.g_synapses (fst r), outputs) =
     Bridge.outputs_in_order expf tanhf timeStep now
       (Bridge.apply_inputs (Bridge.g_neurons st) inputs,
        Bridge.g_synapses st)).
Proof.
  intros I. cbv zeta. unfold Bridge.runSimulationStep. rewrite I. simpl.
  pose proof (apply_inputs_length (Bridge.g_neurons st) inputs) as L.
  pose proof (apply_inputs_ids (Bridge.g_neurons st) inputs) as Ids.
  destruct (length (Bridge.apply_inputs (Bridge.g_neurons st) inputs)) eqn:N.
  - simpl. split; [reflexivity|]. split; [exact Ids|].
    split; [reflexivity|]. intros H. exfalso. apply H.
    destruct (Bridge.g_neurons st); [reflexivity|discriminate].
  - rewrite <- N.
    rewrite process_all_in_order by (simpl; apply fresh_block_length).
    destruct (outputs_in_order_frame timeStep
                (F32.add (Bridge.g_simulation_time st) timeStep)
                (Bridge.apply_inputs (Bridge.g_neurons st) inputs,
                 Bridge.g_synapses st)) as [Len Ids'].
    destruct (Bridge.outputs_in_order expf tanhf timeStep
                (F32.add (Bridge.g_simulation_time st) timeStep)
                (Bridge.apply_inputs (Bridge.g_neurons st) inputs,
                 Bridge.g_synapses st)) as [[ns ss] outs].
    simpl in *. split; [reflexivity|].
    split; [rewrite Ids'; exact Ids|].
    split; [intros E; rewrite E in L; simpl in L; lia|].
    intros _. exists outs. repeat split. rewrite Len, N. exact L.
Qed.

Lemma fold_process_ids (time_step now : f32) (indices : list nat) :
  forall arrays : list Neuron * list Synapse,
    map n_id
      (fst (fold_left
              (fun arrays i =>
                 fst (process_neuron expf tanhf time_step now arrays i))
              indices arrays))
    = map n_id (fst arrays).
Proof.
  induction indices as [ | i indices IH]; intros arrays; simpl;
    [reflexivity|].
  rewrite IH.
  destruct (process_neuron_frame time_step now arrays i) as (_ & _ & Ids & _).
  exact Ids.
Qed.

(** One pass of the executor's loop keeps the neurons in their places. *)
Lemma simulation_step_ids (time_step : f32) (st : Exec.state) :
  map n_id (Exec.g_neurons (Exec.simulation_step expf tanhf time_step st))
  = map n_id (Exec.g_neurons st).
Proof.
  unfold Exec.simulation_step. simpl.
  apply (fold_process_ids time_step
           (F32.add (Exec.g_simulation_time st) time_step)
           (seq 0 (length (Exec.g_neurons st)))
           (Exec.g_neurons st, Exec.g_synapses st)).
Qed.

(** [CMD_RUN_SIMULATION] returns status 0 on every initialised, running
    executor, whatever the arrays hold. *)
Lemma run_simulation_succeeds (p : Exec.command_params_t) (st : Exec.state) :
  Exec.g_initialized st = true -> Exec.g_running st = true ->
  Exec.status
    (snd (Exec.exec_command expf tanhf Exec.CMD_RUN_SIMULATION (Some p) st))
  = 0%Z.
Proof.
  intros I R. unfold Exec.exec_command. rewrite I, R. reflexivity.
Qed.

End SchedulerFacts.

(** C7 at a failing input on the bridge.  Right after [initCore] the array
    is empty; [runSimulationStep] then advances the clock, asks [mm_alloc]
    for zero bytes, gets NULL and returns NULL, whatever the inputs. *)
Theorem bridge_step_on_empty_store_fails (expf tanhf : f32 -> f32)
    (inputs : list f32) (timeStep : f32) (junk : list f32) :
  Bridge.g_initialized (fst (Bridge.initCore Bridge.start)) = true /\
  Bridge.runSimulationStep expf tanhf inputs timeStep junk
    (fst (Bridge.initCore Bridge.start)) =
  (Bridge.mkState true [] 100 [] 500 (F32.add F32.zero timeStep), None).
Proof.
  split; [reflexivity|]. unfold Bridge.runSimulationStep. simpl.
  destruct inputs; reflexivity.
Qed.

(** C8.  A step of the bridge is a function of the arrays, the clock, the
    inputs and the time step alone: two runs that differ only in what the
    freshly allocated output block held return the same state and the same
    outputs, bit for bit, and so do two runs of any sequence of steps.  The
    outputs are produced in array order, one per neuron, and neither the
    bridge's step nor the executor's moves a neuron from its place, which is
    the order of creation. *)
Theorem step_deterministic (expf tanhf : f32 -> f32) :
  (forall (inputs : list f32) (timeStep : f32) (junk1 junk2 : list f32)
          (st : Bridge.state),
     Bridge.runSimulationStep expf tanhf inputs timeStep junk1 st =
     Bridge.runSimulationStep expf tanhf inputs timeStep junk2 st) /\
  (forall (steps : list (list f32 * f32)) (junk1 junk2 : nat -> list f32)
          (st : Bridge.state),
     Bridge.run_steps expf tanhf junk1 0 steps st =
     Bridge.run_steps expf tanhf junk2 0 steps st) /\
  (forall (inputs : list f32) (timeStep : f32) (junk : list f32)
          (st : Bridge.state),
     Bridge.g_initialized st = true -> Bridge.g_neurons st <> [] ->
     let r := Bridge.runSimulationStep expf tanhf inputs timeStep junk st in
     exists outputs : list f32,
       snd r = Some outputs /\
       length outputs = length (Bridge.g_neurons st) /\
       map n_id (Bridge.g_neurons (fst r)) = map n_id (Bridge.g_neurons st) /\
       (Bridge.g_neurons (fst r), Bridge.g_synapses (fst r), outputs) =
       Bridge.outputs_in_order expf tanhf timeStep
         (F32.add (Bridge.g_simulation_time st) timeStep)
         (Bridge.apply_inputs (Bridge.g_neurons st) inputs,
          Bridge.g_synapses st)) /\
  (forall (id type activation : Z) (st : Bridge.state),
     Bridge.g_initialized st = true ->
     map n_id
       (Bridge.g_neurons (fst (Bridge.createNeuron id type activation st)))
     = map n_id (Bridge.g_neurons st) ++ [Bridge.u32_of_jint id]) /\
  (forall (time_step : f32) (st : Exec.state),
     map n_id (Exec.g_neurons (Exec.simulation_step expf tanhf time_step st))
     = map n_id (Exec.g_neurons st)).
Proof.
  split; [intros; apply runSimulationStep_junk|].
  split; [intros; apply run_steps_junk|].
  split.
  { intros inputs timeStep junk st I N. cbv zeta.
    destruct (runSimulationStep_outcome expf tanhf inputs timeStep junk st I)
      as (_ & Ids & _ & O). cbv zeta in Ids, O.
    destruct (O N) as (outputs & S & L & E).
    exists outputs. repeat split; assumption. }
  split.
  { intros id type activation st I.
    apply bridge_createNeuron_always_appends. exact I. }
  intros time_step st. apply simulation_step_ids.
Qed.

(** C8 applied to the two-neuron graph: it is initialised and not empty, and
    its step returns two outputs and keeps neurons 1 and 2 in their
    places. *)
Lemma step_deterministic_witness :
  Bridge.g_initialized Bridge.two_neurons = true /\
  Bridge.g_neurons Bridge.two_neurons <> [] /\
  exists outputs : list f32,
    snd (Bridge.runSimulationStep (fun x => x) (fun x => x) [F32.of_Z 20]
           F32.one [] Bridge.two_neurons) = Some outputs /\
    length outputs = 2%nat /\
    map n_id
      (Bridge.g_neurons
         (fst (Bridge.runSimulationStep (fun x => x) (fun x => x)
                 [F32.of_Z 20] F32.one [] Bridge.two_neurons)))
    = [1%Z; 2%Z].
Proof.
  split; [reflexivity|]. split; [discriminate|].
  destruct (step_deterministic (fun x => x) (fun x => x))
    as (_ & _ & Outcome & _).
  destruct (Outcome [F32.of_Z 20] F32.one [] Bridge.two_neurons eq_refl)
    as (outputs & S & L & Ids & _); [discriminate|].
  exists outputs. split; [exact S|]. split; [exact L | exact Ids].
Defined.

(** ** The cost of a lookup *)

(** [find_neuron] inspects the entries up to and including the first match,
    and all of them when there is none. *)
Lemma find_neuron_probes_spec (neurons : list Neuron) (id : Z) :
  find_neuron_probes neurons id =
  match find_neuron neurons id with
  | Some i => S i
  | None => length neurons
  end.
Proof.
  induction neurons as [ | n neurons IH]; simpl; [reflexivity|].
  destruct (n_id n =? id)%Z; [reflexivity|].
  rewrite IH. destruct (find_neuron neurons id); reflexivity.
Qed.

Lemma find_synapse_between_probes_spec (synapses : list Synapse)
    (pre_id post_id : Z) :
  find_synapse_between_probes synapses pre_id post_id =
  match find_synapse_between synapses pre_id post_id with
  | Some (i, _) => S i
  | None => length synapses
  end.
Proof.
  induction synapses as [ | s synapses IH]; simpl; [reflexivity|].
  destruct ((pre_neuron_id s =? pre_id) && (post_neuron_id s =? post_id))%Z;
    [reflexivity|].
  rewrite IH.
  destruct (find_synapse_between synapses pre_id post_id) as [[i x] | ];
    reflexivity.
Qed.

Lemma find_synapse_between_some (synapses : list Synapse) (pre_id post_id : Z)
    (i : nat) (s : Synapse) :
  find_synapse_between synapses pre_id post_id = Some (i, s) ->
  nth_error synapses i = Some s /\
  pre_neuron_id s = pre_id /\ post_neuron_id s = post_id /\
  forall (j : nat) (x : Synapse),
    (j < i)%nat -> nth_error synapses j = Some x ->
    ~ (pre_neuron_id x = pre_id /\ post_neuron_id x = post_id).
Proof.
  revert i. induction synapses as [ | y synapses IH]; simpl; intros i H.
  - discriminate.
  - destruct ((pre_neuron_id y =? pre_id) && (post_neuron_id y =? post_id))%Z
      eqn:M.
    + injection H as <- <-. apply andb_true_iff in M. destruct M as [M1 M2].
      apply Z.eqb_eq in M1, M2. simpl. repeat split; try assumption.
      intros j x Hj. lia.
    + destruct (find_synapse_between synapses pre_id post_id) as [[k x] | ];
        simpl in H; [|discriminate].
      injection H as <- <-. destruct (IH k eq_refl) as (N & P1 & P2 & F).
      simpl. repeat split; try assumption.
      intros [ | j] z Hj Hz; simpl in Hz.
      * injection Hz as <-. intros [E1 E2].
        apply andb_false_iff in M. destruct M as [M | M];
          apply Z.eqb_neq in M; congruence.
      * apply (F j z); [lia | exact Hz].
Qed.

Section Numbered.

Variables expf tanhf : f32 -> f32.

Lemma find_neuron_numbered_fresh (count : nat) :
  find_neuron (numbered_neurons count) (Z.of_nat count) = None.
Proof.
  apply find_neuron_none. unfold numbered_neurons. rewrite map_map. simpl.
  intros H. apply in_map_iff in H. destruct H as (k & E & I).
  apply in_seq in I. lia.
Qed.

(** [numbered_neurons count] is the array the executor holds after [count]
    creations with the ids [0 .. count - 1] and no override. *)
Lemma run_numbered_creations (count : nat) :
  let st :=
    Exec.run expf tanhf
      (Exec.creations (map Exec.numbered_params (seq 0 count)))
      (fst (Exec.exec_init Exec.start)) in
  Exec.g_neurons st = numbered_neurons count /\
  Exec.g_initialized st = true /\ Exec.g_running st = true.
Proof.
  cbv zeta. induction count as [ | count (N & I & R)].
  - repeat split.
  - rewrite seq_S, map_app. unfold Exec.creations, Exec.run in *.
    rewrite map_app, fold_left_app.
    set (st := fold_left _ _ _) in *.
    cbn [map fold_left fst snd plus].
    unfold Exec.exec_command.
    rewrite I, R, N. cbn [negb Exec.numbered_params Exec.neuron_id].
    rewrite (find_neuron_numbered_fresh count).
    cbn [fst Exec.g_neurons Exec.g_initialized Exec.g_running].
    repeat split. unfold numbered_neurons. rewrite seq_S, map_app. reflexivity.
Qed.

End Numbered.

(** On that array the lookup of the next id, which is absent, inspects every
    entry. *)
Lemma find_neuron_probes_numbered (count : nat) :
  find_neuron_probes (numbered_neurons count) (Z.of_nat count) = count.
Proof.
  rewrite find_neuron_probes_spec, find_neuron_numbered_fresh.
  unfold numbered_neurons. rewrite length_map, length_seq. reflexivity.
Qed.

(** C9, as amended.  Lookup is a linear scan: [find_neuron] returns the
    first entry of the array with the id and inspects every entry up to it,
    all [n] of them when the id is absent; the propagation loop finds the
    synapse for [(pre_id, post_id)] the same way, by a scan of the synapse
    array from its start. *)
Theorem lookup_is_linear_scan (neurons : list Neuron) (synapses : list Synapse)
    (id pre_id post_id : Z) :
  (find_neuron neurons id = None ->
   ~ In id (map n_id neurons) /\
   find_neuron_probes neurons id = length neurons) /\
  (forall i : nat,
     find_neuron neurons id = Some i ->
     nth_error (map n_id neurons) i = Some id /\
     (forall j, (j < i)%nat -> nth_error (map n_id neurons) j <> Some id) /\
     find_neuron_probes neurons id = S i) /\
  (find_synapse_between synapses pre_id post_id = None ->
   find_synapse_between_probes synapses pre_id post_id = length synapses) /\
  (forall (i : nat) (s : Synapse),
     find_synapse_between synapses pre_id post_id = Some (i, s) ->
     nth_error synapses i = Some s /\
     pre_neuron_id s = pre_id /\ post_neuron_id s = post_id /\
     (forall (j : nat) (x : Synapse),
        (j < i)%nat -> nth_error synapses j = Some x ->
        ~ (pre_neuron_id x = pre_id /\ post_neuron_id x = post_id)) /\
     find_synapse_between_probes synapses pre_id post_id = S i).
Proof.
  split; [|split; [|split]].
  - intros H. split; [apply find_neuron_none; exact H|].
    rewrite find_neuron_probes_spec, H. reflexivity.
  - intros i H. destruct (find_neuron_some neurons id i H) as [N F].
    repeat split; try assumption.
    rewrite find_neuron_probes_spec, H. reflexivity.
  - intros H. rewrite find_synapse_between_probes_spec, H. reflexivity.
  - intros i s H.
    destruct (find_synapse_between_some synapses pre_id post_id i s H)
      as (N & P1 & P2 & F).
    repeat split; try assumption.
    rewrite find_synapse_between_probes_spec, H. reflexivity.
Qed.

(** C9 applied to the array of the neurons 0, 1 and 2: id 2 is found at
    index 2 after three entries were inspected. *)
Lemma lookup_is_linear_scan_witness :
  find_neuron (numbered_neurons 3) 2 = Some 2%nat /\
  find_neuron_probes (numbered_neurons 3) 2 = 3%nat.
Proof.
  split; [reflexivity|].
  destruct (lookup_is_linear_scan (numbered_neurons 3) [] 2 0 0)
    as (_ & Found & _).
  destruct (Found 2%nat eq_refl) as (_ & _ & Probes). exact Probes.
Defined.

Lemma lookups_probes_repeat (neurons : list Neuron) (id : Z) (k : nat) :
  lookups_probes neurons (repeat id k)
  = (k * find_neuron_probes neurons id)%nat.
Proof.
  unfold lookups_probes. induction k as [ | k IH]; simpl; [reflexivity|].
  rewrite IH. reflexivity.
Qed.

(** C9 as the claim states it fails: no constant bounds the number of
    entries a lookup inspects, even on the arrays the executor builds, and
    none bounds it on average over the creations and the lookups either.
    After the creation of the neurons [0 .. c] the lookup of the id [c + 1]
    inspects [c + 1] entries, and, the array being left as it was, it does so
    again on every later call. *)
Lemma find_neuron_is_not_constant_time :
  ~ (exists c : nat,
       forall (count : nat) (id : Z),
         (find_neuron_probes
            (Exec.g_neurons
               (Exec.run (fun x => x) (fun x => x)
                  (Exec.creations (map Exec.numbered_params (seq 0 count)))
                  (fst (Exec.exec_init Exec.start))))
            id <= c)%nat) /\
  ~ (exists c : nat,
       forall (count : nat) (ids : list Z),
         (lookups_probes
            (Exec.g_neurons
               (Exec.run (fun x => x) (fun x => x)
                  (Exec.creations (map Exec.numbered_params (seq 0 count)))
                  (fst (Exec.exec_init Exec.start))))
            ids <= c * (count + length ids))%nat).
Proof.
  split; intros [c H].
  - specialize (H (S c) (Z.of_nat (S c))).
    destruct (run_numbered_creations (fun x => x) (fun x => x) (S c))
      as (N & _). cbv zeta in N.
    rewrite N, find_neuron_probes_numbered in H. lia.
  - specialize (H (S c) (repeat (Z.of_nat (S c)) (S (c * S c)))).
    destruct (run_numbered_creations (fun x => x) (fun x => x) (S c))
      as (N & _). cbv zeta in N.
    rewrite N, lookups_probes_repeat, find_neuron_probes_numbered,
      repeat_length in H.
    nia.
Qed.

(** The end-to-end scenario on the bridge: input 20 on neuron 1, time step 1.
    Neuron 1 leaks from -50 to -52, fires at time 1 and is back at -70; the
    synapse delivers 0.5 to neuron 2 at once, before neuron 2 is computed in
    the same pass, so that neuron 2 ends at [(-70 + 0.5) * 0.9 + -70 * 0.1]. *)
Example bridge_two_neuron_step :
  let r :=
    Bridge.runSimulationStep (fun x => x) (fun x => x) [F32.of_Z 20] F32.one
      [] Bridge.two_neurons in
  let p2 :=
    F32.add
      (F32.mul (F32.add (F32.of_Z (-70)) (F32.lit 1 2)) (F32.lit 9 10))
      (F32.mul (F32.of_Z (-70)) (F32.lit 1 10)) in
  snd r = Some [F32.of_Z (-52); p2] /\
  map potential (Bridge.g_neurons (fst r)) = [F32.of_Z (-70); p2] /\
  map last_fired (Bridge.g_neurons (fst r)) = [F32.one; F32.of_Z (-1000)] /\
  map last_active (Bridge.g_synapses (fst r)) = [F32.one].
Proof. cbv zeta. repeat split; vm_compute; reflexivity. Qed.


(* ================================================================= *)
(** * Further properties of the code *)

(** ** Connections of a neuron *)

Lemma connection_exists_In (target_id : Z) (conns : list Z) :
  connection_exists target_id conns = true <-> In target_id conns.
Proof.
  induction conns as [ | c conns IH]; simpl.
  - split; [discriminate | intros []].
  - destruct (Z.eqb_spec c target_id) as [E | E].
    + split; [left; exact E | reflexivity].
    + rewrite IH. split; [right; assumption | intros [H | H]; congruence].
Qed.

Lemma connection_index_None (target_id : Z) (conns : list Z) :
  connection_index target_id conns = None <-> ~ In target_id conns.
Proof.
  induction conns as [ | c conns IH]; simpl.
  - split; [intros _ [] | reflexivity].
  - destruct (Z.eqb_spec c target_id) as [E | E].
    + split; [discriminate | intros H; exfalso; apply H; left; exact E].
    + destruct (connection_index target_id conns); simpl.
      * split; [discriminate|]. intros H. exfalso.
        assert (~ In target_id conns) as H' by (intros I; apply H; right; exact I).
        apply IH in H'. discriminate.
      * split; [|reflexivity]. intros _ [H | H]; [congruence|].
        destruct IH as [IH _]. apply (IH eq_refl H).
Qed.

(** Removing the entry at the index of the first occurrence of [x] from a
    list without duplicates leaves the entries different from [x], in their
    order. *)
Lemma remove_at_connection_index (x : Z) (conns : list Z) (i : nat) :
  connection_index x conns = Some i ->
  NoDup conns ->
  remove_at i conns = filter (fun c => negb (c =? x)%Z) conns.
Proof.
  revert i. induction conns as [ | c conns IH]; simpl; intros i H D.
  - discriminate.
  - inversion D as [ | c' conns' Hc D']; subst.
    destruct (Z.eqb_spec c x) as [E | E]; simpl.
    + injection H as <-. simpl. subst c.
      symmetry. apply forallb_filter_id.
      apply forallb_forall. intros y Hy.
      destruct (Z.eqb_spec y x); [subst; contradiction | reflexivity].
    + destruct (connection_index x conns) as [k | ]; simpl in H; [|discriminate].
      injection H as <-. simpl. rewrite (IH k eq_refl D'). reflexivity.
Qed.

Lemma set_connected_neurons_same (n : Neuron) :
  set_connected_neurons (connected_neurons n) n = n.
Proof. destruct n; reflexivity. Qed.

Lemma neuron_connect_present (source target : Neuron) :
  In (n_id target) (connected_neurons source) ->
  neuron_connect source target = source.
Proof.
  intros I. unfold neuron_connect.
  rewrite (proj2 (connection_exists_In _ _) I). reflexivity.
Qed.

Lemma neuron_connect_absent (source target : Neuron) :
  ~ In (n_id target) (connected_neurons source) ->
  neuron_connect source target =
  set_connected_neurons (connected_neurons source ++ [n_id target]) source.
Proof.
  intros N. unfold neuron_connect.
  destruct (connection_exists (n_id target) (connected_neurons source)) eqn:E;
    [|reflexivity].
  apply connection_exists_In in E. contradiction.
Qed.

Lemma neuron_connect_In (source target : Neuron) :
  In (n_id target) (connected_neurons (neuron_connect source target)).
Proof.
  destruct (in_dec Z.eq_dec (n_id target) (connected_neurons source)) as [I | N].
  - rewrite neuron_connect_present by exact I. exact I.
  - rewrite neuron_connect_absent by exact N. simpl.
    apply in_or_app. right. left. reflexivity.
Qed.

Lemma neuron_connect_NoDup (source target : Neuron) :
  NoDup (connected_neurons source) ->
  NoDup (connected_neurons (neuron_connect source target)).
Proof.
  intros D.
  destruct (in_dec Z.eq_dec (n_id target) (connected_neurons source)) as [I | N].
  - rewrite neuron_connect_present by exact I. exact D.
  - rewrite neuron_connect_absent by exact N. simpl.
    apply NoDup_app; [exact D | constructor; [intros [] | constructor] |].
    intros x Hx [Hy | []]. subst. contradiction.
Qed.

Lemma neuron_connect_again (source target target' : Neuron) :
  n_id target' = n_id target ->
  neuron_connect (neuron_connect source target) target' =
  neuron_connect source target.
Proof.
  intros E. apply neuron_connect_present. rewrite E. apply neuron_connect_In.
Qed.

Lemma neuron_connect_id (source target : Neuron) :
  n_id (neuron_connect source target) = n_id source.
Proof.
  unfold neuron_connect.
  destruct (connection_exists (n_id target) (connected_neurons source));
    reflexivity.
Qed.

(** X1.  [neuron_connect] keeps a connection list free of duplicates: the
    target is in the list afterwards, every earlier entry stays in its place,
    a target that was absent is appended at the end, a target that was
    present changes nothing, and connecting the same target again changes
    nothing. *)
Theorem neuron_connect_no_duplicates (source target : Neuron) :
  NoDup (connected_neurons source) ->
  let source' := neuron_connect source target in
  NoDup (connected_neurons source') /\
  In (n_id target) (connected_neurons source') /\
  (In (n_id target) (connected_neurons source) -> source' = source) /\
  (~ In (n_id target) (connected_neurons source) ->
   connected_neurons source' = connected_neurons source ++ [n_id target]) /\
  neuron_connect source' target = source' /\
  n_id source' = n_id source /\ potential source' = potential source.
Proof.
  intros D. cbv zeta.
  split; [apply neuron_connect_NoDup; exact D|].
  split; [apply neuron_connect_In|].
  split; [apply neuron_connect_present|].
  split; [intros N; rewrite neuron_connect_absent by exact N; reflexivity|].
  split; [apply neuron_connect_again; reflexivity|].
  unfold neuron_connect.
  destruct (connection_exists (n_id target) (connected_neurons source));
    split; reflexivity.
Qed.

(** X1 applied to a neuron that already lists 5 and 9, connected to 9 and
    then to 4. *)
Lemma neuron_connect_no_duplicates_witness :
  NoDup (connected_neurons
           (set_connected_neurons [5%Z; 9%Z] (neuron_create 1 EXCITATORY LINEAR))) /\
  connected_neurons
    (neuron_connect
       (neuron_connect
          (set_connected_neurons [5%Z; 9%Z] (neuron_create 1 EXCITATORY LINEAR))
          (neuron_create 9 EXCITATORY LINEAR))
       (neuron_create 4 EXCITATORY LINEAR)) = [5%Z; 9%Z; 4%Z] /\
  In 9%Z
    (connected_neurons
       (neuron_connect
          (set_connected_neurons [5%Z; 9%Z] (neuron_create 1 EXCITATORY LINEAR))
          (neuron_create 9 EXCITATORY LINEAR))).
Proof.
  assert (NoDup (connected_neurons
            (set_connected_neurons [5%Z; 9%Z]
               (neuron_create 1 EXCITATORY LINEAR)))) as D.
  { simpl. repeat constructor; simpl; intuition discriminate. }
  split; [exact D|]. split; [reflexivity|].
  destruct (neuron_connect_no_duplicates
              (set_connected_neurons [5%Z; 9%Z]
                 (neuron_create 1 EXCITATORY LINEAR))
              (neuron_create 9 EXCITATORY LINEAR) D) as (_ & I & _).
  exact I.
Defined.

(** X2.  On a connection list without duplicates, [neuron_disconnect]
    removes the target and nothing else: the remaining entries keep their
    order, the target is gone, a target that was absent changes nothing, and
    disconnecting a target right after connecting it, when it was absent
    before, gives the neuron back. *)
Theorem neuron_disconnect_removes_target (source target : Neuron) :
  NoDup (connected_neurons source) ->
  let source' := neuron_disconnect source target in
  connected_neurons source' =
    filter (fun c => negb (c =? n_id target)%Z) (connected_neurons source) /\
  ~ In (n_id target) (connected_neurons source') /\
  NoDup (connected_neurons source') /\
  (~ In (n_id target) (connected_neurons source) -> source' = source) /\
  (~ In (n_id target) (connected_neurons source) ->
   neuron_disconnect (neuron_connect source target) target = source) /\
  n_id source' = n_id source /\ potential source' = potential source.
Proof.
  intros D. cbv zeta.
  assert (connected_neurons (neuron_disconnect source target) =
          filter (fun c => negb (c =? n_id target)%Z)
            (connected_neurons source)) as F.
  { unfold neuron_disconnect.
    destruct (connection_index (n_id target) (connected_neurons source))
      as [i | ] eqn:C.
    - simpl. apply remove_at_connection_index; assumption.
    - apply connection_index_None in C. symmetry. apply forallb_filter_id.
      apply forallb_forall. intros y Hy.
      destruct (Z.eqb_spec y (n_id target)); [subst; contradiction|reflexivity]. }
  split; [exact F|]. rewrite F.
  split.
  { intros I. apply filter_In in I. destruct I as [_ I].
    rewrite Z.eqb_refl in I. discriminate. }
  split; [apply NoDup_filter; exact D|].
  split.
  { intros N. unfold neuron_disconnect.
    apply connection_index_None in N. rewrite N. reflexivity. }
  split.
  { intros N. pose proof (neuron_connect_NoDup source target D) as D'.
    assert (connected_neurons (neuron_connect source target) =
            connected_neurons source ++ [n_id target]) as A
      by (rewrite neuron_connect_absent by exact N; reflexivity).
    unfold neuron_disconnect.
    destruct (connection_index (n_id target)
                (connected_neurons (neuron_connect source target)))
      as [i | ] eqn:C.
    - rewrite (remove_at_connection_index _ _ _ C D'), A, filter_app. simpl.
      rewrite Z.eqb_refl. simpl. rewrite app_nil_r.
      rewrite forallb_filter_id.
      + unfold neuron_connect.
        destruct (connection_exists (n_id target) (connected_neurons source));
          simpl; destruct source; reflexivity.
      + apply forallb_forall. intros y Hy.
        destruct (Z.eqb_spec y (n_id target)); [subst; contradiction|reflexivity].
    - apply connection_index_None in C. exfalso. apply C. rewrite A.
      apply in_or_app. right. left. reflexivity. }
  unfold neuron_disconnect.
  destruct (connection_index (n_id target) (connected_neurons source));
    split; reflexivity.
Qed.

(** X2 applied to a neuron that lists 5, 9 and 4, disconnected from 9. *)
Lemma neuron_disconnect_removes_target_witness :
  NoDup (connected_neurons
           (set_connected_neurons [5%Z; 9%Z; 4%Z]
              (neuron_create 1 EXCITATORY LINEAR))) /\
  connected_neurons
    (neuron_disconnect
       (set_connected_neurons [5%Z; 9%Z; 4%Z]
          (neuron_create 1 EXCITATORY LINEAR))
       (neuron_create 9 EXCITATORY LINEAR)) = [5%Z; 4%Z].
Proof.
  assert (NoDup (connected_neurons
            (set_connected_neurons [5%Z; 9%Z; 4%Z]
               (neuron_create 1 EXCITATORY LINEAR)))) as D.
  { simpl. repeat constructor; simpl; intuition discriminate. }
  split; [exact D|].
  destruct (neuron_disconnect_removes_target
              (set_connected_neurons [5%Z; 9%Z; 4%Z]
                 (neuron_create 1 EXCITATORY LINEAR))
              (neuron_create 9 EXCITATORY LINEAR) D) as (F & _).
  cbv zeta in F. rewrite F. reflexivity.
Defined.

(** ** What a simulation step leaves alone *)

Lemma find_neuron_connection_index (neurons : list Neuron) (id : Z) :
  find_neuron neurons id = connection_index id (map n_id neurons).
Proof.
  induction neurons as [ | n neurons IH]; simpl; [reflexivity|].
  rewrite IH. reflexivity.
Qed.

Lemma find_neuron_nth (neurons : list Neuron) (id : Z) (i : nat) :
  find_neuron neurons id = Some i ->
  exists n, nth_error neurons i = Some n /\ n_id n = id.
Proof.
  intros H. destruct (find_neuron_some neurons id i H) as [N _].
  rewrite nth_error_map in N.
  destruct (nth_error neurons i) as [n | ]; [|discriminate].
  exists n. split; [reflexivity|]. simpl in N. congruence.
Qed.

Lemma find_synapse_none (synapses : list Synapse) (id : Z) :
  find_synapse synapses id = None <-> ~ In id (map s_id synapses).
Proof.
  induction synapses as [ | m synapses IH]; simpl.
  - split; [intros _ []|reflexivity].
  - destruct (Z.eqb_spec (s_id m) id) as [E | E].
    + split; [discriminate|]. intros H. exfalso. apply H. left. exact E.
    + destruct (find_synapse synapses id); simpl.
      * split; [discriminate|]. intros H. exfalso.
        assert (~ In id (map s_id synapses)) as H'
          by (intros I; apply H; right; exact I).
        apply IH in H'. discriminate.
      * split; [|reflexivity]. intros _ [I | I]; [congruence|].
        destruct IH as [IH _]. apply (IH eq_refl). exact I.
Qed.

Lemma map_remove_at (A B : Type) (f : A -> B) (i : nat) (l : list A) :
  map f (remove_at i l) = remove_at i (map f l).
Proof.
  revert i. induction l as [ | x l IH]; intros [ | i]; simpl;
    try reflexivity.
  rewrite IH. reflexivity.
Qed.

Lemma remove_at_incl (A : Type) (i : nat) (l : list A) (x : A) :
  In x (remove_at i l) -> In x l.
Proof.
  revert i. induction l as [ | y l IH]; intros [ | i]; simpl; try tauto.
  intros [H | H]; [left; exact H | right; apply (IH i); exact H].
Qed.

Lemma remove_at_length (A : Type) (i : nat) (l : list A) :
  (length (remove_at i l) <= length l)%nat.
Proof.
  revert i. induction l as [ | y l IH]; intros [ | i]; simpl; try lia.
  specialize (IH i). lia.
Qed.

Lemma neuron_reset_add_potential (signal : f32) (n : Neuron) :
  neuron_reset (add_potential signal n) = neuron_reset n.
Proof. reflexivity. Qed.

Lemma neuron_reset_fire (n : Neuron) (now : f32) :
  neuron_reset (fst (neuron_fire n now)) = neuron_reset n.
Proof.
  unfold neuron_fire.
  repeat match goal with
         | |- context [if ?c then _ else _] => destruct c
         end; reflexivity.
Qed.

Lemma synapse_reset_activate (s : Synapse) (input now : f32) :
  synapse_reset (fst (synapse_activate s input now)) = synapse_reset s.
Proof.
  unfold synapse_activate.
  destruct (F32.ltb now (F32.add (last_active s) (delay s))); reflexivity.
Qed.

Lemma propagate_to_reset (pre_id : Z) (now : f32)
    (arrays : list Neuron * list Synapse) (target_id : Z) :
  map neuron_reset (fst (propagate_to pre_id now arrays target_id))
  = map neuron_reset (fst arrays) /\
  map synapse_reset (snd (propagate_to pre_id now arrays target_id))
  = map synapse_reset (snd arrays).
Proof.
  destruct arrays as [ns ss]. unfold propagate_to.
  destruct (find_neuron ns target_id); [|split; reflexivity].
  destruct (find_synapse_between ss pre_id target_id) as [[si syn] | ] eqn:F;
    [|split; reflexivity].
  pose proof (synapse_reset_activate syn F32.one now) as R.
  destruct (synapse_activate syn F32.one now) as [syn' signal]. simpl in *.
  destruct (find_synapse_between_some ss pre_id target_id si syn F) as (N & _).
  split.
  - apply map_update_at. intros x. apply neuron_reset_add_potential.
  - apply (map_update_at_const _ _ synapse_reset si syn syn' ss N R).
Qed.

Lemma propagate_reset (pre_id : Z) (now : f32) (targets : list Z) :
  forall arrays : list Neuron * list Synapse,
    map neuron_reset (fst (fold_left (propagate_to pre_id now) targets arrays))
    = map neuron_reset (fst arrays) /\
    map synapse_reset (snd (fold_left (propagate_to pre_id now) targets arrays))
    = map synapse_reset (snd arrays).
Proof.
  induction targets as [ | t targets IH]; intros arrays; simpl.
  - split; reflexivity.
  - destruct (IH (propagate_to pre_id now arrays t)) as [N S].
    destruct (propagate_to_reset pre_id now arrays t) as [N' S'].
    split; congruence.
Qed.

Section StepFrame.

Variables expf tanhf : f32 -> f32.

Lemma process_neuron_reset (time_step now : f32)
    (arrays : list Neuron * list Synapse) (i : nat) :
  let r := process_neuron expf tanhf time_step now arrays i in
  map neuron_reset (fst (fst r)) = map neuron_reset (fst arrays) /\
  map synapse_reset (snd (fst r)) = map synapse_reset (snd arrays).
Proof.
  cbv zeta. destruct arrays as [ns ss]. unfold process_neuron.
  destruct (nth_error ns i) as [n | ] eqn:N; [|split; reflexivity].
  destruct (neuron_compute expf tanhf n F32.zero time_step) as [n1 out] eqn:C.
  destruct (neuron_fire n1 now) as [n2 fired] eqn:F.
  assert (neuron_reset n2 = neuron_reset n) as R.
  { replace n2 with (fst (neuron_fire n1 now)) by (rewrite F; reflexivity).
    rewrite neuron_reset_fire.
    replace n1 with (fst (neuron_compute expf tanhf n F32.zero time_step))
      by (rewrite C; reflexivity).
    reflexivity. }
  pose proof (map_update_at_const _ _ neuron_reset i n n2 ns N R) as U.
  destruct fired; simpl.
  - destruct (propagate_reset (n_id n2) now (connected_neurons n2)
                (update_at i (fun _ => n2) ns, ss)) as [P1 P2].
    simpl in P1, P2. rewrite P1, P2, U. split; reflexivity.
  - rewrite U. split; reflexivity.
Qed.

Lemma fold_process_reset (time_step now : f32) (indices : list nat) :
  forall arrays : list Neuron * list Synapse,
    let arrays' :=
      fold_left
        (fun arrays i => fst (process_neuron expf tanhf time_step now arrays i))
        indices arrays in
    map neuron_reset (fst arrays') = map neuron_reset (fst arrays) /\
    map synapse_reset (snd arrays') = map synapse_reset (snd arrays).
Proof.
  induction indices as [ | i indices IH]; intros arrays; simpl;
    [split; reflexivity|].
  destruct (IH (fst (process_neuron expf tanhf time_step now arrays i)))
    as [N S]. cbv zeta in N, S.
  destruct (process_neuron_reset time_step now arrays i) as [N' S'].
  cbv zeta in N', S'. split; congruence.
Qed.

(** One pass of the executor's loop changes the clock, potentials, last-fired
    and last-active times, and nothing else. *)
Lemma simulation_step_reset (time_step : f32) (st : Exec.state) :
  let st' := Exec.simulation_step expf tanhf time_step st in
  map neuron_reset (Exec.g_neurons st') = map neuron_reset (Exec.g_neurons st) /\
  map synapse_reset (Exec.g_synapses st')
  = map synapse_reset (Exec.g_synapses st) /\
  Exec.g_initialized st' = Exec.g_initialized st /\
  Exec.g_running st' = Exec.g_running st /\
  Exec.g_neuron_capacity st' = Exec.g_neuron_capacity st /\
  Exec.g_synapse_capacity st' = Exec.g_synapse_capacity st /\
  Exec.g_simulation_time st' = F32.add (Exec.g_simulation_time st) time_step.
Proof.
  cbv zeta. unfold Exec.simulation_step. simpl.
  destruct (fold_process_reset time_step
              (F32.add (Exec.g_simulation_time st) time_step)
              (seq 0 (length (Exec.g_neurons st)))
              (Exec.g_neurons st, Exec.g_synapses st)) as [N S].
  cbv zeta in N, S. simpl in N, S. repeat split; assumption.
Qed.

Lemma simulation_steps_reset (time_step : f32) (k : nat) (st : Exec.state) :
  let st' := Nat.iter k (Exec.simulation_step expf tanhf time_step) st in
  map neuron_reset (Exec.g_neurons st') = map neuron_reset (Exec.g_neurons st) /\
  map synapse_reset (Exec.g_synapses st')
  = map synapse_reset (Exec.g_synapses st) /\
  Exec.g_initialized st' = Exec.g_initialized st /\
  Exec.g_running st' = Exec.g_running st /\
  Exec.g_neuron_capacity st' = Exec.g_neuron_capacity st /\
  Exec.g_synapse_capacity st' = Exec.g_synapse_capacity st.
Proof.
  cbv zeta. induction k as [ | k IH]; [repeat split|].
  change (Nat.iter (S k) (Exec.simulation_step expf tanhf time_step) st)
    with (Exec.simulation_step expf tanhf time_step
            (Nat.iter k (Exec.simulation_step expf tanhf time_step) st)).
  destruct IH as (N & S & I & R & C1 & C2).
  destruct (simulation_step_reset time_step
              (Nat.iter k (Exec.simulation_step expf tanhf time_step) st))
    as (N' & S' & I' & R' & C1' & C2' & _).
  cbv zeta in *. repeat split; congruence.
Qed.

End StepFrame.

(** The fields a reset keeps decide equality of the reset records. *)
Lemma neuron_reset_fields (n m : Neuron) :
  neuron_reset n = neuron_reset m ->
  n_id n = n_id m /\ n_type n = n_type m /\
  n_activation n = n_activation m /\ threshold n = threshold m /\
  rest_potential n = rest_potential m /\
  refractory_period n = refractory_period m /\
  connected_neurons n = connected_neurons m.
Proof.
  destruct n, m. unfold neuron_reset. simpl. intros [=]. subst.
  repeat split.
Qed.

Lemma synapse_reset_fields (s t : Synapse) :
  synapse_reset s = synapse_reset t ->
  s_id s = s_id t /\ pre_neuron_id s = pre_neuron_id t /\
  post_neuron_id s = post_neuron_id t /\ s_type s = s_type t /\
  plasticity s = plasticity t /\ weight s = weight t /\ delay s = delay t /\
  max_weight s = max_weight t /\ min_weight s = min_weight t.
Proof.
  destruct s, t. unfold synapse_reset. simpl. intros [=]. subst.
  repeat split.
Qed.

Lemma map_eq_nth (A B : Type) (f : A -> B) (l l' : list A) (i : nat) (x : A) :
  map f l = map f l' -> nth_error l i = Some x ->
  exists x', nth_error l' i = Some x' /\ f x = f x'.
Proof.
  intros M N. assert (nth_error (map f l') i = Some (f x)) as H.
  { rewrite <- M, nth_error_map, N. reflexivity. }
  rewrite nth_error_map in H.
  destruct (nth_error l' i) as [x' | ]; [|discriminate].
  exists x'. split; [reflexivity|]. simpl in H. congruence.
Qed.

(** ** Invariants of the command executor *)

Lemma NoDup_remove_at (A : Type) (i : nat) (l : list A) :
  NoDup l -> NoDup (remove_at i l).
Proof.
  revert i. induction l as [ | x l IH]; intros [ | i] D; simpl;
    try exact D.
  - inversion D; assumption.
  - inversion D as [ | y ys Hx D']; subst. constructor.
    + intros I. apply Hx. apply (remove_at_incl _ i l x I).
    + apply IH. exact D'.
Qed.

Lemma Forall_update_at (A : Type) (P : A -> Prop) (i : nat) (f : A -> A)
    (l : list A) :
  (forall x, P x -> P (f x)) -> Forall P l -> Forall P (update_at i f l).
Proof.
  intros H. revert i. induction l as [ | x l IH]; intros [ | i] F; simpl;
    try exact F; inversion F; subst; constructor; auto.
Qed.

Lemma Forall_remove_at (A : Type) (P : A -> Prop) (i : nat) (l : list A) :
  Forall P l -> Forall P (remove_at i l).
Proof.
  intros F. apply Forall_forall. intros x I.
  apply (proj1 (Forall_forall P l) F). apply (remove_at_incl _ i l x I).
Qed.

Lemma neuron_overrides_connections (p : Exec.command_params_t) (n : Neuron) :
  connected_neurons (Exec.neuron_overrides p n) = connected_neurons n /\
  potential (Exec.neuron_overrides p n) = potential n.
Proof.
  unfold Exec.neuron_overrides.
  repeat match goal with
         | |- context [if ?c then _ else _] => destruct c
         end; split; reflexivity.
Qed.

Lemma synapse_overrides_ids (p : Exec.command_params_t) (s : Synapse) :
  s_id (Exec.synapse_overrides p s) = s_id s /\
  pre_neuron_id (Exec.synapse_overrides p s) = pre_neuron_id s /\
  post_neuron_id (Exec.synapse_overrides p s) = post_neuron_id s /\
  last_active (Exec.synapse_overrides p s) = last_active s /\
  plasticity (Exec.synapse_overrides p s) = plasticity s.
Proof.
  unfold Exec.synapse_overrides.
  repeat match goal with
         | |- context [if ?c then _ else _] => destruct c
         end; repeat split; reflexivity.
Qed.

Lemma ids_of_reset (neurons : list Neuron) :
  map n_id neurons = map n_id (map neuron_reset neurons).
Proof. rewrite map_map. reflexivity. Qed.

Lemma synapse_ids_of_reset (synapses : list Synapse) :
  map s_id synapses = map s_id (map synapse_reset synapses).
Proof. rewrite map_map. reflexivity. Qed.

Lemma connections_of_reset (neurons neurons' : list Neuron) :
  map neuron_reset neurons' = map neuron_reset neurons ->
  Forall (fun n => NoDup (connected_neurons n)) neurons ->
  Forall (fun n => NoDup (connected_neurons n)) neurons'.
Proof.
  intros M F.
  assert (map connected_neurons neurons' = map connected_neurons neurons) as E.
  { apply (f_equal (map connected_neurons)) in M.
    rewrite !map_map in M. exact M. }
  apply Forall_map. rewrite E. apply Forall_map. exact F.
Qed.

Lemma grown_bound (count : nat) (capacity : Z) :
  (0 < capacity)%Z -> (Z.of_nat count <= capacity)%Z ->
  (capacity <= Exec.grown count capacity)%Z /\
  (Z.of_nat (S count) <= Exec.grown count capacity)%Z.
Proof.
  intros P L. unfold Exec.grown.
  destruct (Z.geb_spec (Z.of_nat count) capacity); lia.
Qed.

Section ExecInvariants.

Variables expf tanhf : f32 -> f32.

Lemma exec_command_well_formed (type : Exec.command_type_t)
    (params : option Exec.command_params_t) (st : Exec.state) :
  Exec.well_formed st ->
  Exec.well_formed (fst (Exec.exec_command expf tanhf type params st)).
Proof.
  intros G. pose proof G as ((U1 & U2) & C & (W1 & W2) & P1 & P2).
  unfold Exec.neuron_ids, Exec.synapse_ids, Exec.connections_unique in *.
  unfold Exec.exec_command.
  destruct (negb (Exec.g_initialized st)); [exact G|].
  destruct (negb (Exec.g_running st)); [exact G|].
  destruct type; destruct params as [p | ]; try exact G.
  - (* CMD_CREATE_NEURON *)
    destruct (find_neuron (Exec.g_neurons st) (Exec.neuron_id p)) eqn:F;
      [exact G|].
    apply find_neuron_none in F.
    destruct (grown_bound (length (Exec.g_neurons st))
                (Exec.g_neuron_capacity st)) as [B1 B2]; [lia | exact W1 |].
    unfold Exec.well_formed, Exec.unique_ids, Exec.connections_unique,
      Exec.within_capacity, Exec.neuron_ids, Exec.synapse_ids. simpl.
    rewrite map_app, length_app. simpl. rewrite neuron_overrides_id. simpl.
    repeat split; try assumption; try lia.
    + apply NoDup_app; [exact U1 | constructor; [intros [] | constructor] |].
      intros x Hx [Hy | []]. subst. contradiction.
    + apply Forall_app. split; [exact C|]. constructor; [|constructor].
      rewrite (proj1 (neuron_overrides_connections _ _)). simpl. constructor.
  - (* CMD_DELETE_NEURON *)
    destruct (find_neuron (Exec.g_neurons st) (Exec.neuron_id p)) as [i | ];
      [|exact G].
    unfold Exec.well_formed, Exec.unique_ids, Exec.connections_unique,
      Exec.within_capacity, Exec.neuron_ids, Exec.synapse_ids. simpl.
    rewrite map_remove_at.
    pose proof (remove_at_length _ i (Exec.g_neurons st)).
    repeat split; try assumption; try lia.
    + apply NoDup_remove_at. exact U1.
    + apply Forall_remove_at. exact C.
  - (* CMD_CONNECT_NEURONS *)
    destruct (find_neuron (Exec.g_neurons st) (Exec.neuron_id p)) as [i | ];
      [|exact G].
    destruct (find_neuron (Exec.g_neurons st) (Exec.target_id p)) as [k | ];
      [|exact G].
    destruct (nth_error (Exec.g_neurons st) k) as [target | ]; [|exact G].
    unfold Exec.well_formed, Exec.unique_ids, Exec.connections_unique,
      Exec.within_capacity, Exec.neuron_ids, Exec.synapse_ids. simpl.
    rewrite update_at_length.
    rewrite map_update_at by (intros x; apply neuron_connect_id).
    repeat split; try assumption.
    apply Forall_update_at; [|exact C].
    intros x. apply neuron_connect_NoDup.
  - (* CMD_CREATE_SYNAPSE *)
    destruct (find_synapse (Exec.g_synapses st) (Exec.synapse_id p)) eqn:F;
      [exact G|].
    apply find_synapse_none in F.
    destruct (find_neuron (Exec.g_neurons st) (Exec.neuron_id p)); [|exact G].
    destruct (find_neuron (Exec.g_neurons st) (Exec.target_id p)); [|exact G].
    destruct (grown_bound (length (Exec.g_synapses st))
                (Exec.g_synapse_capacity st)) as [B1 B2]; [lia | exact W2 |].
    unfold Exec.well_formed, Exec.unique_ids, Exec.connections_unique,
      Exec.within_capacity, Exec.neuron_ids, Exec.synapse_ids. simpl.
    rewrite map_app, length_app. simpl.
    rewrite (proj1 (synapse_overrides_ids _ _)). simpl.
    repeat split; try assumption; try lia.
    apply NoDup_app; [exact U2 | constructor; [intros [] | constructor] |].
    intros x Hx [Hy | []]. subst. contradiction.
  - (* CMD_RUN_SIMULATION *)
    cbv zeta.
    set (dt := if F32.gtb (Exec.time_step p) F32.zero
               then Exec.time_step p else F32.one).
    set (k := Z.to_nat (if (Exec.num_steps p >? 0)%Z
                        then Exec.num_steps p else 1%Z)).
    destruct (simulation_steps_reset expf tanhf dt k st)
      as (N & S & _ & _ & C1 & C2). cbv zeta in N, S, C1, C2.
    cbn [fst].
    set (st' := Nat.iter k (Exec.simulation_step expf tanhf dt) st) in *.
    unfold Exec.well_formed, Exec.unique_ids, Exec.connections_unique,
      Exec.within_capacity, Exec.neuron_ids, Exec.synapse_ids.
    rewrite (ids_of_reset (Exec.g_neurons st')), N, <- ids_of_reset.
    rewrite (synapse_ids_of_reset (Exec.g_synapses st')), S,
      <- synapse_ids_of_reset.
    rewrite C1, C2.
    assert (length (Exec.g_neurons st') = length (Exec.g_neurons st)) as L1.
    { rewrite <- (length_map neuron_reset), N, length_map. reflexivity. }
    assert (length (Exec.g_synapses st') = length (Exec.g_synapses st)) as L2.
    { rewrite <- (length_map synapse_reset), S, length_map. reflexivity. }
    rewrite L1, L2. repeat split; try assumption.
    apply (connections_of_reset (Exec.g_neurons st)); assumption.
  - (* CMD_RESET_SIMULATION *)
    unfold Exec.well_formed, Exec.unique_ids, Exec.connections_unique,
      Exec.within_capacity, Exec.neuron_ids, Exec.synapse_ids. simpl.
    rewrite <- ids_of_reset, <- synapse_ids_of_reset, !length_map.
    repeat split; try assumption.
    apply Forall_map. exact C.
  - unfold Exec.well_formed, Exec.unique_ids, Exec.connections_unique,
      Exec.within_capacity, Exec.neuron_ids, Exec.synapse_ids. simpl.
    rewrite <- ids_of_reset, <- synapse_ids_of_reset, !length_map.
    repeat split; try assumption.
    apply Forall_map. exact C.
  - (* CMD_GET_NEURON_STATE *)
    destruct (find_neuron (Exec.g_neurons st) (Exec.neuron_id p)) as [i | ];
      [|exact G].
    destruct (nth_error (Exec.g_neurons st) i); exact G.
  - (* CMD_SET_NEURON_PARAM *)
    destruct (find_neuron (Exec.g_neurons st) (Exec.neuron_id p)) as [i | ];
      [|exact G].
    assert (forall set : f32 -> Neuron -> Neuron,
              (forall n, n_id (set value n) = n_id n) ->
              (forall n, connected_neurons (set value n)
                         = connected_neurons n) ->
              Exec.well_formed
                (Exec.set_arrays
                   (update_at i (set value) (Exec.g_neurons st),
                    Exec.g_synapses st) st)) as A.
    { intros set Id Conn.
      unfold Exec.well_formed, Exec.unique_ids, Exec.connections_unique,
        Exec.within_capacity, Exec.neuron_ids, Exec.synapse_ids. simpl.
      rewrite update_at_length, map_update_at by exact Id.
      repeat split; try assumption.
      apply Forall_update_at; [|exact C].
      intros x. rewrite Conn. trivial. }
    cbv zeta.
    destruct (Exec.target_id p) as [ | q | q]; try exact G.
    repeat (destruct q as [q | q | ]; try exact G);
      apply A; reflexivity.
Qed.

Lemma run_well_formed (cmds : list (Exec.command_type_t * option Exec.command_params_t)) :
  forall st : Exec.state,
    Exec.well_formed st -> Exec.well_formed (Exec.run expf tanhf cmds st).
Proof.
  induction cmds as [ | c cmds IH]; intros st G; [exact G|].
  apply (IH _ (exec_command_well_formed (fst c) (snd c) st G)).
Qed.

Lemma exec_init_well_formed : Exec.well_formed (fst (Exec.exec_init Exec.start)).
Proof.
  unfold Exec.well_formed, Exec.unique_ids, Exec.connections_unique,
    Exec.within_capacity. simpl.
  repeat split; try constructor; try lia; discriminate.
Qed.

End ExecInvariants.

(** ** Commands of the executor *)

Lemma remove_at_find_neuron (neurons : list Neuron) (id : Z) (i : nat) :
  find_neuron neurons id = Some i ->
  NoDup (map n_id neurons) ->
  remove_at i neurons = filter (fun n => negb (n_id n =? id)%Z) neurons.
Proof.
  revert i. induction neurons as [ | m neurons IH]; simpl; intros i H D.
  - discriminate.
  - inversion D as [ | c' l' Hc D']; subst.
    destruct (Z.eqb_spec (n_id m) id) as [E | E]; simpl.
    + injection H as <-. simpl. symmetry. apply forallb_filter_id.
      apply forallb_forall. intros y Hy.
      destruct (Z.eqb_spec (n_id y) id) as [E' | E']; [|reflexivity].
      exfalso. apply Hc. rewrite E, <- E'. apply in_map. exact Hy.
    + destruct (find_neuron neurons id) as [k | ]; simpl in H; [|discriminate].
      injection H as <-. simpl. rewrite (IH k eq_refl D'). reflexivity.
Qed.

Lemma find_neuron_filter_out (neurons : list Neuron) (id : Z) :
  find_neuron (filter (fun n => negb (n_id n =? id)%Z) neurons) id = None.
Proof.
  apply find_neuron_none. intros I. apply in_map_iff in I.
  destruct I as (n & E & I). apply filter_In in I. destruct I as [_ I].
  rewrite E, Z.eqb_refl in I. discriminate.
Qed.

Lemma connection_index_nth (x : Z) (l : list Z) (k : nat) :
  NoDup l -> nth_error l k = Some x -> connection_index x l = Some k.
Proof.
  revert k. induction l as [ | c l IH]; intros [ | k] D H; simpl in *;
    try discriminate.
  - injection H as ->. rewrite Z.eqb_refl. reflexivity.
  - inversion D as [ | c' l' Hc D']; subst.
    destruct (Z.eqb_spec c x) as [E | E].
    + exfalso. apply Hc. subst c. apply (nth_error_In _ _ H).
    + rewrite (IH k D' H). reflexivity.
Qed.

Lemma update_at_fixed (A : Type) (i : nat) (f : A -> A) (l : list A) (x : A) :
  nth_error l i = Some x -> f x = x -> update_at i f l = l.
Proof.
  revert i. induction l as [ | y l IH]; intros [ | i]; simpl;
    try discriminate.
  - intros [= ->] E. rewrite E. reflexivity.
  - intros H E. rewrite (IH i H E). reflexivity.
Qed.

Section ExecCommands.

Variables expf tanhf : f32 -> f32.

(** X3.  On every state the executor reaches from [exec_init] by commands,
    whatever their types (the eleven of [command_type_t] or a value outside
    them) and parameters, no two live neurons share an id, no two live
    synapses share an id, and no neuron lists a connection target twice; so
    an id names at most one entry of the neuron array. *)
Theorem exec_ids_stay_unique
    (cmds : list (Exec.command_type_t * option Exec.command_params_t)) :
  let st := Exec.run expf tanhf cmds (fst (Exec.exec_init Exec.start)) in
  NoDup (Exec.neuron_ids st) /\ NoDup (Exec.synapse_ids st) /\
  Forall (fun n => NoDup (connected_neurons n)) (Exec.g_neurons st) /\
  (forall (i j : nat) (n m : Neuron),
     nth_error (Exec.g_neurons st) i = Some n ->
     nth_error (Exec.g_neurons st) j = Some m ->
     n_id n = n_id m -> i = j).
Proof.
  cbv zeta.
  destruct (run_well_formed expf tanhf cmds _ exec_init_well_formed)
    as ((U1 & U2) & C & _).
  split; [exact U1|]. split; [exact U2|]. split; [exact C|].
  intros i j n m Hi Hj E. unfold Exec.neuron_ids in U1.
  apply (proj1 (NoDup_nth_error _) U1).
  - rewrite length_map. apply nth_error_Some. congruence.
  - rewrite !nth_error_map, Hi, Hj. simpl. congruence.
Qed.

(** X4.  On every state the executor reaches from [exec_init] by commands,
    whatever their types (the eleven of [command_type_t] or a value outside
    them) and parameters, neither array holds more entries than its
    capacity, and the capacities never fall below the initial 100 and 500:
    every append writes inside the allocated array. *)
Theorem exec_arrays_within_capacity
    (cmds : list (Exec.command_type_t * option Exec.command_params_t)) :
  let st := Exec.run expf tanhf cmds (fst (Exec.exec_init Exec.start)) in
  (Z.of_nat (length (Exec.g_neurons st)) <= Exec.g_neuron_capacity st)%Z /\
  (Z.of_nat (length (Exec.g_synapses st)) <= Exec.g_synapse_capacity st)%Z /\
  (100 <= Exec.g_neuron_capacity st)%Z /\
  (500 <= Exec.g_synapse_capacity st)%Z.
Proof.
  cbv zeta.
  destruct (run_well_formed expf tanhf cmds _ exec_init_well_formed)
    as (_ & _ & (W1 & W2) & P1 & P2).
  repeat split; assumption.
Qed.

(** X5.  [CMD_DELETE_NEURON] on an executor whose neuron ids are distinct:
    with a live id it returns status 0 and removes exactly the neuron with
    that id, the others keeping their order and the synapses staying as they
    were (also those that name the deleted neuron); the id is then not found,
    and deleting it again or asking for its state returns status -1.  With
    an id that is not live it returns status -1 and changes nothing. *)
Theorem delete_neuron_removes_it (st : Exec.state)
    (p : Exec.command_params_t) :
  Exec.g_initialized st = true -> Exec.g_running st = true ->
  NoDup (Exec.neuron_ids st) ->
  let r := Exec.exec_command expf tanhf Exec.CMD_DELETE_NEURON (Some p) st in
  (In (Exec.neuron_id p) (Exec.neuron_ids st) ->
   Exec.status (snd r) = 0%Z /\
   Exec.g_neurons (fst r) =
     filter (fun n => negb (n_id n =? Exec.neuron_id p)%Z) (Exec.g_neurons st) /\
   Exec.g_synapses (fst r) = Exec.g_synapses st /\
   find_neuron (Exec.g_neurons (fst r)) (Exec.neuron_id p) = None /\
   Exec.exec_command expf tanhf Exec.CMD_DELETE_NEURON (Some p) (fst r) =
     (fst r, Exec.failed) /\
   Exec.exec_command expf tanhf Exec.CMD_GET_NEURON_STATE (Some p) (fst r) =
     (fst r, Exec.failed)) /\
  (~ In (Exec.neuron_id p) (Exec.neuron_ids st) -> r = (st, Exec.failed)).
Proof.
  intros I R D. cbv zeta. unfold Exec.neuron_ids in *.
  destruct (find_neuron (Exec.g_neurons st) (Exec.neuron_id p)) as [i | ] eqn:F.
  - split; [|intros N; apply find_neuron_none in N; congruence].
    intros _.
    set (st1 := Exec.set_arrays
                  (remove_at i (Exec.g_neurons st), Exec.g_synapses st) st).
    assert (Exec.exec_command expf tanhf Exec.CMD_DELETE_NEURON (Some p) st =
            (st1, Exec.ok)) as Hr.
    { unfold Exec.exec_command. rewrite I, R, F. reflexivity. }
    rewrite Hr. cbn [fst snd].
    assert (Exec.g_neurons st1 =
            filter (fun n => negb (n_id n =? Exec.neuron_id p)%Z)
              (Exec.g_neurons st)) as E.
    { apply (remove_at_find_neuron _ _ _ F D). }
    assert (find_neuron (Exec.g_neurons st1) (Exec.neuron_id p) = None) as G.
    { rewrite E. apply find_neuron_filter_out. }
    assert (Exec.g_initialized st1 = true) as I1 by exact I.
    assert (Exec.g_running st1 = true) as R1 by exact R.
    split; [reflexivity|]. split; [exact E|]. split; [reflexivity|].
    split; [exact G|].
    unfold Exec.exec_command. rewrite I1, R1, G. split; reflexivity.
  - split.
    + intros H. apply find_neuron_none in F. contradiction.
    + intros _. unfold Exec.exec_command. rewrite I, R, F. reflexivity.
Qed.

End ExecCommands.

(** X5 applied to the two-neuron graph, neuron 2 deleted: neuron 1 and the
    synapse from 1 to 2 stay. *)
Lemma delete_neuron_removes_it_witness :
  Exec.g_initialized Exec.two_neurons = true /\
  Exec.g_running Exec.two_neurons = true /\
  NoDup (Exec.neuron_ids Exec.two_neurons) /\
  In (Exec.neuron_id (Exec.link_params 2 0 0))
    (Exec.neuron_ids Exec.two_neurons) /\
  let r :=
    Exec.exec_command (fun x => x) (fun x => x) Exec.CMD_DELETE_NEURON
      (Some (Exec.link_params 2 0 0)) Exec.two_neurons in
  Exec.status (snd r) = 0%Z /\
  Exec.neuron_ids (fst r) = [1%Z] /\
  map post_neuron_id (Exec.g_synapses (fst r)) = [2%Z] /\
  find_neuron (Exec.g_neurons (fst r)) 2 = None.
Proof.
  assert (NoDup (Exec.neuron_ids Exec.two_neurons)) as D.
  { repeat constructor; simpl; intuition discriminate. }
  assert (In (Exec.neuron_id (Exec.link_params 2 0 0))
            (Exec.neuron_ids Exec.two_neurons)) as I
    by (right; left; reflexivity).
  split; [reflexivity|]. split; [reflexivity|]. split; [exact D|].
  split; [exact I|].
  destruct (delete_neuron_removes_it (fun x => x) (fun x => x)
              Exec.two_neurons (Exec.link_params 2 0 0) eq_refl eq_refl D)
    as [Live _].
  destruct (Live I) as (S & N & Y & F & _).
  cbv zeta. split; [exact S|]. split; [reflexivity|].
  split; [reflexivity|]. exact F.
Defined.

Section ExecLookup.

Variables expf tanhf : f32 -> f32.

(** A run of creations with fresh, pairwise distinct ids: the flags stay,
    the ids are appended in order, and every neuron is at its default
    potential if those of the start state were. *)
Lemma run_creations (ps : list Exec.command_params_t) :
  forall st : Exec.state,
    Exec.g_initialized st = true -> Exec.g_running st = true ->
    NoDup (map Exec.neuron_id ps) ->
    (forall p, In p ps ->
               ~ In (Exec.neuron_id p) (map n_id (Exec.g_neurons st))) ->
    Forall (fun n => potential n = F32.of_Z (-70)) (Exec.g_neurons st) ->
    let st' := Exec.run expf tanhf (Exec.creations ps) st in
    Exec.g_initialized st' = true /\ Exec.g_running st' = true /\
    map n_id (Exec.g_neurons st') =
      map n_id (Exec.g_neurons st) ++ map Exec.neuron_id ps /\
    Forall (fun n => potential n = F32.of_Z (-70)) (Exec.g_neurons st').
Proof.
  induction ps as [ | p ps IH]; intros st I R D Fresh P; cbv zeta.
  - simpl. rewrite app_nil_r. repeat split; assumption.
  - simpl in D. inversion D as [ | x xs Hx D']; subst.
    assert (find_neuron (Exec.g_neurons st) (Exec.neuron_id p) = None) as F.
    { apply find_neuron_none, Fresh. left. reflexivity. }
    set (neuron :=
           Exec.neuron_overrides p
             (neuron_create (Exec.neuron_id p)
                (NeuronType_of_u32 (Exec.neuron_type p))
                (ActivationFunction_of_u32 (Exec.activation_type p)))).
    set (st1 :=
           Exec.mkState true true
             (Exec.g_neurons st ++ [neuron])
             (Exec.grown (length (Exec.g_neurons st))
                (Exec.g_neuron_capacity st))
             (Exec.g_synapses st) (Exec.g_synapse_capacity st)
             (Exec.g_simulation_time st)).
    assert (Exec.run expf tanhf (Exec.creations (p :: ps)) st =
            Exec.run expf tanhf (Exec.creations ps) st1) as Hr.
    { assert (Exec.exec_command expf tanhf Exec.CMD_CREATE_NEURON (Some p) st
              = (st1, Exec.mkResult 0 (Exec.neuron_id p) F32.zero)) as Hc.
      { unfold Exec.exec_command. rewrite I, R, F. reflexivity. }
      unfold Exec.run, Exec.creations. cbn [map fold_left fst snd].
      rewrite Hc. reflexivity. }
    rewrite Hr.
    assert (map n_id (Exec.g_neurons st1) =
            map n_id (Exec.g_neurons st) ++ [Exec.neuron_id p]) as M.
    { simpl. rewrite map_app. simpl. unfold neuron.
      rewrite neuron_overrides_id. reflexivity. }
    destruct (IH st1) as (I' & R' & M' & P'); try assumption;
      try reflexivity.
    + intros q Hq. rewrite M, in_app_iff. intros [H | [H | []]].
      * apply (Fresh q); [right; exact Hq | exact H].
      * apply Hx. rewrite H. apply in_map. exact Hq.
    + simpl. apply Forall_app. split; [exact P|].
      constructor; [|constructor]. unfold neuron.
      rewrite (proj2 (neuron_overrides_connections _ _)). reflexivity.
    + cbv zeta in *. repeat split; try assumption.
      rewrite M', M, <- app_assoc. reflexivity.
Qed.

(** X6.  After [exec_init], creating neurons with pairwise distinct ids
    stores them in the order of the commands: the neuron of the k-th command
    is found at index k, [CMD_GET_NEURON_STATE] returns status 0, its id and
    the default potential -70 whatever overrides the creation carried,
    creating it again returns status -1 and changes nothing, and asking for
    the state of an id that was not created returns status -1. *)
Theorem created_neurons_are_found (ps : list Exec.command_params_t) :
  NoDup (map Exec.neuron_id ps) ->
  let st :=
    Exec.run expf tanhf (Exec.creations ps) (fst (Exec.exec_init Exec.start)) in
  Exec.neuron_ids st = map Exec.neuron_id ps /\
  (forall (k : nat) (p : Exec.command_params_t),
     nth_error ps k = Some p ->
     find_neuron (Exec.g_neurons st) (Exec.neuron_id p) = Some k /\
     Exec.exec_command expf tanhf Exec.CMD_GET_NEURON_STATE (Some p) st =
       (st, Exec.mkResult 0 (Exec.neuron_id p) (F32.of_Z (-70))) /\
     Exec.exec_command expf tanhf Exec.CMD_CREATE_NEURON (Some p) st =
       (st, Exec.failed)) /\
  (forall p : Exec.command_params_t,
     ~ In (Exec.neuron_id p) (map Exec.neuron_id ps) ->
     Exec.exec_command expf tanhf Exec.CMD_GET_NEURON_STATE (Some p) st =
       (st, Exec.failed)).
Proof.
  intros D. cbv zeta.
  destruct (run_creations ps (fst (Exec.exec_init Exec.start)) eq_refl eq_refl D)
    as (I & R & M & P).
  { intros p _ []. }
  { constructor. }
  cbv zeta in I, R, M, P.
  change (map n_id (Exec.g_neurons (fst (Exec.exec_init Exec.start))))
    with (@nil Z) in M.
  rewrite app_nil_l in M.
  set (st := Exec.run expf tanhf (Exec.creations ps)
               (fst (Exec.exec_init Exec.start))) in *.
  unfold Exec.neuron_ids. split; [exact M|]. split.
  - intros k p Hk.
    assert (find_neuron (Exec.g_neurons st) (Exec.neuron_id p) = Some k) as F.
    { rewrite find_neuron_connection_index, M.
      apply connection_index_nth; [exact D|].
      rewrite nth_error_map, Hk. reflexivity. }
    destruct (find_neuron_nth _ _ _ F) as (n & N & Id).
    split; [exact F|]. split.
    + unfold Exec.exec_command. rewrite I, R, F, N. cbn [negb].
      rewrite Id.
      rewrite (proj1 (Forall_forall _ _) P n (nth_error_In _ _ N)).
      reflexivity.
    + unfold Exec.exec_command. rewrite I, R, F. reflexivity.
  - intros p N. rewrite <- M in N. apply find_neuron_none in N.
    unfold Exec.exec_command. rewrite I, R, N. reflexivity.
Qed.

(** X7.  [CMD_SHUTDOWN] is final.  It returns status 0 and keeps the arrays,
    but from then on every command, whatever its type (the eleven of
    [command_type_t] or a value outside them) and parameters, returns
    status -1 and changes nothing,
    and [exec_init] returns 0 without setting the executor running again;
    only [exec_cleanup] followed by [exec_init] gives a running executor,
    with empty arrays and the clock at 0. *)
Theorem shutdown_is_final (st : Exec.state) :
  Exec.g_initialized st = true -> Exec.g_running st = true ->
  let r := Exec.exec_command expf tanhf Exec.CMD_SHUTDOWN None st in
  Exec.status (snd r) = 0%Z /\
  Exec.exec_is_running (fst r) = false /\
  Exec.g_neurons (fst r) = Exec.g_neurons st /\
  Exec.g_synapses (fst r) = Exec.g_synapses st /\
  (forall type params,
     Exec.exec_command expf tanhf type params (fst r) = (fst r, Exec.failed)) /\
  (forall cmds, Exec.run expf tanhf cmds (fst r) = fst r) /\
  Exec.exec_init (fst r) = (fst r, 0%Z) /\
  Exec.exec_init (Exec.exec_cleanup (fst r)) =
    (Exec.mkState true true [] 100 [] 500 F32.zero, 0%Z).
Proof.
  intros I R. cbv zeta.
  set (down := Exec.mkState true false (Exec.g_neurons st)
                 (Exec.g_neuron_capacity st) (Exec.g_synapses st)
                 (Exec.g_synapse_capacity st) (Exec.g_simulation_time st)).
  assert (Exec.exec_command expf tanhf Exec.CMD_SHUTDOWN None st =
          (down, Exec.ok)) as Hr.
  { unfold Exec.exec_command. rewrite I, R. reflexivity. }
  rewrite Hr. cbn [fst snd].
  assert (forall type params,
            Exec.exec_command expf tanhf type params down =
            (down, Exec.failed)) as Dead.
  { intros type params. reflexivity. }
  split; [reflexivity|]. split; [reflexivity|]. split; [reflexivity|].
  split; [reflexivity|]. split; [exact Dead|]. split.
  - induction cmds as [ | c cmds IH]; [reflexivity|].
    unfold Exec.run in *. cbn [fold_left]. rewrite Dead. exact IH.
  - split; reflexivity.
Qed.

(** X8.  [CMD_CREATE_SYNAPSE] on a running executor returns status 0
    exactly when the synapse id is not live and both endpoint ids are live;
    otherwise it returns status -1 and changes nothing.  On success one
    synapse with the given id and endpoints is appended, never yet active
    and static, and the neuron array is left as it was: the source neuron's
    connection list is not extended. *)
Theorem create_synapse_needs_live_endpoints (st : Exec.state)
    (p : Exec.command_params_t) :
  Exec.g_initialized st = true -> Exec.g_running st = true ->
  let r := Exec.exec_command expf tanhf Exec.CMD_CREATE_SYNAPSE (Some p) st in
  (Exec.status (snd r) = 0%Z <->
   ~ In (Exec.synapse_id p) (Exec.synapse_ids st) /\
   In (Exec.neuron_id p) (Exec.neuron_ids st) /\
   In (Exec.target_id p) (Exec.neuron_ids st)) /\
  (Exec.status (snd r) <> 0%Z -> r = (st, Exec.failed)) /\
  (Exec.status (snd r) = 0%Z ->
   Exec.id (snd r) = Exec.synapse_id p /\
   Exec.g_neurons (fst r) = Exec.g_neurons st /\
   exists s : Synapse,
     Exec.g_synapses (fst r) = Exec.g_synapses st ++ [s] /\
     s_id s = Exec.synapse_id p /\
     pre_neuron_id s = Exec.neuron_id p /\
     post_neuron_id s = Exec.target_id p /\
     last_active s = F32.of_Z (-1000) /\ plasticity s = STATIC).
Proof.
  intros I R. cbv zeta. unfold Exec.synapse_ids, Exec.neuron_ids.
  unfold Exec.exec_command. rewrite I, R. cbn [negb].
  destruct (find_synapse (Exec.g_synapses st) (Exec.synapse_id p)) eqn:FS.
  { cbn [fst snd Exec.status Exec.failed]. split.
    - split; [discriminate|]. intros (N & _).
      apply find_synapse_none in N. congruence.
    - split; [reflexivity | discriminate]. }
  apply find_synapse_none in FS.
  destruct (find_neuron (Exec.g_neurons st) (Exec.neuron_id p)) eqn:F1.
  2:{ cbn [fst snd Exec.status Exec.failed]. split.
      - split; [discriminate|]. intros (_ & N & _). exfalso.
        apply find_neuron_none in F1. contradiction.
      - split; [reflexivity | discriminate]. }
  destruct (find_neuron (Exec.g_neurons st) (Exec.target_id p)) eqn:F2.
  2:{ cbn [fst snd Exec.status Exec.failed]. split.
      - split; [discriminate|]. intros (_ & _ & N). exfalso.
        apply find_neuron_none in F2. contradiction.
      - split; [reflexivity | discriminate]. }
  cbn [fst snd Exec.status Exec.id Exec.g_neurons Exec.g_synapses].
  assert (In (Exec.neuron_id p) (map n_id (Exec.g_neurons st))) as L1.
  { destruct (in_dec Z.eq_dec (Exec.neuron_id p)
                (map n_id (Exec.g_neurons st))) as [H | H]; [exact H|].
    apply find_neuron_none in H. congruence. }
  assert (In (Exec.target_id p) (map n_id (Exec.g_neurons st))) as L2.
  { destruct (in_dec Z.eq_dec (Exec.target_id p)
                (map n_id (Exec.g_neurons st))) as [H | H]; [exact H|].
    apply find_neuron_none in H. congruence. }
  split; [split; [intros _; repeat split; assumption | reflexivity]|].
  split; [intros H; exfalso; apply H; reflexivity|].
  intros _. split; [reflexivity|]. split; [reflexivity|].
  eexists. split; [reflexivity|].
  destruct (synapse_overrides_ids p
              (synapse_create (Exec.synapse_id p) (Exec.neuron_id p)
                 (Exec.target_id p)
                 (SynapseType_of_u32 (Exec.synapse_type p))))
    as (E1 & E2 & E3 & E4 & E5).
  rewrite E1, E2, E3, E4, E5. repeat split.
Qed.

(** X9.  [CMD_CONNECT_NEURONS] on a running executor returns status 0
    exactly when both ids are live, and otherwise status -1 with nothing
    changed.  On success the target id is among the connections of the
    source neuron, the ids and the synapses are as before (no synapse is
    created), and the same command sent again returns status 0 and changes
    nothing. *)
Theorem connect_neurons_command (st : Exec.state)
    (p : Exec.command_params_t) :
  Exec.g_initialized st = true -> Exec.g_running st = true ->
  let r := Exec.exec_command expf tanhf Exec.CMD_CONNECT_NEURONS (Some p) st in
  (Exec.status (snd r) = 0%Z <->
   In (Exec.neuron_id p) (Exec.neuron_ids st) /\
   In (Exec.target_id p) (Exec.neuron_ids st)) /\
  (Exec.status (snd r) <> 0%Z -> r = (st, Exec.failed)) /\
  (Exec.status (snd r) = 0%Z ->
   Exec.neuron_ids (fst r) = Exec.neuron_ids st /\
   Exec.g_synapses (fst r) = Exec.g_synapses st /\
   (exists (i : nat) (source : Neuron),
      find_neuron (Exec.g_neurons st) (Exec.neuron_id p) = Some i /\
      nth_error (Exec.g_neurons (fst r)) i = Some source /\
      n_id source = Exec.neuron_id p /\
      In (Exec.target_id p) (connected_neurons source)) /\
   Exec.exec_command expf tanhf Exec.CMD_CONNECT_NEURONS (Some p) (fst r) =
     (fst r, Exec.ok)).
Proof.
  intros I R. cbv zeta. unfold Exec.neuron_ids.
  destruct (find_neuron (Exec.g_neurons st) (Exec.neuron_id p)) as [i | ]
    eqn:F1.
  2:{ assert (Exec.exec_command expf tanhf Exec.CMD_CONNECT_NEURONS (Some p) st
              = (st, Exec.failed)) as Hr.
      { unfold Exec.exec_command. rewrite I, R, F1. reflexivity. }
      rewrite Hr. cbn [fst snd Exec.status Exec.failed]. split.
      - split; [discriminate|]. intros (N & _). exfalso.
        apply find_neuron_none in F1. contradiction.
      - split; [reflexivity | discriminate]. }
  destruct (find_neuron (Exec.g_neurons st) (Exec.target_id p)) as [k | ]
    eqn:F2.
  2:{ assert (Exec.exec_command expf tanhf Exec.CMD_CONNECT_NEURONS (Some p) st
              = (st, Exec.failed)) as Hr.
      { unfold Exec.exec_command. rewrite I, R, F1, F2. reflexivity. }
      rewrite Hr. cbn [fst snd Exec.status Exec.failed]. split.
      - split; [discriminate|]. intros (_ & N). exfalso.
        apply find_neuron_none in F2. contradiction.
      - split; [reflexivity | discriminate]. }
  destruct (find_neuron_nth _ _ _ F1) as (source & N1 & Id1).
  destruct (find_neuron_nth _ _ _ F2) as (target & N2 & Id2).
  set (neurons1 :=
         update_at i (fun source => neuron_connect source target)
           (Exec.g_neurons st)).
  set (st1 := Exec.set_arrays (neurons1, Exec.g_synapses st) st).
  assert (Exec.exec_command expf tanhf Exec.CMD_CONNECT_NEURONS (Some p) st
          = (st1, Exec.ok)) as Hr.
  { unfold Exec.exec_command. rewrite I, R, F1, F2, N2. reflexivity. }
  rewrite Hr. cbn [fst snd Exec.status Exec.ok].
  assert (map n_id neurons1 = map n_id (Exec.g_neurons st)) as M.
  { apply map_update_at. intros x. apply neuron_connect_id. }
  assert (In (Exec.neuron_id p) (map n_id (Exec.g_neurons st))) as L1.
  { apply nth_error_In with (n := i). rewrite nth_error_map, N1. simpl.
    congruence. }
  assert (In (Exec.target_id p) (map n_id (Exec.g_neurons st))) as L2.
  { apply nth_error_In with (n := k). rewrite nth_error_map, N2. simpl.
    congruence. }
  assert (nth_error neurons1 i = Some (neuron_connect source target)) as N1'.
  { unfold neurons1. rewrite nth_error_update_at_same, N1. reflexivity. }
  split; [split; [intros _; split; assumption | reflexivity]|].
  split; [intros H; exfalso; apply H; reflexivity|].
  intros _. split; [exact M|]. split; [reflexivity|]. split.
  { exists i, (neuron_connect source target).
    split; [reflexivity|]. split; [exact N1'|].
    split; [rewrite neuron_connect_id; exact Id1|].
    rewrite <- Id2. apply neuron_connect_In. }
  assert (find_neuron (Exec.g_neurons st1) (Exec.neuron_id p) = Some i) as G1.
  { simpl. rewrite find_neuron_connection_index, M,
      <- find_neuron_connection_index. exact F1. }
  assert (find_neuron (Exec.g_neurons st1) (Exec.target_id p) = Some k) as G2.
  { simpl. rewrite find_neuron_connection_index, M,
      <- find_neuron_connection_index. exact F2. }
  destruct (find_neuron_nth _ _ _ G2) as (target' & N2' & Id2').
  assert (Exec.g_initialized st1 = true) as I1 by exact I.
  assert (Exec.g_running st1 = true) as R1 by exact R.
  unfold Exec.exec_command. rewrite I1, R1, G1, G2, N2'. cbn [negb].
  f_equal. unfold Exec.set_arrays. cbn [fst snd].
  assert (update_at i (fun source0 => neuron_connect source0 target')
            (Exec.g_neurons st1) = Exec.g_neurons st1) as Fix.
  { apply (update_at_fixed _ i _ _ (neuron_connect source target) N1').
    apply neuron_connect_again. congruence. }
  rewrite Fix. reflexivity.
Qed.

End ExecLookup.

(** X6 applied to the creation of the neurons 7 and 3, in that order. *)
Lemma created_neurons_are_found_witness :
  NoDup (map Exec.neuron_id [Exec.link_params 7 0 0; Exec.link_params 3 0 0]) /\
  find_neuron
    (Exec.g_neurons
       (Exec.run (fun x => x) (fun x => x)
          (Exec.creations [Exec.link_params 7 0 0; Exec.link_params 3 0 0])
          (fst (Exec.exec_init Exec.start))))
    (Exec.neuron_id (Exec.link_params 3 0 0)) = Some 1%nat.
Proof.
  assert (NoDup (map Exec.neuron_id
                   [Exec.link_params 7 0 0; Exec.link_params 3 0 0])) as D.
  { repeat constructor; simpl; intuition discriminate. }
  split; [exact D|].
  destruct (created_neurons_are_found (fun x => x) (fun x => x)
              [Exec.link_params 7 0 0; Exec.link_params 3 0 0] D)
    as (_ & Found & _).
  destruct (Found 1%nat (Exec.link_params 3 0 0) eq_refl) as (F & _).
  exact F.
Defined.

(** X7 applied to the two-neuron graph. *)
Lemma shutdown_is_final_witness :
  Exec.g_initialized Exec.two_neurons = true /\
  Exec.g_running Exec.two_neurons = true /\
  Exec.run (fun x => x) (fun x => x)
    [(Exec.CMD_SHUTDOWN, None);
     (Exec.CMD_CREATE_NEURON, Some (Exec.link_params 3 0 0))]
    Exec.two_neurons =
  fst (Exec.exec_command (fun x => x) (fun x => x) Exec.CMD_SHUTDOWN None
         Exec.two_neurons).
Proof.
  split; [reflexivity|]. split; [reflexivity|].
  destruct (shutdown_is_final (fun x => x) (fun x => x) Exec.two_neurons
              eq_refl eq_refl) as (_ & _ & _ & _ & _ & Run & _).
  exact (Run [(Exec.CMD_CREATE_NEURON, Some (Exec.link_params 3 0 0))]).
Defined.

(** X8 applied to the two-neuron graph: a second synapse, from 2 to 1, is
    accepted. *)
Lemma create_synapse_needs_live_endpoints_witness :
  Exec.g_initialized Exec.two_neurons = true /\
  Exec.g_running Exec.two_neurons = true /\
  Exec.status
    (snd (Exec.exec_command (fun x => x) (fun x => x) Exec.CMD_CREATE_SYNAPSE
            (Some (Exec.link_params 2 1 2)) Exec.two_neurons)) = 0%Z.
Proof.
  split; [reflexivity|]. split; [reflexivity|].
  destruct (create_synapse_needs_live_endpoints (fun x => x) (fun x => x)
              Exec.two_neurons (Exec.link_params 2 1 2) eq_refl eq_refl)
    as (Iff & _).
  apply Iff. split; [|split].
  - simpl. intuition discriminate.
  - right. left. reflexivity.
  - left. reflexivity.
Defined.

(** X9 applied to the two-neuron graph: connecting 2 to 1. *)
Lemma connect_neurons_command_witness :
  Exec.g_initialized Exec.two_neurons = true /\
  Exec.g_running Exec.two_neurons = true /\
  Exec.status
    (snd (Exec.exec_command (fun x => x) (fun x => x) Exec.CMD_CONNECT_NEURONS
            (Some (Exec.link_params 2 1 0)) Exec.two_neurons)) = 0%Z.
Proof.
  split; [reflexivity|]. split; [reflexivity|].
  destruct (connect_neurons_command (fun x => x) (fun x => x)
              Exec.two_neurons (Exec.link_params 2 1 0) eq_refl eq_refl)
    as (Iff & _).
  apply Iff. split.
  - right. left. reflexivity.
  - left. reflexivity.
Defined.

(** ** Running and resetting the simulation *)

Section ExecRun.

Variables expf tanhf : f32 -> f32.

(** [CMD_RUN_SIMULATION] on any state and with any parameters keeps what a
    reset keeps, the flags and the capacities. *)
Lemma run_simulation_reset (params : option Exec.command_params_t)
    (st : Exec.state) :
  let st' :=
    fst (Exec.exec_command expf tanhf Exec.CMD_RUN_SIMULATION params st) in
  map neuron_reset (Exec.g_neurons st') = map neuron_reset (Exec.g_neurons st) /\
  map synapse_reset (Exec.g_synapses st')
  = map synapse_reset (Exec.g_synapses st) /\
  Exec.g_initialized st' = Exec.g_initialized st /\
  Exec.g_running st' = Exec.g_running st /\
  Exec.g_neuron_capacity st' = Exec.g_neuron_capacity st /\
  Exec.g_synapse_capacity st' = Exec.g_synapse_capacity st.
Proof.
  cbv zeta. unfold Exec.exec_command.
  destruct (negb (Exec.g_initialized st)); [repeat split|].
  destruct (negb (Exec.g_running st)); [repeat split|].
  destruct params as [p | ]; [|repeat split].
  cbv zeta. cbn [fst]. apply simulation_steps_reset.
Qed.

(** X10.  [CMD_RUN_SIMULATION] changes potentials, last-fired and
    last-active times and the clock, and nothing else: whatever the state
    and the parameters, both arrays keep their lengths, every neuron keeps
    its id, type, activation, threshold, rest potential, refractory period
    and connections, and every synapse keeps its id, endpoints, type,
    plasticity, weight, delay and weight bounds.  The simulation never
    applies a plasticity rule. *)
Theorem run_simulation_keeps_structure
    (params : option Exec.command_params_t) (st : Exec.state) :
  let st' :=
    fst (Exec.exec_command expf tanhf Exec.CMD_RUN_SIMULATION params st) in
  length (Exec.g_neurons st') = length (Exec.g_neurons st) /\
  length (Exec.g_synapses st') = length (Exec.g_synapses st) /\
  (forall (i : nat) (n : Neuron),
     nth_error (Exec.g_neurons st) i = Some n ->
     exists n' : Neuron,
       nth_error (Exec.g_neurons st') i = Some n' /\
       n_id n' = n_id n /\ n_type n' = n_type n /\
       n_activation n' = n_activation n /\ threshold n' = threshold n /\
       rest_potential n' = rest_potential n /\
       refractory_period n' = refractory_period n /\
       connected_neurons n' = connected_neurons n) /\
  (forall (j : nat) (s : Synapse),
     nth_error (Exec.g_synapses st) j = Some s ->
     exists s' : Synapse,
       nth_error (Exec.g_synapses st') j = Some s' /\
       s_id s' = s_id s /\ pre_neuron_id s' = pre_neuron_id s /\
       post_neuron_id s' = post_neuron_id s /\ s_type s' = s_type s /\
       plasticity s' = plasticity s /\ weight s' = weight s /\
       delay s' = delay s /\ max_weight s' = max_weight s /\
       min_weight s' = min_weight s).
Proof.
  cbv zeta. destruct (run_simulation_reset params st) as (N & S & _).
  cbv zeta in N, S.
  split; [rewrite <- (length_map neuron_reset), N, length_map; reflexivity|].
  split; [rewrite <- (length_map synapse_reset), S, length_map; reflexivity|].
  split.
  - intros i n H. symmetry in N.
    destruct (map_eq_nth _ _ neuron_reset _ _ i n N H) as (n' & H' & E).
    exists n'. split; [exact H'|]. symmetry in E.
    apply neuron_reset_fields in E. exact E.
  - intros j s H. symmetry in S.
    destruct (map_eq_nth _ _ synapse_reset _ _ j s S H) as (s' & H' & E).
    exists s'. split; [exact H'|]. symmetry in E.
    apply synapse_reset_fields in E. exact E.
Qed.

(** X11.  [CMD_RESET_SIMULATION] erases what a simulation did: on a running
    executor, a reset after [CMD_RUN_SIMULATION] leaves the state a reset
    alone would have left, with the same result.  After a reset the clock is
    0, every neuron is at its rest potential with [last_fired] -1000, every
    synapse has [last_active] -1000, and a second reset changes nothing. *)
Theorem reset_erases_run (params : option Exec.command_params_t)
    (st : Exec.state) :
  Exec.g_initialized st = true -> Exec.g_running st = true ->
  let reset := Exec.exec_command expf tanhf Exec.CMD_RESET_SIMULATION None in
  let ran :=
    fst (Exec.exec_command expf tanhf Exec.CMD_RUN_SIMULATION params st) in
  reset ran = reset st /\
  Exec.status (snd (reset st)) = 0%Z /\
  Exec.g_simulation_time (fst (reset st)) = F32.zero /\
  Forall (fun n => potential n = rest_potential n /\
                   last_fired n = F32.of_Z (-1000))
    (Exec.g_neurons (fst (reset st))) /\
  Forall (fun s => last_active s = F32.of_Z (-1000))
    (Exec.g_synapses (fst (reset st))) /\
  reset (fst (reset st)) = reset st.
Proof.
  intros I R. cbv zeta.
  destruct (run_simulation_reset params st) as (N & S & I' & R' & C1 & C2).
  cbv zeta in N, S, I', R', C1, C2.
  set (ran := fst (Exec.exec_command expf tanhf Exec.CMD_RUN_SIMULATION
                     params st)) in *.
  assert (forall st0, Exec.g_initialized st0 = true ->
            Exec.g_running st0 = true ->
            Exec.exec_command expf tanhf Exec.CMD_RESET_SIMULATION None st0 =
            (Exec.mkState true true (map neuron_reset (Exec.g_neurons st0))
               (Exec.g_neuron_capacity st0)
               (map synapse_reset (Exec.g_synapses st0))
               (Exec.g_synapse_capacity st0) F32.zero, Exec.ok)) as Reset.
  { intros st0 I0 R0. unfold Exec.exec_command. rewrite I0, R0. reflexivity. }
  rewrite (Reset ran) by congruence. rewrite (Reset st I R).
  rewrite N, S, C1, C2. cbn [fst snd].
  split; [reflexivity|]. split; [reflexivity|]. split; [reflexivity|].
  split; [apply Forall_map, Forall_forall; intros n _; split; reflexivity|].
  split; [apply Forall_map, Forall_forall; intros s _; reflexivity|].
  rewrite Reset by reflexivity. cbn [Exec.g_neurons Exec.g_synapses
    Exec.g_neuron_capacity Exec.g_synapse_capacity].
  rewrite !map_map. reflexivity.
Qed.

Lemma iter_simulation_time (dt : f32) (k : nat) (st : Exec.state) :
  Exec.g_simulation_time
    (Nat.iter k (Exec.simulation_step expf tanhf dt) st) =
  Nat.iter k (fun t => F32.add t dt) (Exec.g_simulation_time st).
Proof.
  induction k as [ | k IH]; [reflexivity|].
  change (Nat.iter (S k) (Exec.simulation_step expf tanhf dt) st)
    with (Exec.simulation_step expf tanhf dt
            (Nat.iter k (Exec.simulation_step expf tanhf dt) st)).
  destruct (simulation_step_reset expf tanhf dt
              (Nat.iter k (Exec.simulation_step expf tanhf dt) st))
    as (_ & _ & _ & _ & _ & _ & T). cbv zeta in T.
  rewrite T, IH. reflexivity.
Qed.

(** X12.  [CMD_RUN_SIMULATION] runs [num_steps] passes, one pass when
    [num_steps] is 0, with the time step 1.0 when [time_step] is not above 0
    (a NaN included); it returns the clock, which is the old clock with the
    time step added once per pass, each addition rounded.  Two runs with
    the same time step, one after the other, leave the state of a single
    run with the sum of their step counts. *)
Theorem run_simulation_steps_add (st : Exec.state)
    (p q pq : Exec.command_params_t) :
  Exec.g_initialized st = true -> Exec.g_running st = true ->
  Exec.time_step q = Exec.time_step p ->
  Exec.time_step pq = Exec.time_step p ->
  (0 < Exec.num_steps p)%Z -> (0 < Exec.num_steps q)%Z ->
  Exec.num_steps pq = (Exec.num_steps p + Exec.num_steps q)%Z ->
  let run p st :=
    Exec.exec_command expf tanhf Exec.CMD_RUN_SIMULATION (Some p) st in
  let dt :=
    if F32.gtb (Exec.time_step p) F32.zero
    then Exec.time_step p else F32.one in
  fst (run q (fst (run p st))) = fst (run pq st) /\
  snd (run p st) =
    Exec.mkResult 0 0
      (Nat.iter (Z.to_nat (Exec.num_steps p)) (fun t => F32.add t dt)
         (Exec.g_simulation_time st)) /\
  Exec.g_simulation_time (fst (run p st)) = Exec.value (snd (run p st)) /\
  (forall p0 : Exec.command_params_t,
     (Exec.num_steps p0 <= 0)%Z ->
     run p0 st =
     run (Exec.step_params (Exec.time_step p0) 1) st) /\
  (forall p0 : Exec.command_params_t,
     F32.gtb (Exec.time_step p0) F32.zero = false ->
     run p0 st = run (Exec.step_params F32.one (Exec.num_steps p0)) st).
Proof.
  intros I R Tq Tpq Np Nq Sum. cbv zeta.
  assert (forall (p0 : Exec.command_params_t) (st0 : Exec.state),
            Exec.g_initialized st0 = true -> Exec.g_running st0 = true ->
            Exec.exec_command expf tanhf Exec.CMD_RUN_SIMULATION (Some p0) st0
            = (let dt := if F32.gtb (Exec.time_step p0) F32.zero
                         then Exec.time_step p0 else F32.one in
               let steps := if (Exec.num_steps p0 >? 0)%Z
                            then Exec.num_steps p0 else 1%Z in
               let st' := Nat.iter (Z.to_nat steps)
                            (Exec.simulation_step expf tanhf dt) st0 in
               (st', Exec.mkResult 0 0 (Exec.g_simulation_time st'))))
    as Run.
  { intros p0 st0 I0 R0. unfold Exec.exec_command. rewrite I0, R0.
    reflexivity. }
  cbv zeta in Run.
  assert (forall n : Z, (0 < n)%Z -> (n >? 0)%Z = true) as Pos.
  { intros n H. apply Z.gtb_lt. lia. }
  split; [|split; [|split; [|split]]].
  - rewrite (Run p st I R), (Run pq st I R). cbn [fst].
    rewrite (Pos _ Np), Tpq, Sum, (Pos (Exec.num_steps p + Exec.num_steps q)%Z)
      by lia.
    set (dt := if F32.gtb (Exec.time_step p) F32.zero
               then Exec.time_step p else F32.one).
    destruct (simulation_steps_reset expf tanhf dt
                (Z.to_nat (Exec.num_steps p)) st) as (_ & _ & I' & R' & _).
    cbv zeta in I', R'.
    rewrite Run by congruence. cbn [fst].
    rewrite (Pos _ Nq), Tq. fold dt.
    rewrite Z2Nat.inj_add by lia.
    rewrite (Nat.add_comm (Z.to_nat (Exec.num_steps p))).
    rewrite Nat.iter_add. reflexivity.
  - rewrite (Run p st I R). cbn [snd]. rewrite (Pos _ Np).
    rewrite iter_simulation_time. reflexivity.
  - rewrite (Run p st I R). reflexivity.
  - intros p0 H. rewrite !(Run _ st I R).
    assert ((Exec.num_steps p0 >? 0)%Z = false) as E.
    { destruct (Z.gtb_spec (Exec.num_steps p0) 0); [lia | reflexivity]. }
    rewrite E. reflexivity.
  - intros p0 H. rewrite !(Run _ st I R). rewrite H. reflexivity.
Qed.

End ExecRun.

(** X11 applied to the two-neuron graph and a run of three steps. *)
Lemma reset_erases_run_witness :
  Exec.g_initialized Exec.two_neurons = true /\
  Exec.g_running Exec.two_neurons = true /\
  Exec.exec_command (fun x => x) (fun x => x) Exec.CMD_RESET_SIMULATION None
    (fst (Exec.exec_command (fun x => x) (fun x => x) Exec.CMD_RUN_SIMULATION
            (Some (Exec.step_params F32.one 3)) Exec.two_neurons)) =
  Exec.exec_command (fun x => x) (fun x => x) Exec.CMD_RESET_SIMULATION None
    Exec.two_neurons.
Proof.
  split; [reflexivity|]. split; [reflexivity|].
  destruct (reset_erases_run (fun x => x) (fun x => x)
              (Some (Exec.step_params F32.one 3)) Exec.two_neurons
              eq_refl eq_refl) as (E & _).
  exact E.
Defined.

(** X12 applied to the two-neuron graph: two steps, then three, against
    five. *)
Lemma run_simulation_steps_add_witness :
  Exec.g_initialized Exec.two_neurons = true /\
  Exec.g_running Exec.two_neurons = true /\
  (0 < Exec.num_steps (Exec.step_params F32.one 2))%Z /\
  (0 < Exec.num_steps (Exec.step_params F32.one 3))%Z /\
  fst (Exec.exec_command (fun x => x) (fun x => x) Exec.CMD_RUN_SIMULATION
         (Some (Exec.step_params F32.one 3))
         (fst (Exec.exec_command (fun x => x) (fun x => x)
                 Exec.CMD_RUN_SIMULATION
                 (Some (Exec.step_params F32.one 2)) Exec.two_neurons))) =
  fst (Exec.exec_command (fun x => x) (fun x => x) Exec.CMD_RUN_SIMULATION
         (Some (Exec.step_params F32.one 5)) Exec.two_neurons).
Proof.
  assert (0 < Exec.num_steps (Exec.step_params F32.one 2))%Z as N2
    by (simpl; lia).
  assert (0 < Exec.num_steps (Exec.step_params F32.one 3))%Z as N3
    by (simpl; lia).
  split; [reflexivity|]. split; [reflexivity|]. split; [exact N2|].
  split; [exact N3|].
  destruct (run_simulation_steps_add (fun x => x) (fun x => x)
              Exec.two_neurons (Exec.step_params F32.one 2)
              (Exec.step_params F32.one 3) (Exec.step_params F32.one 5)
              eq_refl eq_refl eq_refl eq_refl N2 N3 eq_refl) as (E & _).
  exact E.
Defined.

(** ** The two copies of the scheduler loop *)

Lemma apply_inputs_nil (neurons : list Neuron) :
  Bridge.apply_inputs neurons [] = neurons.
Proof. destruct neurons; reflexivity. Qed.

Lemma apply_inputs_reset (neurons : list Neuron) :
  forall inputs : list f32,
    map neuron_reset (Bridge.apply_inputs neurons inputs)
    = map neuron_reset neurons.
Proof.
  induction neurons as [ | n neurons IH]; intros [ | x inputs]; simpl;
    try reflexivity.
  rewrite IH. reflexivity.
Qed.

Section TwoLoops.

Variables expf tanhf : f32 -> f32.

(** The arrays the loop of the bridge leaves are those the loop of the
    executor leaves; the bridge also collects the outputs. *)
Lemma fold_outputs_fst (time_step now : f32) (indices : list nat) :
  forall (arrays : list Neuron * list Synapse) (outputs : list f32),
    fst (fold_left
           (fun (acc : list Neuron * list Synapse * list f32) (i : nat) =>
              let '(arrays, outputs) := acc in
              let '(arrays', out) :=
                process_neuron expf tanhf time_step now arrays i in
              (arrays',
               outputs ++ match out with Some o => [o] | None => [] end))
           indices (arrays, outputs)) =
    fold_left
      (fun arrays i => fst (process_neuron expf tanhf time_step now arrays i))
      indices arrays.
Proof.
  induction indices as [ | i indices IH]; intros arrays outputs; simpl;
    [reflexivity|].
  destruct (process_neuron expf tanhf time_step now arrays i) as [arrays' out].
  apply IH.
Qed.

Lemma bridge_step_arrays (inputs : list f32) (timeStep : f32)
    (junk : list f32) (st : Bridge.state) :
  Bridge.g_initialized st = true -> Bridge.g_neurons st <> [] ->
  let r := Bridge.runSimulationStep expf tanhf inputs timeStep junk st in
  let now := F32.add (Bridge.g_simulation_time st) timeStep in
  (Bridge.g_neurons (fst r), Bridge.g_synapses (fst r)) =
  fold_left
    (fun arrays i => fst (process_neuron expf tanhf timeStep now arrays i))
    (seq 0 (length (Bridge.g_neurons st)))
    (Bridge.apply_inputs (Bridge.g_neurons st) inputs, Bridge.g_synapses st) /\
  Bridge.g_simulation_time (fst r) = now /\
  exists outputs : list f32,
    snd r = Some outputs /\ length outputs = length (Bridge.g_neurons st).
Proof.
  intros I N. cbv zeta.
  destruct (runSimulationStep_outcome expf tanhf inputs timeStep junk st I)
    as (T & _ & _ & O). cbv zeta in T, O.
  destruct (O N) as (outputs & S & L & E).
  split; [|split; [exact T | exists outputs; split; assumption]].
  rewrite <- (apply_inputs_length (Bridge.g_neurons st) inputs).
  unfold Bridge.outputs_in_order in E.
  rewrite <- (fold_outputs_fst timeStep
                (F32.add (Bridge.g_simulation_time st) timeStep)
                (seq 0 (length (Bridge.apply_inputs (Bridge.g_neurons st)
                                  inputs)))
                (Bridge.apply_inputs (Bridge.g_neurons st) inputs,
                 Bridge.g_synapses st) []).
  cbn [fst] in E. rewrite <- E. reflexivity.
Qed.

(** X13.  The bridge and the executor run the same scheduler: on the same
    arrays and clock, with at least one neuron, a step of the bridge without
    inputs leaves the arrays and the clock that [CMD_RUN_SIMULATION] with
    [num_steps = 1] and the same positive time step leaves, and the clock
    is the value the command returns. *)
Theorem bridge_step_is_executor_step (b : Bridge.state) (e : Exec.state)
    (p : Exec.command_params_t) (junk : list f32) :
  Bridge.g_initialized b = true ->
  Exec.g_initialized e = true -> Exec.g_running e = true ->
  Bridge.g_neurons b = Exec.g_neurons e ->
  Bridge.g_synapses b = Exec.g_synapses e ->
  Bridge.g_simulation_time b = Exec.g_simulation_time e ->
  Exec.g_neurons e <> [] ->
  F32.gtb (Exec.time_step p) F32.zero = true -> Exec.num_steps p = 1%Z ->
  let rb :=
    Bridge.runSimulationStep expf tanhf [] (Exec.time_step p) junk b in
  let re := Exec.exec_command expf tanhf Exec.CMD_RUN_SIMULATION (Some p) e in
  Bridge.g_neurons (fst rb) = Exec.g_neurons (fst re) /\
  Bridge.g_synapses (fst rb) = Exec.g_synapses (fst re) /\
  Bridge.g_simulation_time (fst rb) = Exec.g_simulation_time (fst re) /\
  Exec.value (snd re) = Bridge.g_simulation_time (fst rb) /\
  Exec.status (snd re) = 0%Z /\
  exists outputs : list f32,
    snd rb = Some outputs /\ length outputs = length (Exec.g_neurons e).
Proof.
  intros Ib Ie Re N S T NE Dt One. cbv zeta.
  assert (Bridge.g_neurons b <> []) as NB by congruence.
  destruct (bridge_step_arrays [] (Exec.time_step p) junk b Ib NB)
    as (A & Tb & outputs & O & L). cbv zeta in A, Tb.
  rewrite apply_inputs_nil in A.
  assert (Exec.exec_command expf tanhf Exec.CMD_RUN_SIMULATION (Some p) e =
          (Exec.simulation_step expf tanhf (Exec.time_step p) e,
           Exec.mkResult 0 0
             (Exec.g_simulation_time
                (Exec.simulation_step expf tanhf (Exec.time_step p) e))))
    as Hr.
  { unfold Exec.exec_command. rewrite Ie, Re, Dt, One. reflexivity. }
  rewrite Hr. cbn [fst snd Exec.value Exec.status].
  unfold Exec.simulation_step.
  cbn [Exec.set_arrays Exec.set_simulation_time Exec.g_neurons
         Exec.g_synapses Exec.g_simulation_time fst snd].
  rewrite <- N, <- S, <- T, <- A, Tb. cbn [fst snd].
  repeat split. exists outputs. split; [exact O | congruence].
Qed.

End TwoLoops.

(** X13 applied to the two-neuron graphs of the bridge and of the
    executor. *)
Lemma bridge_step_is_executor_step_witness :
  Bridge.g_neurons Bridge.two_neurons = Exec.g_neurons Exec.two_neurons /\
  Bridge.g_synapses Bridge.two_neurons = Exec.g_synapses Exec.two_neurons /\
  Exec.g_neurons Exec.two_neurons <> [] /\
  F32.gtb (Exec.time_step (Exec.step_params F32.one 1)) F32.zero = true /\
  Bridge.g_neurons
    (fst (Bridge.runSimulationStep (fun x => x) (fun x => x) []
            (Exec.time_step (Exec.step_params F32.one 1)) []
            Bridge.two_neurons)) =
  Exec.g_neurons
    (fst (Exec.exec_command (fun x => x) (fun x => x) Exec.CMD_RUN_SIMULATION
            (Some (Exec.step_params F32.one 1)) Exec.two_neurons)).
Proof.
  assert (Exec.g_neurons Exec.two_neurons <> []) as NE by discriminate.
  split; [reflexivity|]. split; [reflexivity|]. split; [exact NE|].
  split; [reflexivity|].
  destruct (bridge_step_is_executor_step (fun x => x) (fun x => x)
              Bridge.two_neurons Exec.two_neurons
              (Exec.step_params F32.one 1) []
              eq_refl eq_refl eq_refl eq_refl eq_refl eq_refl NE
              eq_refl eq_refl) as (E & _).
  exact E.
Defined.

(** ** Synapses the propagation never reaches *)

(** [wired] looks at ids and connection lists only. *)
Lemma wired_of_reset (neurons : list Neuron) (s : Synapse) :
  wired neurons s = wired (map neuron_reset neurons) s.
Proof.
  unfold wired. f_equal; induction neurons as [ | n neurons IH]; simpl;
    try reflexivity; rewrite IH; reflexivity.
Qed.

Lemma wired_reset_frame (neurons neurons' : list Neuron) (s : Synapse) :
  map neuron_reset neurons' = map neuron_reset neurons ->
  wired neurons' s = wired neurons s.
Proof.
  intros M. rewrite (wired_of_reset neurons'), M, <- wired_of_reset.
  reflexivity.
Qed.

Lemma wired_intro (neurons : list Neuron) (s : Synapse) (n : Neuron) :
  In n (map neuron_reset neurons) ->
  n_id n = pre_neuron_id s ->
  In (post_neuron_id s) (connected_neurons n) ->
  In (post_neuron_id s) (map n_id neurons) ->
  wired neurons s = true.
Proof.
  intros I E C L. rewrite wired_of_reset. unfold wired.
  apply andb_true_iff. split; apply existsb_exists.
  - exists n. split; [exact I|]. apply andb_true_iff.
    split; [apply Z.eqb_eq; exact E | apply connection_exists_In; exact C].
  - rewrite ids_of_reset in L. apply in_map_iff in L.
    destruct L as (m & Em & Im). exists m. split; [exact Im|].
    apply Z.eqb_eq. exact Em.
Qed.

Lemma propagate_to_unwired (n : Neuron) (now : f32)
    (arrays : list Neuron * list Synapse) (target_id : Z) (j : nat)
    (s : Synapse) :
  In n (map neuron_reset (fst arrays)) ->
  In target_id (connected_neurons n) ->
  wired (fst arrays) s = false ->
  nth_error (snd arrays) j = Some s ->
  nth_error (snd (propagate_to (n_id n) now arrays target_id)) j = Some s.
Proof.
  destruct arrays as [ns ss]. cbn [fst snd]. intros I C W H.
  unfold propagate_to.
  destruct (find_neuron ns target_id) as [k | ] eqn:F; [|exact H].
  destruct (find_synapse_between ss (n_id n) target_id) as [[si syn] | ] eqn:G;
    [|exact H].
  destruct (synapse_activate syn F32.one now) as [syn' signal]. cbn [snd].
  destruct (find_synapse_between_some ss (n_id n) target_id si syn G)
    as (N & P1 & P2 & _).
  destruct (Nat.eq_dec si j) as [E | E].
  - exfalso. subst si. assert (syn = s) by congruence. subst syn.
    assert (wired ns s = true) as W'.
    { apply (wired_intro ns s n I); [congruence | rewrite P2; exact C |].
      rewrite P2.
      destruct (in_dec Z.eq_dec target_id (map n_id ns)) as [Y | Y];
        [exact Y|].
      apply find_neuron_none in Y. congruence. }
    congruence.
  - rewrite nth_error_update_at_other by exact E. exact H.
Qed.

Lemma propagate_unwired (n : Neuron) (now : f32) (j : nat) (s : Synapse)
    (targets : list Z) :
  forall arrays : list Neuron * list Synapse,
    In n (map neuron_reset (fst arrays)) ->
    incl targets (connected_neurons n) ->
    wired (fst arrays) s = false ->
    nth_error (snd arrays) j = Some s ->
    nth_error (snd (fold_left (propagate_to (n_id n) now) targets arrays)) j
    = Some s.
Proof.
  induction targets as [ | t targets IH]; intros arrays I C W H; simpl;
    [exact H|].
  destruct (propagate_to_reset (n_id n) now arrays t) as [M _].
  apply IH.
  - rewrite M. exact I.
  - intros x Hx. apply C. right. exact Hx.
  - rewrite (wired_reset_frame _ _ s M). exact W.
  - apply propagate_to_unwired; try assumption. apply C. left. reflexivity.
Qed.

Section Unwired.

Variables expf tanhf : f32 -> f32.

Lemma process_neuron_unwired (time_step now : f32)
    (arrays : list Neuron * list Synapse) (i j : nat) (s : Synapse) :
  wired (fst arrays) s = false ->
  nth_error (snd arrays) j = Some s ->
  nth_error (snd (fst (process_neuron expf tanhf time_step now arrays i))) j
  = Some s.
Proof.
  destruct arrays as [ns ss]. cbn [fst snd]. intros W H.
  unfold process_neuron.
  destruct (nth_error ns i) as [n | ] eqn:N; [|exact H].
  destruct (neuron_compute expf tanhf n F32.zero time_step) as [n1 out] eqn:C.
  destruct (neuron_fire n1 now) as [n2 fired] eqn:F.
  destruct fired; [|exact H]. cbn [fst].
  assert (neuron_reset n2 = neuron_reset n) as R.
  { replace n2 with (fst (neuron_fire n1 now)) by (rewrite F; reflexivity).
    rewrite neuron_reset_fire.
    replace n1 with (fst (neuron_compute expf tanhf n F32.zero time_step))
      by (rewrite C; reflexivity).
    reflexivity. }
  pose proof (map_update_at_const _ _ neuron_reset i n n2 ns N R) as U.
  change (n_id n2) with (n_id (neuron_reset n2)).
  change (connected_neurons n2) with (connected_neurons (neuron_reset n2)).
  apply propagate_unwired.
  - cbn [fst]. rewrite U, R. apply in_map. apply (nth_error_In _ _ N).
  - apply incl_refl.
  - cbn [fst]. rewrite (wired_reset_frame _ _ s U). exact W.
  - exact H.
Qed.

Lemma fold_process_unwired (time_step now : f32) (j : nat) (s : Synapse)
    (indices : list nat) :
  forall arrays : list Neuron * list Synapse,
    wired (fst arrays) s = false ->
    nth_error (snd arrays) j = Some s ->
    nth_error
      (snd (fold_left
              (fun arrays i =>
                 fst (process_neuron expf tanhf time_step now arrays i))
              indices arrays)) j
    = Some s.
Proof.
  induction indices as [ | i indices IH]; intros arrays W H; simpl;
    [exact H|].
  destruct (process_neuron_reset expf tanhf time_step now arrays i) as [M _].
  cbv zeta in M. apply IH.
  - rewrite (wired_reset_frame _ _ s M). exact W.
  - apply process_neuron_unwired; assumption.
Qed.

Lemma simulation_steps_unwired (dt : f32) (j : nat) (s : Synapse) (k : nat)
    (st : Exec.state) :
  wired (Exec.g_neurons st) s = false ->
  nth_error (Exec.g_synapses st) j = Some s ->
  nth_error
    (Exec.g_synapses (Nat.iter k (Exec.simulation_step expf tanhf dt) st)) j
  = Some s.
Proof.
  intros W H. induction k as [ | k IH]; [exact H|].
  change (Nat.iter (S k) (Exec.simulation_step expf tanhf dt) st)
    with (Exec.simulation_step expf tanhf dt
            (Nat.iter k (Exec.simulation_step expf tanhf dt) st)).
  destruct (simulation_steps_reset expf tanhf dt k st) as (M & _).
  cbv zeta in M.
  set (st' := Nat.iter k (Exec.simulation_step expf tanhf dt) st) in *.
  unfold Exec.simulation_step. cbn [Exec.set_arrays Exec.g_synapses snd].
  apply fold_process_unwired; cbn [fst snd]; [|exact IH].
  rewrite (wired_reset_frame _ _ s M). exact W.
Qed.

(** X14.  A synapse is activated only through the wiring: if no live neuron
    with its [pre_neuron_id] lists its [post_neuron_id] among its
    connections, or no live neuron has its [post_neuron_id], then
    [CMD_RUN_SIMULATION] of the executor and [runSimulationStep] of the
    bridge leave the synapse exactly as it was, whatever the potentials, the
    inputs and the number of steps.  So it is for a synapse created without
    [CMD_CONNECT_NEURONS], or one whose endpoint was deleted or never
    existed. *)
Theorem unwired_synapse_is_inert (j : nat) (s : Synapse) :
  (forall (params : option Exec.command_params_t) (st : Exec.state),
     nth_error (Exec.g_synapses st) j = Some s ->
     wired (Exec.g_neurons st) s = false ->
     nth_error
       (Exec.g_synapses
          (fst (Exec.exec_command expf tanhf Exec.CMD_RUN_SIMULATION
                  params st))) j = Some s) /\
  (forall (inputs : list f32) (timeStep : f32) (junk : list f32)
          (st : Bridge.state),
     nth_error (Bridge.g_synapses st) j = Some s ->
     wired (Bridge.g_neurons st) s = false ->
     nth_error
       (Bridge.g_synapses
          (fst (Bridge.runSimulationStep expf tanhf inputs timeStep junk st)))
       j = Some s).
Proof.
  split.
  - intros params st H W. unfold Exec.exec_command.
    destruct (negb (Exec.g_initialized st)); [exact H|].
    destruct (negb (Exec.g_running st)); [exact H|].
    destruct params as [p | ]; [|exact H].
    cbv zeta. cbn [fst]. apply simulation_steps_unwired; assumption.
  - intros inputs timeStep junk st H W.
    destruct (Bridge.g_initialized st) eqn:I.
    2:{ unfold Bridge.runSimulationStep. rewrite I. exact H. }
    destruct (Bridge.g_neurons st) as [ | n0 ns0] eqn:N.
    { unfold Bridge.runSimulationStep. rewrite I, N. simpl.
      destruct inputs; exact H. }
    assert (Bridge.g_neurons st <> []) as NE by (rewrite N; discriminate).
    destruct (bridge_step_arrays expf tanhf inputs timeStep junk st I NE)
      as (A & _). cbv zeta in A.
    rewrite <- N in *.
    change (Bridge.g_synapses
              (fst (Bridge.runSimulationStep expf tanhf inputs timeStep junk
                      st)))
      with (snd (Bridge.g_neurons
                   (fst (Bridge.runSimulationStep expf tanhf inputs timeStep
                           junk st)),
                 Bridge.g_synapses
                   (fst (Bridge.runSimulationStep expf tanhf inputs timeStep
                           junk st)))).
    rewrite A. apply fold_process_unwired; cbn [fst snd]; [|exact H].
    rewrite (wired_reset_frame _ _ s
               (apply_inputs_reset (Bridge.g_neurons st) inputs)).
    exact W.
Qed.

End Unwired.

(** X14 applied to the bridge: neurons 1 and 2 and a synapse from 1 to 2,
    but 2 not among the connections of 1.  Input 20 makes neuron 1 fire at
    time 1, and the synapse still has never been active. *)
Lemma unwired_synapse_is_inert_witness :
  let st :=
    fst (Bridge.createSynapse 1 1 2 0
           (fst (Bridge.createNeuron 2 0 0
                   (fst (Bridge.createNeuron 1 0 0
                           (fst (Bridge.initCore Bridge.start))))))) in
  let s := synapse_create 1 1 2 EXCITATORY_SYNAPSE in
  let r :=
    Bridge.runSimulationStep (fun x => x) (fun x => x) [F32.of_Z 20] F32.one
      [] st in
  nth_error (Bridge.g_synapses st) 0 = Some s /\
  wired (Bridge.g_neurons st) s = false /\
  map last_fired (Bridge.g_neurons (fst r)) = [F32.one; F32.of_Z (-1000)] /\
  nth_error (Bridge.g_synapses (fst r)) 0 = Some s.
Proof.
  cbv zeta. split; [reflexivity|]. split; [reflexivity|].
  split; [vm_compute; reflexivity|].
  destruct (unwired_synapse_is_inert (fun x => x) (fun x => x) 0
              (synapse_create 1 1 2 EXCITATORY_SYNAPSE)) as [_ B].
  apply B; reflexivity.
Defined.

(** ** Inputs of a bridge step *)

Lemma apply_inputs_firstn (neurons : list Neuron) :
  forall inputs : list f32,
    Bridge.apply_inputs neurons (firstn (length neurons) inputs)
    = Bridge.apply_inputs neurons inputs.
Proof.
  induction neurons as [ | n neurons IH]; intros [ | x inputs]; simpl;
    try reflexivity.
  rewrite IH. reflexivity.
Qed.

Lemma apply_inputs_nth (neurons : list Neuron) :
  forall (inputs : list f32) (i : nat) (n : Neuron),
    nth_error neurons i = Some n ->
    nth_error (Bridge.apply_inputs neurons inputs) i =
    Some match nth_error inputs i with
         | Some x => add_potential x n
         | None => n
         end.
Proof.
  induction neurons as [ | m neurons IH]; intros inputs i n H.
  - destruct i; discriminate.
  - destruct inputs as [ | x inputs].
    + simpl. rewrite H. destruct i; reflexivity.
    + destruct i as [ | i]; simpl in *.
      * congruence.
      * apply IH. exact H.
Qed.

(** X15.  [runSimulationStep] matches inputs to neurons by position in the
    array, not by id: input [i] is added to the potential of the neuron at
    index [i] before the pass, a neuron with no input at its index is left as
    it is, and inputs beyond the number of neurons are ignored, a step with
    them being the step without them. *)
Theorem step_inputs_are_positional (expf tanhf : f32 -> f32)
    (inputs : list f32) (timeStep : f32) (junk : list f32)
    (st : Bridge.state) :
  Bridge.runSimulationStep expf tanhf inputs timeStep junk st =
  Bridge.runSimulationStep expf tanhf
    (firstn (length (Bridge.g_neurons st)) inputs) timeStep junk st /\
  length (Bridge.apply_inputs (Bridge.g_neurons st) inputs)
  = length (Bridge.g_neurons st) /\
  (forall (i : nat) (n : Neuron),
     nth_error (Bridge.g_neurons st) i = Some n ->
     nth_error (Bridge.apply_inputs (Bridge.g_neurons st) inputs) i =
     Some match nth_error inputs i with
          | Some x => set_potential (F32.add (potential n) x) n
          | None => n
          end).
Proof.
  split; [|split].
  - unfold Bridge.runSimulationStep. rewrite apply_inputs_firstn.
    reflexivity.
  - apply apply_inputs_length.
  - intros i n H. apply apply_inputs_nth. exact H.
Qed.

(** ** Life cycle of the bridge *)

(** X16.  After [cleanupCore], and until [initCore], [createNeuron] and
    [createSynapse] return 0 and [runSimulationStep] returns NULL, each
    leaving the state as it is, and a second [cleanupCore] does nothing.
    [initCore] then returns 1 and starts from empty arrays with the clock at
    0, whereas [initCore] on an initialised bridge returns 0 and keeps
    everything. *)
Theorem bridge_cleanup_then_init (expf tanhf : f32 -> f32)
    (st : Bridge.state) :
  Bridge.g_initialized st = true ->
  let down := Bridge.cleanupCore st in
  (forall id type activation : Z,
     Bridge.createNeuron id type activation down = (down, None)) /\
  (forall id preId postId type : Z,
     Bridge.createSynapse id preId postId type down = (down, None)) /\
  (forall (inputs : list f32) (timeStep : f32) (junk : list f32),
     Bridge.runSimulationStep expf tanhf inputs timeStep junk down =
     (down, None)) /\
  Bridge.cleanupCore down = down /\
  Bridge.initCore down = (Bridge.mkState true [] 100 [] 500 F32.zero, 1%Z) /\
  Bridge.initCore st = (st, 0%Z).
Proof.
  intros I. cbv zeta. unfold Bridge.cleanupCore. rewrite I. cbn [negb].
  repeat split. unfold Bridge.initCore. rewrite I. reflexivity.
Qed.

(** X16 applied to the two-neuron graph of the bridge. *)
Lemma bridge_cleanup_then_init_witness :
  Bridge.g_initialized Bridge.two_neurons = true /\
  Bridge.createNeuron 3 0 0 (Bridge.cleanupCore Bridge.two_neurons) =
  (Bridge.cleanupCore Bridge.two_neurons, None).
Proof.
  split; [reflexivity|].
  destruct (bridge_cleanup_then_init (fun x => x) (fun x => x)
              Bridge.two_neurons eq_refl) as (C & _).
  exact (C 3%Z 0%Z 0%Z).
Defined.

(** ** The command buffer *)

(** X17.  [exec_process_buffer] executes the command before it looks at the
    room for the result.  On a running executor, a five-byte buffer that
    creates a neuron with a fresh id and a result buffer that is too small
    give the return code -1 although the neuron has been created; the same
    buffer sent again with enough room returns 0 with status -1, the id now
    being live.  A buffer of fewer than five bytes carries no parameters: its
    creation command creates neuron 0 whatever follows the command byte. *)
Theorem process_buffer_executes_before_size_check (expf tanhf : f32 -> f32)
    (sizeof_result : Z) (st : Exec.state) (id type activation target : Z)
    (result_size : Z) :
  Exec.g_initialized st = true -> Exec.g_running st = true ->
  ~ In id (Exec.neuron_ids st) ->
  (result_size < sizeof_result)%Z ->
  let buffer := [1%Z; id; type; activation; target] in
  exists st' : Exec.state,
    Exec.exec_process_buffer expf tanhf sizeof_result buffer result_size st =
      Some (st', (-1)%Z, None) /\
    Exec.neuron_ids st' = Exec.neuron_ids st ++ [id] /\
    Exec.exec_process_buffer expf tanhf sizeof_result buffer sizeof_result st'
    = Some (st', 0%Z, Some Exec.failed) /\
    (forall b1 b2 b3 : Z,
       Exec.exec_process_buffer expf tanhf sizeof_result [1%Z; b1; b2; b3]
         sizeof_result st =
       Exec.exec_process_buffer expf tanhf sizeof_result [1%Z]
         sizeof_result st) /\
    Exec.exec_process_buffer expf tanhf sizeof_result [] sizeof_result st =
      Some (st, (-1)%Z, None).
Proof.
  intros I R Fresh Small. cbv zeta. unfold Exec.neuron_ids in *.
  apply find_neuron_none in Fresh.
  set (p := Exec.params_of_buffer [1%Z; id; type; activation; target]).
  set (neuron :=
         Exec.neuron_overrides p
           (neuron_create id (NeuronType_of_u32 type)
              (ActivationFunction_of_u32 activation))).
  set (st' :=
         Exec.mkState true true (Exec.g_neurons st ++ [neuron])
           (Exec.grown (length (Exec.g_neurons st))
              (Exec.g_neuron_capacity st))
           (Exec.g_synapses st) (Exec.g_synapse_capacity st)
           (Exec.g_simulation_time st)).
  assert (Exec.exec_command expf tanhf Exec.CMD_CREATE_NEURON (Some p) st =
          (st', Exec.mkResult 0 id F32.zero)) as C1.
  { unfold Exec.exec_command. rewrite I, R. cbn [negb].
    change (Exec.neuron_id p) with id. rewrite Fresh. reflexivity. }
  assert (find_neuron (Exec.g_neurons st') id <> None) as Live.
  { intros N. apply find_neuron_none in N. apply N.
    change (Exec.g_neurons st') with (Exec.g_neurons st ++ [neuron]).
    rewrite map_app. apply in_or_app. right. left.
    unfold neuron. rewrite neuron_overrides_id. reflexivity. }
  assert (Exec.exec_command expf tanhf Exec.CMD_CREATE_NEURON (Some p) st' =
          (st', Exec.failed)) as C2.
  { apply create_neuron_duplicate. exact Live. }
  exists st'. split; [|split; [|split; [|split]]].
  - unfold Exec.exec_process_buffer. rewrite I, R.
    cbn [negb orb Z.eqb Exec.command_type_of_byte]. fold p. rewrite C1.
    destruct (Z.geb_spec result_size sizeof_result); [lia | reflexivity].
  - change (Exec.g_neurons st') with (Exec.g_neurons st ++ [neuron]).
    rewrite map_app. cbn [map]. unfold neuron.
    rewrite neuron_overrides_id. reflexivity.
  - unfold Exec.exec_process_buffer.
    cbn [negb orb Z.eqb Exec.command_type_of_byte Exec.g_initialized
           Exec.g_running st']. fold p. rewrite C2.
    destruct (Z.geb_spec sizeof_result sizeof_result); [reflexivity | lia].
  - intros b1 b2 b3. reflexivity.
  - unfold Exec.exec_process_buffer. rewrite I, R. reflexivity.
Qed.

(** X17 applied to the two-neuron graph, neuron 3 and a result size of 12
    sent with room for 4 bytes. *)
Lemma process_buffer_executes_before_size_check_witness :
  Exec.g_initialized Exec.two_neurons = true /\
  Exec.g_running Exec.two_neurons = true /\
  ~ In 3%Z (Exec.neuron_ids Exec.two_neurons) /\
  (4 < 12)%Z /\
  exists st' : Exec.state,
    Exec.exec_process_buffer (fun x => x) (fun x => x) 12
      [1%Z; 3%Z; 0%Z; 0%Z; 0%Z] 4 Exec.two_neurons = Some (st', (-1)%Z, None) /\
    Exec.neuron_ids st' = Exec.neuron_ids Exec.two_neurons ++ [3%Z].
Proof.
  assert (~ In 3%Z (Exec.neuron_ids Exec.two_neurons)) as Fresh.
  { simpl. intuition discriminate. }
  assert (4 < 12)%Z as Small by lia.
  split; [reflexivity|]. split; [reflexivity|]. split; [exact Fresh|].
  split; [exact Small|].
  destruct (process_buffer_executes_before_size_check (fun x => x)
              (fun x => x) 12 Exec.two_neurons 3 0 0 0 4 eq_refl eq_refl
              Fresh Small) as (st' & E & Ids & _).
  exists st'. split; [exact E | exact Ids].
Defined.

(** ** The tracked allocator *)

Lemma block_size_None (ptr : Z) (bs : list (Z * Z)) :
  Mm.block_size ptr bs = None <-> ~ In ptr (map fst bs).
Proof.
  induction bs as [ | [a size] bs IH]; simpl.
  - split; [intros _ [] | reflexivity].
  - destruct (Z.eqb_spec a ptr) as [E | E].
    + split; [discriminate | intros H; exfalso; apply H; left; exact E].
    + rewrite IH. split; [intros H [F | F]; [congruence | contradiction]|].
      intros H F. apply H. right. exact F.
Qed.

Lemma unlink_incl (ptr : Z) (bs : list (Z * Z)) (a : Z) :
  In a (map fst (Mm.unlink ptr bs)) -> In a (map fst bs).
Proof.
  induction bs as [ | [b size] bs IH]; simpl; [tauto|].
  destruct (b =? ptr)%Z; simpl; [right; assumption|].
  intros [H | H]; [left; exact H | right; apply IH; exact H].
Qed.

Lemma unlink_NoDup (ptr : Z) (bs : list (Z * Z)) :
  NoDup (map fst bs) -> NoDup (map fst (Mm.unlink ptr bs)).
Proof.
  induction bs as [ | [b size] bs IH]; simpl; intros D; [exact D|].
  inversion D as [ | x xs Hx D']; subst.
  destruct (b =? ptr)%Z; simpl; [exact D'|].
  constructor; [|apply IH; exact D'].
  intros I. apply Hx. apply (unlink_incl ptr bs b I).
Qed.

Lemma unlink_absent (ptr : Z) (bs : list (Z * Z)) :
  NoDup (map fst bs) -> ~ In ptr (map fst (Mm.unlink ptr bs)).
Proof.
  induction bs as [ | [b size] bs IH]; simpl; intros D; [tauto|].
  inversion D as [ | x xs Hx D']; subst.
  destruct (Z.eqb_spec b ptr) as [E | E]; simpl.
  - subst b. exact Hx.
  - intros [H | H]; [congruence | apply (IH D' H)].
Qed.

Lemma unlink_stats (ptr size : Z) (bs : list (Z * Z)) :
  Mm.block_size ptr bs = Some size ->
  Mm.live_bytes bs = (size + Mm.live_bytes (Mm.unlink ptr bs))%Z /\
  length bs = S (length (Mm.unlink ptr bs)).
Proof.
  induction bs as [ | [b sz] bs IH]; simpl; [discriminate|].
  destruct (b =? ptr)%Z.
  - intros [= ->]. split; reflexivity.
  - intros H. destruct (IH H) as [L N]. simpl. split; lia.
Qed.

Lemma relink_stats (ptr ptr' size new_size : Z) (bs : list (Z * Z)) :
  Mm.block_size ptr bs = Some size ->
  (Mm.live_bytes (Mm.relink ptr ptr' new_size bs)
   = Mm.live_bytes bs - size + new_size)%Z /\
  length (Mm.relink ptr ptr' new_size bs) = length bs.
Proof.
  induction bs as [ | [b sz] bs IH]; simpl; [discriminate|].
  destruct (b =? ptr)%Z.
  - intros [= ->]. simpl. split; lia.
  - intros H. destruct (IH H) as [L N]. simpl. split; lia.
Qed.

Lemma relink_incl (ptr ptr' new_size : Z) (bs : list (Z * Z)) (a : Z) :
  In a (map fst (Mm.relink ptr ptr' new_size bs)) ->
  a = ptr' \/ In a (map fst bs).
Proof.
  induction bs as [ | [b size] bs IH]; simpl; [tauto|].
  destruct (b =? ptr)%Z; simpl.
  - intros [H | H]; [left; congruence | right; right; exact H].
  - intros [H | H]; [right; left; exact H|].
    destruct (IH H) as [E | E]; [left; exact E | right; right; exact E].
Qed.

Lemma relink_NoDup (ptr ptr' new_size : Z) (bs : list (Z * Z)) :
  NoDup (map fst bs) ->
  ptr' = ptr \/ ~ In ptr' (map fst bs) ->
  NoDup (map fst (Mm.relink ptr ptr' new_size bs)).
Proof.
  induction bs as [ | [b size] bs IH]; simpl; intros D F; [exact D|].
  inversion D as [ | x xs Hx D']; subst.
  destruct (Z.eqb_spec b ptr) as [E | E]; simpl.
  - constructor; [|exact D']. destruct F as [F | F].
    + congruence.
    + intros I. apply F. right. exact I.
  - constructor.
    + intros I. destruct (relink_incl _ _ _ _ _ I) as [H | H].
      * destruct F as [F | F]; [congruence|]. apply F. left. exact H.
      * contradiction.
    + apply IH; [exact D'|]. destruct F as [F | F]; [left; exact F|].
      right. intros I. apply F. right. exact I.
Qed.

Lemma size_modulus_pos : (0 < Mm.size_modulus)%Z.
Proof. reflexivity. Qed.

Lemma mm_alloc_consistent (host : option Z) (size : Z) (st : Mm.state) :
  Mm.consistent st ->
  (forall a, host = Some a -> ~ In a (map fst (Mm.blocks st))) ->
  Mm.consistent (fst (Mm.mm_alloc host size st)).
Proof.
  intros C Fresh. unfold Mm.mm_alloc.
  destruct (Mm.g_initialized st) eqn:I.
  - destruct (size =? 0)%Z; [exact C|].
    destruct host as [a | ]; [|exact C].
    destruct C as (D & T & K). unfold Mm.consistent. simpl.
    split; [constructor; [apply Fresh; reflexivity | exact D]|].
    split.
    + rewrite T, Z.add_mod_idemp_l by (unfold Mm.size_modulus; lia).
      f_equal. lia.
    + rewrite K, Z.add_mod_idemp_l by (unfold Mm.size_modulus; lia).
      f_equal. lia.
  - unfold Mm.mm_init. rewrite I. cbn [fst].
    destruct (size =? 0)%Z.
    + unfold Mm.consistent. simpl. repeat split; constructor.
    + destruct host as [a | ].
      * unfold Mm.consistent. simpl.
        split; [repeat constructor; intros []|].
        split; [rewrite Z.add_0_r; reflexivity | reflexivity].
      * unfold Mm.consistent. simpl. repeat split; constructor.
Qed.

Lemma mm_free_consistent (ptr : option Z) (st st' : Mm.state) :
  Mm.consistent st -> Mm.mm_free ptr st = Some st' -> Mm.consistent st'.
Proof.
  intros C. unfold Mm.mm_free. destruct ptr as [p | ]; [|congruence].
  destruct (Mm.block_size p (Mm.blocks st)) as [size | ] eqn:B;
    [|discriminate].
  intros [= <-]. destruct C as (D & T & K).
  destruct (unlink_stats p size (Mm.blocks st) B) as [L N].
  unfold Mm.consistent. simpl.
  split; [apply unlink_NoDup; exact D|]. split.
  - rewrite T, Zminus_mod_idemp_l. f_equal. lia.
  - rewrite K, Zminus_mod_idemp_l. f_equal. lia.
Qed.

Lemma mm_realloc_consistent (host ptr : option Z) (new_size : Z)
    (st : Mm.state) (r : Mm.state * option Z) :
  Mm.consistent st ->
  (forall a, host = Some a ->
             ptr = Some a \/ ~ In a (map fst (Mm.blocks st))) ->
  Mm.mm_realloc host ptr new_size st = Some r ->
  Mm.consistent (fst r).
Proof.
  intros C Fresh. unfold Mm.mm_realloc. destruct ptr as [p | ].
  - destruct (new_size =? 0)%Z.
    + destruct (Mm.mm_free (Some p) st) as [st' | ] eqn:F; [|discriminate].
      intros [= <-]. apply (mm_free_consistent (Some p) st st' C F).
    + destruct (Mm.block_size p (Mm.blocks st)) as [size | ] eqn:B;
        [|discriminate].
      destruct C as (D & T & K).
      destruct host as [p' | ]; intros [= <-]; unfold Mm.consistent; simpl.
      * destruct (relink_stats p p' size new_size (Mm.blocks st) B) as [L N].
        split.
        { apply relink_NoDup; [exact D|].
          destruct (Fresh p' eq_refl) as [E | E];
            [left; congruence | right; exact E]. }
        split.
        { rewrite T, Zminus_mod_idemp_l, Z.add_mod_idemp_l
            by (unfold Mm.size_modulus; lia).
          rewrite L. reflexivity. }
        { rewrite N. exact K. }
      * split; [exact D|]. split; [|exact K].
        rewrite T, Zminus_mod_idemp_l, Z.add_mod_idemp_l
          by (unfold Mm.size_modulus; lia).
        f_equal. lia.
  - intros [= <-]. apply mm_alloc_consistent; [exact C|].
    intros a H. destruct (Fresh a H) as [E | E]; [discriminate | exact E].
Qed.

(** X18.  The statistics of the allocator stay exact.  If the byte count
    and the block count agree with the list of live blocks (modulo the
    width of [size_t]) and no two blocks share an address, they still do
    after [mm_alloc], [mm_free] and [mm_realloc], provided the host
    allocator returns an address that is not live, or, for a reallocation,
    the address of the block itself, and they still do after [mm_init] and
    [mm_cleanup].  They do on the state the program starts in. *)
Theorem mm_statistics_stay_consistent (st : Mm.state) :
  Mm.consistent st ->
  (forall (host : option Z) (size : Z),
     (forall a, host = Some a -> ~ In a (map fst (Mm.blocks st))) ->
     Mm.consistent (fst (Mm.mm_alloc host size st))) /\
  (forall (ptr : option Z) (st' : Mm.state),
     Mm.mm_free ptr st = Some st' -> Mm.consistent st') /\
  (forall (host ptr : option Z) (new_size : Z) (r : Mm.state * option Z),
     (forall a, host = Some a ->
                ptr = Some a \/ ~ In a (map fst (Mm.blocks st))) ->
     Mm.mm_realloc host ptr new_size st = Some r ->
     Mm.consistent (fst r)) /\
  Mm.consistent (fst (Mm.mm_init st)) /\
  Mm.consistent (Mm.mm_cleanup st) /\
  Mm.consistent Mm.start.
Proof.
  intros C.
  split; [intros host size F; apply mm_alloc_consistent; assumption|].
  split; [intros ptr st' F; apply (mm_free_consistent ptr st st' C F)|].
  split.
  { intros host ptr new_size r F H.
    apply (mm_realloc_consistent host ptr new_size st r C F H). }
  assert (Mm.consistent (Mm.mkState [] 0 0 true)) as E1.
  { unfold Mm.consistent. simpl. repeat split; constructor. }
  assert (Mm.consistent (Mm.mkState [] 0 0 false)) as E2.
  { unfold Mm.consistent. simpl. repeat split; constructor. }
  split; [unfold Mm.mm_init; destruct (Mm.g_initialized st); assumption|].
  split; [unfold Mm.mm_cleanup; destruct (Mm.g_initialized st); assumption|].
  exact E2.
Qed.

(** X18 applied to the state after the allocation of 800 bytes at address
    4096: a second block, of 4000 bytes at address 8192, keeps the
    statistics exact. *)
Lemma mm_statistics_stay_consistent_witness :
  Mm.consistent (fst (Mm.mm_alloc (Some 4096%Z) 800 Mm.start)) /\
  Mm.consistent
    (fst (Mm.mm_alloc (Some 8192%Z) 4000
            (fst (Mm.mm_alloc (Some 4096%Z) 800 Mm.start)))).
Proof.
  assert (Mm.consistent (fst (Mm.mm_alloc (Some 4096%Z) 800 Mm.start))) as C.
  { unfold Mm.consistent. simpl.
    split; [repeat constructor; intros []|]. split; reflexivity. }
  split; [exact C|].
  destruct (mm_statistics_stay_consistent _ C) as (A & _).
  apply A. intros a [= <-]. simpl. intuition discriminate.
Defined.

(** X19.  Freeing what was just allocated restores the allocator: on an
    initialised state with exact statistics, [mm_alloc] of a size that is
    not 0 followed by [mm_free] of the pointer it returned gives back the
    state before the allocation, byte count and block count included.
    [mm_alloc] of 0 bytes returns NULL and changes nothing, and so does an
    allocation or a reallocation of a live block that the host allocator
    refuses. *)
Theorem mm_alloc_free_round_trip (st : Mm.state) (a size : Z) :
  Mm.consistent st -> Mm.g_initialized st = true ->
  size <> 0%Z -> ~ In a (map fst (Mm.blocks st)) ->
  let r := Mm.mm_alloc (Some a) size st in
  snd r = Some a /\
  Mm.mm_free (snd r) (fst r) = Some st /\
  Mm.mm_alloc (Some a) 0 st = (st, None) /\
  Mm.mm_alloc None size st = (st, None) /\
  (forall new_size : Z,
     new_size <> 0%Z ->
     Mm.mm_realloc None (snd r) new_size (fst r) = Some (fst r, None)) /\
  Mm.mm_realloc (Some a) None size st = Some r /\
  Mm.mm_realloc None (snd r) 0 (fst r) = Some (st, None).
Proof.
  intros (D & T & K) I Z0 Fresh. cbv zeta.
  assert (0 <= Mm.g_total_memory st < Mm.size_modulus)%Z as RT.
  { rewrite T. apply Z.mod_pos_bound. reflexivity. }
  assert (0 <= Mm.g_block_count st < Mm.size_modulus)%Z as RK.
  { rewrite K. apply Z.mod_pos_bound. reflexivity. }
  assert ((size =? 0)%Z = false) as Z0' by (apply Z.eqb_neq; exact Z0).
  assert (Mm.mm_alloc (Some a) size st =
          (Mm.mkState ((a, size) :: Mm.blocks st)
             ((Mm.g_total_memory st + size) mod Mm.size_modulus)
             ((Mm.g_block_count st + 1) mod Mm.size_modulus) true,
           Some a)) as A.
  { unfold Mm.mm_alloc. rewrite I, Z0'. rewrite I. reflexivity. }
  assert (Mm.mm_free (Some a)
            (Mm.mkState ((a, size) :: Mm.blocks st)
               ((Mm.g_total_memory st + size) mod Mm.size_modulus)
               ((Mm.g_block_count st + 1) mod Mm.size_modulus) true)
          = Some st) as F.
  { unfold Mm.mm_free. simpl. rewrite Z.eqb_refl.
    rewrite !Zminus_mod_idemp_l.
    replace (Mm.g_total_memory st + size - size)%Z
      with (Mm.g_total_memory st) by lia.
    replace (Mm.g_block_count st + 1 - 1)%Z
      with (Mm.g_block_count st) by lia.
    rewrite !Z.mod_small by assumption.
    destruct st; simpl in *. subst. reflexivity. }
  rewrite A. cbn [fst snd].
  split; [reflexivity|]. split; [exact F|].
  split; [unfold Mm.mm_alloc; rewrite I; reflexivity|].
  split; [unfold Mm.mm_alloc; rewrite I, Z0'; reflexivity|].
  split.
  { intros new_size NZ. unfold Mm.mm_realloc.
    apply Z.eqb_neq in NZ. rewrite NZ.
    cbn [Mm.block_size Mm.blocks Mm.g_total_memory Mm.g_block_count
           Mm.g_initialized].
    rewrite Z.eqb_refl.
    rewrite Zminus_mod_idemp_l, Z.add_mod_idemp_l
      by (unfold Mm.size_modulus; lia).
    replace (Mm.g_total_memory st + size - size + size)%Z
      with (Mm.g_total_memory st + size)%Z by lia.
    reflexivity. }
  split; [unfold Mm.mm_realloc; rewrite A; reflexivity|].
  unfold Mm.mm_realloc. cbn [Z.eqb]. rewrite F. reflexivity.
Qed.

(** X19 applied to the allocator after [mm_init], 800 bytes at address
    4096. *)
Lemma mm_alloc_free_round_trip_witness :
  Mm.consistent (fst (Mm.mm_init Mm.start)) /\
  Mm.g_initialized (fst (Mm.mm_init Mm.start)) = true /\
  Mm.mm_free (Some 4096%Z)
    (fst (Mm.mm_alloc (Some 4096%Z) 800 (fst (Mm.mm_init Mm.start)))) =
  Some (fst (Mm.mm_init Mm.start)).
Proof.
  assert (Mm.consistent (fst (Mm.mm_init Mm.start))) as C.
  { unfold Mm.consistent. simpl. repeat split; constructor. }
  split; [exact C|]. split; [reflexivity|].
  destruct (mm_alloc_free_round_trip (fst (Mm.mm_init Mm.start)) 4096 800 C
              eq_refl) as (_ & F & _).
  - discriminate.
  - intros [].
  - exact F.
Defined.

(** X20.  [mm_check_leaks] is exact: on a state with exact statistics and
    fewer than 2^64 live blocks it returns 0 when no block is live and 1
    otherwise, [mm_get_allocated_blocks] is the number of live blocks, and
    [mm_get_used_memory] is the sum of their sizes when that sum is below
    2^64 and the sizes are not negative.  After [mm_cleanup] it returns
    0. *)
Theorem mm_check_leaks_exact (st : Mm.state) :
  Mm.consistent st ->
  (Z.of_nat (length (Mm.blocks st)) < Mm.size_modulus)%Z ->
  (Mm.mm_check_leaks st = 0%Z <-> Mm.blocks st = []) /\
  (Mm.mm_check_leaks st = 1%Z <-> Mm.blocks st <> []) /\
  Mm.mm_get_allocated_blocks st = Z.of_nat (length (Mm.blocks st)) /\
  ((0 <= Mm.live_bytes (Mm.blocks st) < Mm.size_modulus)%Z ->
   Mm.mm_get_used_memory st = Mm.live_bytes (Mm.blocks st)) /\
  (Mm.g_initialized st = true ->
   Mm.mm_check_leaks (Mm.mm_cleanup st) = 0%Z).
Proof.
  intros (D & T & K) Small.
  assert (Mm.g_block_count st = Z.of_nat (length (Mm.blocks st))) as K'.
  { rewrite K. apply Z.mod_small. lia. }
  unfold Mm.mm_check_leaks, Mm.mm_get_allocated_blocks,
    Mm.mm_get_used_memory. rewrite K'.
  split; [|split; [|split; [|split]]].
  - destruct (Mm.blocks st) as [ | b bs]; simpl.
    + split; reflexivity.
    + split; [discriminate|]. discriminate.
  - destruct (Mm.blocks st) as [ | b bs]; simpl.
    + split; [discriminate|]. intros H. exfalso. apply H. reflexivity.
    + split; [discriminate | reflexivity].
  - reflexivity.
  - intros R. rewrite T. apply Z.mod_small. exact R.
  - intros I. unfold Mm.mm_cleanup. rewrite I. reflexivity.
Qed.

(** X20 applied to the state after the allocation of 800 bytes at address
    4096. *)
Lemma mm_check_leaks_exact_witness :
  Mm.consistent (fst (Mm.mm_alloc (Some 4096%Z) 800 Mm.start)) /\
  Mm.mm_check_leaks (fst (Mm.mm_alloc (Some 4096%Z) 800 Mm.start)) = 1%Z /\
  Mm.mm_get_used_memory (fst (Mm.mm_alloc (Some 4096%Z) 800 Mm.start))
  = 800%Z.
Proof.
  assert (Mm.consistent (fst (Mm.mm_alloc (Some 4096%Z) 800 Mm.start))) as C.
  { unfold Mm.consistent. simpl.
    split; [repeat constructor; intros []|]. split; reflexivity. }
  split; [exact C|].
  destruct (mm_check_leaks_exact _ C) as (_ & L & _ & U & _).
  - reflexivity.
  - split; [apply L; discriminate|]. apply U. split; [discriminate|].
    reflexivity.
Defined.
